(** * rend: resource binding and draw dispatch over WebGL2

    A shallow embedding of [Command] (src/command.ts) and [Framebuffer]
    (framebuffer.ts) and the properties of their construction, draw dispatch,
    uniform dispatch and context-loss recovery.

    JavaScript code that talks to the GL context is embedded as a state and
    exception monad over a [World]: the trace of calls made on the context
    (each with the value the driver returned), the Device's draw-framebuffer
    binding stack, and the GL handle every [Texture] object currently holds.
    The driver itself is a parameter: a [Driver] answers every query from the
    trace so far. *)

From Stdlib Require Import ZArith String Ascii List Lia Bool.
From stdpp Require Import base option list strings gmap pretty.

Open Scope Z_scope.

(** ** Exceptions and the state monad *)

(** What the embedded code throws.  [JsError msg] is [throw new Error(msg)];
    [TypeError] is what a method of the context throws when an argument is
    not of the type its interface declares; the other constructors are the
    failures of helper modules. *)
Inductive Exn : Type :=
| JsError (msg : string)
| TypeError
| EmptyAttachmentList (name : string)
| DimensionMismatch (name : string) (declared attached : Z)
| CompileError (msg : string)
| LinkError (msg : string).

Inductive Res (A : Type) : Type :=
| Ok (a : A)
| Throw (e : Exn).
Arguments Ok {A} a.
Arguments Throw {A} e.

(** A computation over a mutable state [S]: mutations made before a throw
    stay in place, as in JavaScript. *)
Definition M (S A : Type) : Type := S -> Res A * S.

Definition ret {S A} (a : A) : M S A := fun s => (Ok a, s).

Definition bind {S A B} (m : M S A) (k : A -> M S B) : M S B :=
  fun s => match m s with
           | (Ok a, s') => k a s'
           | (Throw e, s') => (Throw e, s')
           end.

Definition throw {S A} (e : Exn) : M S A := fun s => (Throw e, s).

Definition modify {S} (f : S -> S) : M S unit := fun s => (Ok tt, f s).

(** [try { m } finally { h }]: [h] runs on both exits of [m], and an
    exception of [h] replaces the outcome of [m]. *)
Definition finally {S A} (m : M S A) (h : M S unit) : M S A :=
  fun s => let (r, s') := m s in
           match h s' with
           | (Ok _, s'') => (r, s'')
           | (Throw e, s'') => (Throw e, s'')
           end.

Declare Scope js_scope.
Delimit Scope js_scope with js.
Notation "x <- m ;; k" := (bind m (fun x => k))
  (at level 100, m at next level, right associativity) : js_scope.
Notation "m ;; k" := (bind m (fun _ => k))
  (at level 100, right associativity) : js_scope.
Open Scope js_scope.

(** [array.forEach((x, i) => body)], with the index counted from [i]. *)
Fixpoint forEach_from {S A} (body : A -> Z -> M S unit) (l : list A) (i : Z)
  : M S unit :=
  match l with
  | [] => ret tt
  | x :: l' => body x i ;; forEach_from body l' (i + 1)
  end.

Definition forEach {S A} (body : A -> Z -> M S unit) (l : list A) : M S unit :=
  forEach_from body l 0.

(** [array.map(f)] for a callback that may throw. *)
Fixpoint mapM {S A B} (f : A -> M S B) (l : list A) : M S (list B) :=
  match l with
  | [] => ret []
  | x :: l' => y <- f x ;; ys <- mapM f l' ;; ret (y :: ys)
  end.

(** [array.reduce(f, init)] for a callback that may throw. *)
Fixpoint reduceM {S A B} (f : B -> A -> M S B) (l : list A) (acc : B) : M S B :=
  match l with
  | [] => ret acc
  | x :: l' => acc' <- f acc x ;; reduceM f l' acc'
  end.

(** ** Regular expressions

    The fragment of JavaScript regular expressions that [INT_PATTERN] uses:
    anchors, character sets, a starred character set, sequence and
    alternation (which binds loosest).  [re_match] is a backtracking matcher
    in continuation style; [bol] tells whether the position is the start of
    the input. *)
Module Regex.

Inductive re : Type :=
| Bol                                  (* ^ *)
| Eol                                  (* $ *)
| CharSet (p : ascii -> bool)          (* [...] , \d, a literal *)
| StarSet (p : ascii -> bool)          (* [...]* , \d* *)
| Seq (r1 r2 : re)
| Alt (r1 r2 : re).

(** [p*] followed by [k]: greedy, giving characters back on failure. *)
Fixpoint star_match (p : ascii -> bool) (bol : bool) (s : list ascii)
    (k : bool -> list ascii -> bool) : bool :=
  match s with
  | c :: s' => (p c && star_match p false s' k) || k bol s
  | [] => k bol s
  end.

Fixpoint re_match (r : re) (bol : bool) (s : list ascii)
    (k : bool -> list ascii -> bool) : bool :=
  match r with
  | Bol => bol && k bol s
  | Eol => match s with [] => k bol s | _ :: _ => false end
  | CharSet p => match s with c :: s' => p c && k false s' | [] => false end
  | StarSet p => star_match p bol s k
  | Seq r1 r2 => re_match r1 bol s (fun bol' s' => re_match r2 bol' s' k)
  | Alt r1 r2 => re_match r1 bol s k || re_match r2 bol s k
  end.

(** Does [r] match at the current position, or at a later one? *)
Fixpoint search (r : re) (bol : bool) (s : list ascii) : bool :=
  re_match r bol s (fun _ _ => true) ||
  match s with
  | [] => false
  | _ :: s' => search r false s'
  end.

(** [regexp.test(str)] for a pattern without the [g] and [y] flags. *)
Definition test (r : re) (str : string) : bool :=
  search r true (list_ascii_of_string str).

Definition in_range (lo hi : ascii) (c : ascii) : bool :=
  (N.leb (N_of_ascii lo) (N_of_ascii c)) && (N.leb (N_of_ascii c) (N_of_ascii hi)).

Definition lit (a : ascii) : re := CharSet (Ascii.eqb a).
Definition digit : ascii -> bool := in_range "0" "9".

End Regex.

(** ** The GL context *)

Abbreviation WebGLFramebuffer := nat (only parsing).
Abbreviation WebGLTexture := nat (only parsing).
Abbreviation WebGLProgram := nat (only parsing).
Abbreviation WebGLShader := nat (only parsing).
Abbreviation WebGLUniformLocation := nat (only parsing).

(** A [Texture] object (texture.ts): its identity and its read-only size.
    The GL handle it holds is mutable and lives in the [World]. *)
Module Texture.
Record t : Type := mk { ref : nat; width : Z; height : Z }.
End Texture.

(** The fourth argument of [framebufferTexture2D] as JavaScript passes it:
    a GL texture handle (or null), or some other object. *)
Inductive TextureArg : Type :=
| GlHandle (h : option WebGLTexture)
| TextureObject (t : Texture.t).

(** One call on the context, or on a collaborator whose code is elsewhere,
    with the value it returned. *)
Inductive Event : Type :=
| E_createFramebuffer (ret : option WebGLFramebuffer)
| E_framebufferTexture2D (target attachment textarget : Z)
    (texture : TextureArg) (level : Z)
| E_checkFramebufferStatus (target : Z) (ret : Z)
| E_deleteFramebuffer (fbo : option WebGLFramebuffer)
| E_isFramebuffer (fbo : option WebGLFramebuffer) (ret : bool)
| E_Texture_restore (t : Texture.t)
| E_stackDrawFramebuffer_push (value : option WebGLFramebuffer)
| E_stackDrawFramebuffer_pop
| E_stackViewport_push (value : Z * Z * Z * Z)
| E_stackViewport_pop
| E_createShader (type : Z) (source : string) (ret : Exn + WebGLShader)
| E_createProgram (vs fs : WebGLShader) (ret : Exn + WebGLProgram)
| E_deleteShader (s : WebGLShader)
| E_getUniformLocation (program : WebGLProgram) (name : string)
    (ret : option WebGLUniformLocation)
| E_getAttribLocation (program : WebGLProgram) (name : string) (ret : Z)
| E_drawElementsInstanced (mode count type offset instanceCount : Z)
| E_drawElements (mode count type offset : Z)
| E_drawArraysInstanced (mode first count instanceCount : Z)
| E_drawArrays (mode first count : Z)
| E_activeTexture (texture : Z)
| E_bindTexture (target : Z) (texture : option WebGLTexture)
| E_uniform1f (loc : WebGLUniformLocation) (x : Z)
| E_uniform1fv (loc : WebGLUniformLocation) (v : list Z)
| E_uniform1i (loc : WebGLUniformLocation) (x : Z)
| E_uniform1iv (loc : WebGLUniformLocation) (v : list Z)
| E_uniform1ui (loc : WebGLUniformLocation) (x : Z)
| E_uniform1uiv (loc : WebGLUniformLocation) (v : list Z)
| E_uniform2f (loc : WebGLUniformLocation) (x y : option Z)
| E_uniform2fv (loc : WebGLUniformLocation) (v : list Z)
| E_uniform2i (loc : WebGLUniformLocation) (x y : option Z)
| E_uniform2iv (loc : WebGLUniformLocation) (v : list Z)
| E_uniform2ui (loc : WebGLUniformLocation) (x y : option Z)
| E_uniform2uiv (loc : WebGLUniformLocation) (v : list Z)
| E_uniform3f (loc : WebGLUniformLocation) (x y z : option Z)
| E_uniform3fv (loc : WebGLUniformLocation) (v : list Z)
| E_uniform3i (loc : WebGLUniformLocation) (x y z : option Z)
| E_uniform3iv (loc : WebGLUniformLocation) (v : list Z)
| E_uniform3ui (loc : WebGLUniformLocation) (x y z : option Z)
| E_uniform3uiv (loc : WebGLUniformLocation) (v : list Z)
| E_uniform4f (loc : WebGLUniformLocation) (x y z w : option Z)
| E_uniform4fv (loc : WebGLUniformLocation) (v : list Z)
| E_uniform4i (loc : WebGLUniformLocation) (x y z w : option Z)
| E_uniform4iv (loc : WebGLUniformLocation) (v : list Z)
| E_uniform4ui (loc : WebGLUniformLocation) (x y z w : option Z)
| E_uniform4uiv (loc : WebGLUniformLocation) (v : list Z)
| E_uniformMatrix2fv (loc : WebGLUniformLocation) (transpose : bool) (v : list Z)
| E_uniformMatrix3fv (loc : WebGLUniformLocation) (transpose : bool) (v : list Z)
| E_uniformMatrix4fv (loc : WebGLUniformLocation) (transpose : bool) (v : list Z).

(** The mutable state the embedded code runs against.  The trace also holds
    the calls the context rejected. *)
Record World : Type := mkWorld {
  log : list Event;                                  (* oldest call first *)
  drawFramebufferStack : list (option WebGLFramebuffer);   (* top first *)
  viewportStack : list (Z * Z * Z * Z);                    (* top first *)
  glTextures : gmap nat WebGLTexture;        (* Texture.ref -> its handle *)
}.

Definition set_log (l : list Event) (w : World) : World :=
  mkWorld l (drawFramebufferStack w) (viewportStack w) (glTextures w).
Definition set_drawFramebufferStack (st : list (option WebGLFramebuffer))
    (w : World) : World :=
  mkWorld (log w) st (viewportStack w) (glTextures w).
Definition set_viewportStack (st : list (Z * Z * Z * Z)) (w : World) : World :=
  mkWorld (log w) (drawFramebufferStack w) st (glTextures w).
Definition set_glTextures (m : gmap nat WebGLTexture) (w : World) : World :=
  mkWorld (log w) (drawFramebufferStack w) (viewportStack w) m.

Definition emit (e : Event) (w : World) : World := set_log (log w ++ [e]) w.

(** The driver: what each query returns, given the calls made so far. *)
Record Driver : Type := mkDriver {
  drv_createFramebuffer : list Event -> option WebGLFramebuffer;
  drv_checkFramebufferStatus : list Event -> Z -> Z;
  drv_isFramebuffer : list Event -> option WebGLFramebuffer -> bool;
  drv_getUniformLocation :
    list Event -> WebGLProgram -> string -> option WebGLUniformLocation;
  drv_getAttribLocation : list Event -> WebGLProgram -> string -> Z;
  drv_createShader : list Event -> Z -> string -> Exn + WebGLShader;
  drv_createProgram :
    list Event -> WebGLShader -> WebGLShader -> Exn + WebGLProgram;
  drv_Texture_restore : list Event -> Texture.t -> option WebGLTexture;
}.

(** Constants of the WebGL2 context. *)
Module GL.
Definition POINTS : Z := 0x0000.
Definition LINES : Z := 0x0001.
Definition LINE_LOOP : Z := 0x0002.
Definition LINE_STRIP : Z := 0x0003.
Definition TRIANGLES : Z := 0x0004.
Definition TRIANGLE_STRIP : Z := 0x0005.
Definition TRIANGLE_FAN : Z := 0x0006.
Definition UNSIGNED_INT : Z := 0x1405.
Definition TEXTURE_2D : Z := 0x0DE1.
Definition TEXTURE0 : Z := 0x84C0.
Definition VERTEX_SHADER : Z := 0x8B31.
Definition FRAGMENT_SHADER : Z := 0x8B30.
Definition DRAW_FRAMEBUFFER : Z := 0x8CA9.
Definition FRAMEBUFFER_COMPLETE : Z := 0x8CD5.
Definition COLOR_ATTACHMENT0 : Z := 0x8CE0.
Definition DEPTH_ATTACHMENT : Z := 0x8D00.
Definition DEPTH_STENCIL_ATTACHMENT : Z := 0x821A.
End GL.

(** The methods of the context the code calls.  A call is recorded in the
    trace as the code makes it.  [framebufferTexture2D] declares its fourth
    argument as [WebGLTexture | null]: handed any other object, the context
    throws a TypeError and attaches nothing.  No other call of the code can
    fail in this way. *)
Module gl.
Section WithDriver.
Variable d : Driver.

Definition call (e : Event) : M World unit := modify (emit e).

Definition query {A} (answer : list Event -> A) (e : A -> Event) : M World A :=
  fun w => let r := answer (log w) in (Ok r, emit (e r) w).

Definition createFramebuffer : M World (option WebGLFramebuffer) :=
  query (drv_createFramebuffer d) E_createFramebuffer.

Definition framebufferTexture2D (target attachment textarget : Z)
    (texture : TextureArg) (level : Z) : M World unit :=
  call (E_framebufferTexture2D target attachment textarget texture level) ;;
  match texture with
  | GlHandle _ => ret tt
  | TextureObject _ => throw TypeError
  end.

Definition checkFramebufferStatus (target : Z) : M World Z :=
  query (fun l => drv_checkFramebufferStatus d l target)
        (E_checkFramebufferStatus target).

Definition deleteFramebuffer (fbo : option WebGLFramebuffer) : M World unit :=
  call (E_deleteFramebuffer fbo).

Definition isFramebuffer (fbo : option WebGLFramebuffer) : M World bool :=
  query (fun l => drv_isFramebuffer d l fbo) (E_isFramebuffer fbo).

Definition deleteShader (s : WebGLShader) : M World unit :=
  call (E_deleteShader s).

Definition getUniformLocation (program : WebGLProgram) (name : string)
  : M World (option WebGLUniformLocation) :=
  query (fun l => drv_getUniformLocation d l program name)
        (E_getUniformLocation program name).

Definition getAttribLocation (program : WebGLProgram) (name : string)
  : M World Z :=
  query (fun l => drv_getAttribLocation d l program name)
        (E_getAttribLocation program name).

End WithDriver.

Definition drawElementsInstanced (mode count type offset instanceCount : Z) : M World unit :=
  call (E_drawElementsInstanced mode count type offset instanceCount).
Definition drawElements (mode count type offset : Z) : M World unit :=
  call (E_drawElements mode count type offset).
Definition drawArraysInstanced (mode first count instanceCount : Z) : M World unit :=
  call (E_drawArraysInstanced mode first count instanceCount).
Definition drawArrays (mode first count : Z) : M World unit :=
  call (E_drawArrays mode first count).
Definition activeTexture (texture : Z) : M World unit :=
  call (E_activeTexture texture).
Definition bindTexture (target : Z) (texture : option WebGLTexture)
  : M World unit :=
  call (E_bindTexture target texture).

Definition uniform1f (loc : WebGLUniformLocation) (x : Z) : M World unit :=
  call (E_uniform1f loc x).
Definition uniform2f (loc : WebGLUniformLocation) (x y : option Z)
  : M World unit :=
  call (E_uniform2f loc x y).
Definition uniform3f (loc : WebGLUniformLocation) (x y z : option Z)
  : M World unit :=
  call (E_uniform3f loc x y z).
Definition uniform4f (loc : WebGLUniformLocation) (x y z w : option Z)
  : M World unit :=
  call (E_uniform4f loc x y z w).
Definition uniform1fv (loc : WebGLUniformLocation) (v : list Z)
  : M World unit :=
  call (E_uniform1fv loc v).
Definition uniform2fv (loc : WebGLUniformLocation) (v : list Z)
  : M World unit :=
  call (E_uniform2fv loc v).
Definition uniform3fv (loc : WebGLUniformLocation) (v : list Z)
  : M World unit :=
  call (E_uniform3fv loc v).
Definition uniform4fv (loc : WebGLUniformLocation) (v : list Z)
  : M World unit :=
  call (E_uniform4fv loc v).
Definition uniform1i (loc : WebGLUniformLocation) (x : Z) : M World unit :=
  call (E_uniform1i loc x).
Definition uniform2i (loc : WebGLUniformLocation) (x y : option Z)
  : M World unit :=
  call (E_uniform2i loc x y).
Definition uniform3i (loc : WebGLUniformLocation) (x y z : option Z)
  : M World unit :=
  call (E_uniform3i loc x y z).
Definition uniform4i (loc : WebGLUniformLocation) (x y z w : option Z)
  : M World unit :=
  call (E_uniform4i loc x y z w).
Definition uniform1iv (loc : WebGLUniformLocation) (v : list Z)
  : M World unit :=
  call (E_uniform1iv loc v).
Definition uniform2iv (loc : WebGLUniformLocation) (v : list Z)
  : M World unit :=
  call (E_uniform2iv loc v).
Definition uniform3iv (loc : WebGLUniformLocation) (v : list Z)
  : M World unit :=
  call (E_uniform3iv loc v).
Definition uniform4iv (loc : WebGLUniformLocation) (v : list Z)
  : M World unit :=
  call (E_uniform4iv loc v).
Definition uniform1ui (loc : WebGLUniformLocation) (x : Z) : M World unit :=
  call (E_uniform1ui loc x).
Definition uniform2ui (loc : WebGLUniformLocation) (x y : option Z)
  : M World unit :=
  call (E_uniform2ui loc x y).
Definition uniform3ui (loc : WebGLUniformLocation) (x y z : option Z)
  : M World unit :=
  call (E_uniform3ui loc x y z).
Definition uniform4ui (loc : WebGLUniformLocation) (x y z w : option Z)
  : M World unit :=
  call (E_uniform4ui loc x y z w).
Definition uniform1uiv (loc : WebGLUniformLocation) (v : list Z)
  : M World unit :=
  call (E_uniform1uiv loc v).
Definition uniform2uiv (loc : WebGLUniformLocation) (v : list Z)
  : M World unit :=
  call (E_uniform2uiv loc v).
Definition uniform3uiv (loc : WebGLUniformLocation) (v : list Z)
  : M World unit :=
  call (E_uniform3uiv loc v).
Definition uniform4uiv (loc : WebGLUniformLocation) (v : list Z)
  : M World unit :=
  call (E_uniform4uiv loc v).
Definition uniformMatrix2fv (loc : WebGLUniformLocation) (transpose : bool)
    (v : list Z) : M World unit :=
  call (E_uniformMatrix2fv loc transpose v).
Definition uniformMatrix3fv (loc : WebGLUniformLocation) (transpose : bool)
    (v : list Z) : M World unit :=
  call (E_uniformMatrix3fv loc transpose v).
Definition uniformMatrix4fv (loc : WebGLUniformLocation) (transpose : bool)
    (v : list Z) : M World unit :=
  call (E_uniformMatrix4fv loc transpose v).

End gl.

(** ** Collaborators whose code is elsewhere *)

(** Modelled from the spec: the helper module [assert] (util/assert.ts).
    [assert.nonEmpty] fails with EmptyAttachmentList on an empty list and
    [assert.equal] fails with DimensionMismatch when the two sizes differ;
    both carry the name they were given. *)
Module assert.

Definition nonEmpty {S A} (p : list A) (name : string) : M S unit :=
  match p with
  | [] => throw (EmptyAttachmentList name)
  | _ :: _ => ret tt
  end.

Definition equal {S} (p expected : Z) (name : string) : M S unit :=
  if (p =? expected)%Z then ret tt
  else throw (DimensionMismatch name p expected).

End assert.

(** Modelled from the spec: the Device's binding-stack registers (device.ts),
    ordered push/pop registers whose top is the binding in force.  Each push
    and pop is recorded in the trace. *)
Module stackDrawFramebuffer.

Definition push (value : option WebGLFramebuffer) : M World unit :=
  modify (fun w =>
    set_drawFramebufferStack (value :: drawFramebufferStack w)
      (emit (E_stackDrawFramebuffer_push value) w)).

Definition pop : M World unit :=
  modify (fun w =>
    set_drawFramebufferStack (tail (drawFramebufferStack w))
      (emit E_stackDrawFramebuffer_pop w)).

End stackDrawFramebuffer.

(** Modelled from the spec: the Device's viewport register (device.ts),
    pushed and popped like the draw-framebuffer register. *)
Module stackViewport.

Definition push (value : Z * Z * Z * Z) : M World unit :=
  modify (fun w =>
    set_viewportStack (value :: viewportStack w)
      (emit (E_stackViewport_push value) w)).

Definition pop : M World unit :=
  modify (fun w =>
    set_viewportStack (tail (viewportStack w)) (emit E_stackViewport_pop w)).

End stackViewport.

(** Modelled from the spec: [glutil.createShader] and [glutil.createProgram]
    (glutil.ts) compile and link, and fail with CompileError and LinkError. *)
Module glutil.
Section WithDriver.
Variable d : Driver.

Definition createShader (type : Z) (source : string) : M World WebGLShader :=
  r <- gl.query (fun l => drv_createShader d l type source)
                (E_createShader type source) ;;
  match r with inl e => throw e | inr shader => ret shader end.

Definition createProgram (vs fs : WebGLShader) : M World WebGLProgram :=
  r <- gl.query (fun l => drv_createProgram d l vs fs) (E_createProgram vs fs) ;;
  match r with inl e => throw e | inr program => ret program end.

End WithDriver.
End glutil.

(** The [glTexture] property of a Texture object, as it is now. *)
Definition glTexture (t : Texture.t) : M World (option WebGLTexture) :=
  fun w => (Ok (glTextures w !! Texture.ref t), w).

(** Modelled from the spec: [Texture.restore] (texture.ts) reinitialises the
    GPU-side storage of a texture; the handle the object holds afterwards is
    the driver's to decide. *)
Definition Texture_restore (d : Driver) (t : Texture.t) : M World unit :=
  fun w =>
    let h := drv_Texture_restore d (log w) t in
    (Ok tt,
     set_glTextures
       (match h with
        | Some h' => <[Texture.ref t := h']> (glTextures w)
        | None => delete (Texture.ref t) (glTextures w)
        end)
       (emit (E_Texture_restore t) w)).

(** ** command.ts *)

(** A JavaScript number used as a condition: zero is false. *)
Definition truthy (n : Z) : bool := negb (n =? 0)%Z.

Module Command.

(** [/^0|[1-9]\d*$/]: the alternation splits the pattern into [^0] and
    [[1-9]\d*$]. *)
Definition INT_PATTERN : Regex.re :=
  Regex.Alt
    (Regex.Seq Regex.Bol (Regex.lit "0"))
    (Regex.Seq (Regex.CharSet (Regex.in_range "1" "9"))
               (Regex.Seq (Regex.StarSet Regex.digit) Regex.Eol)).

Definition UNKNOWN_ATTRIB_LOCATION : Z := -1.

Inductive Primitive : Type :=
| Triangles | TriangleStrip | TriangleFan | Points | Lines | LineStrip | LineLoop.

Inductive AccessorOrValue (P R : Type) : Type :=
| Accessor (f : P -> R)
| Value (v : R).
Arguments Accessor {P R} f.
Arguments Value {P R} v.

Definition access {P R} (props : P) (value : AccessorOrValue P R) : R :=
  match value with
  | Accessor f => f props
  | Value v => v
  end.

(** The union [Uniform<P>]: the constructor is the [type] tag, its argument
    the [value] field. *)
Inductive Uniform (P : Type) : Type :=
| Uniform1f (value : AccessorOrValue P Z)
| Uniform1fv (value : AccessorOrValue P (list Z))
| Uniform1i (value : AccessorOrValue P Z)
| Uniform1iv (value : AccessorOrValue P (list Z))
| Uniform1ui (value : AccessorOrValue P Z)
| Uniform1uiv (value : AccessorOrValue P (list Z))
| Uniform2f (value : AccessorOrValue P (list Z))
| Uniform2fv (value : AccessorOrValue P (list Z))
| Uniform2i (value : AccessorOrValue P (list Z))
| Uniform2iv (value : AccessorOrValue P (list Z))
| Uniform2ui (value : AccessorOrValue P (list Z))
| Uniform2uiv (value : AccessorOrValue P (list Z))
| Uniform3f (value : AccessorOrValue P (list Z))
| Uniform3fv (value : AccessorOrValue P (list Z))
| Uniform3i (value : AccessorOrValue P (list Z))
| Uniform3iv (value : AccessorOrValue P (list Z))
| Uniform3ui (value : AccessorOrValue P (list Z))
| Uniform3uiv (value : AccessorOrValue P (list Z))
| Uniform4f (value : AccessorOrValue P (list Z))
| Uniform4fv (value : AccessorOrValue P (list Z))
| Uniform4i (value : AccessorOrValue P (list Z))
| Uniform4iv (value : AccessorOrValue P (list Z))
| Uniform4ui (value : AccessorOrValue P (list Z))
| Uniform4uiv (value : AccessorOrValue P (list Z))
| UniformMatrix2fv (value : AccessorOrValue P (list Z))
| UniformMatrix3fv (value : AccessorOrValue P (list Z))
| UniformMatrix4fv (value : AccessorOrValue P (list Z))
| UniformTexture (value : AccessorOrValue P Texture.t).
Arguments Uniform1f {P} value.
Arguments Uniform1fv {P} value.
Arguments Uniform1i {P} value.
Arguments Uniform1iv {P} value.
Arguments Uniform1ui {P} value.
Arguments Uniform1uiv {P} value.
Arguments Uniform2f {P} value.
Arguments Uniform2fv {P} value.
Arguments Uniform2i {P} value.
Arguments Uniform2iv {P} value.
Arguments Uniform2ui {P} value.
Arguments Uniform2uiv {P} value.
Arguments Uniform3f {P} value.
Arguments Uniform3fv {P} value.
Arguments Uniform3i {P} value.
Arguments Uniform3iv {P} value.
Arguments Uniform3ui {P} value.
Arguments Uniform3uiv {P} value.
Arguments Uniform4f {P} value.
Arguments Uniform4fv {P} value.
Arguments Uniform4i {P} value.
Arguments Uniform4iv {P} value.
Arguments Uniform4ui {P} value.
Arguments Uniform4uiv {P} value.
Arguments UniformMatrix2fv {P} value.
Arguments UniformMatrix3fv {P} value.
Arguments UniformMatrix4fv {P} value.
Arguments UniformTexture {P} value.

Record ClearInfo : Type := mkClearInfo {
  color : option (Z * Z * Z * Z);
  depth : option Z;
  stencil : option Z;
}.

Record UniformInfo (P : Type) : Type := mkUniformInfo {
  identifier : string;
  location : WebGLUniformLocation;
  definition : Uniform P;
}.
Arguments mkUniformInfo {P}.
Arguments identifier {P}.
Arguments location {P}.
Arguments definition {P}.

(** [CommandProps<P>]; an absent optional field is [None].  The [uniforms]
    object is given by its entries, in the order of [Object.entries]. *)
Record CommandProps (P : Type) : Type := mkCommandProps {
  vert : string;
  frag : string;
  uniforms : option (list (string * Uniform P));
  primitive : option Primitive;
  clear : option ClearInfo;
}.
Arguments mkCommandProps {P}.
Arguments vert {P}.
Arguments frag {P}.
Arguments uniforms {P}.
Arguments primitive {P}.
Arguments clear {P}.

Record t (P : Type) : Type := mk {
  glProgram : WebGLProgram;
  glPrimitive : Z;
  uniformInfo : list (UniformInfo P);
  clearInfo : option ClearInfo;
}.
Arguments mk {P}.
Arguments glProgram {P}.
Arguments glPrimitive {P}.
Arguments uniformInfo {P}.
Arguments clearInfo {P}.

Definition mapGlPrimitive (primitive : Primitive) : Z :=
  match primitive with
  | Triangles => GL.TRIANGLES
  | TriangleStrip => GL.TRIANGLE_STRIP
  | TriangleFan => GL.TRIANGLE_FAN
  | Points => GL.POINTS
  | Lines => GL.LINES
  | LineStrip => GL.LINE_STRIP
  | LineLoop => GL.LINE_LOOP
  end.

Section WithDriver.
Variable d : Driver.
Context {P : Type}.

Definition create (props : CommandProps P) : M World (t P) :=
  let uniforms := default [] (uniforms props) in
  let primitive := default Triangles (primitive props) in
  let clear := default (mkClearInfo None None None) (clear props) in
  vertShader <- glutil.createShader d GL.VERTEX_SHADER (vert props) ;;
  fragShader <- glutil.createShader d GL.FRAGMENT_SHADER (frag props) ;;
  program <- glutil.createProgram d vertShader fragShader ;;
  gl.deleteShader vertShader ;;
  gl.deleteShader fragShader ;;
  uniformInfo <-
    mapM (fun '(identifier, uniform) =>
            location <- gl.getUniformLocation d program identifier ;;
            match location with
            | None => throw (JsError ("No location for uniform: " +:+ identifier))
            | Some location => ret (mkUniformInfo identifier location uniform)
            end)
         uniforms ;;
  let clearInfo := mkClearInfo (color clear) (depth clear) (stencil clear) in
  ret (mk program (mapGlPrimitive primitive) uniformInfo (Some clearInfo)).

(** [locate]: the [attributes] object is given by its entries; the located
    object is a map from property keys (strings) to definitions, and a
    number used as a key is written in decimal. *)
Definition locate {Def Elems : Type} (c : t P)
    (attributes : list (string * Def)) (elements : Elems)
  : M World (gmap string Def * Elems) :=
  locatedAttributes <-
    reduceM (fun (accum : gmap string Def) '(identifier, definition) =>
               if Regex.test INT_PATTERN identifier then
                 ret (<[identifier := definition]> accum)
               else
                 location <- gl.getAttribLocation d (glProgram c) identifier ;;
                 if (location =? UNKNOWN_ATTRIB_LOCATION)%Z then
                   throw (JsError ("No location for attrib: " +:+ identifier))
                 else
                   ret (<[pretty location := definition]> accum))
            attributes ∅ ;;
  ret (locatedAttributes, elements).

(** [draw]: [instCount] is tested as a condition. *)
Definition draw (c : t P) (hasElements : bool) (count instCount : Z)
  : M World unit :=
  if hasElements then
    if truthy instCount then
      gl.drawElementsInstanced (glPrimitive c) count GL.UNSIGNED_INT 0 instCount
    else
      gl.drawElements (glPrimitive c) count GL.UNSIGNED_INT 0
  else
    if truthy instCount then
      gl.drawArraysInstanced (glPrimitive c) 0 count instCount
    else
      gl.drawArrays (glPrimitive c) 0 count.

(** The body of the [forEach] callback of [updateUniforms]: one binding is
    dispatched on its type tag.  The callback reads and increments the local
    [textureUnitOffset]; here it takes the value and returns the new one.
    [const [x, y] = v] reads [v[0]] and [v[1]], undefined where [v] is short. *)
Definition updateUniform (props : P) (info : UniformInfo P)
    (textureUnitOffset : Z) : M World Z :=
  let loc := location info in
  match definition info with
  | Uniform1f value =>
      gl.uniform1f loc (access props value) ;; ret textureUnitOffset
  | Uniform1fv value =>
      gl.uniform1fv loc (access props value) ;; ret textureUnitOffset
  | Uniform1i value =>
      gl.uniform1i loc (access props value) ;; ret textureUnitOffset
  | Uniform1iv value =>
      gl.uniform1iv loc (access props value) ;; ret textureUnitOffset
  | Uniform1ui value =>
      gl.uniform1ui loc (access props value) ;; ret textureUnitOffset
  | Uniform1uiv value =>
      gl.uniform1uiv loc (access props value) ;; ret textureUnitOffset
  | Uniform2f value =>
      let v := access props value in
      gl.uniform2f loc (v !! 0%nat) (v !! 1%nat) ;; ret textureUnitOffset
  | Uniform2fv value =>
      gl.uniform2fv loc (access props value) ;; ret textureUnitOffset
  | Uniform2i value =>
      let v := access props value in
      gl.uniform2i loc (v !! 0%nat) (v !! 1%nat) ;; ret textureUnitOffset
  | Uniform2iv value =>
      gl.uniform2iv loc (access props value) ;; ret textureUnitOffset
  | Uniform2ui value =>
      let v := access props value in
      gl.uniform2ui loc (v !! 0%nat) (v !! 1%nat) ;; ret textureUnitOffset
  | Uniform2uiv value =>
      gl.uniform2uiv loc (access props value) ;; ret textureUnitOffset
  | Uniform3f value =>
      let v := access props value in
      gl.uniform3f loc (v !! 0%nat) (v !! 1%nat) (v !! 2%nat) ;;
      ret textureUnitOffset
  | Uniform3fv value =>
      gl.uniform3fv loc (access props value) ;; ret textureUnitOffset
  | Uniform3i value =>
      let v := access props value in
      gl.uniform3i loc (v !! 0%nat) (v !! 1%nat) (v !! 2%nat) ;;
      ret textureUnitOffset
  | Uniform3iv value =>
      gl.uniform3iv loc (access props value) ;; ret textureUnitOffset
  | Uniform3ui value =>
      let v := access props value in
      gl.uniform3ui loc (v !! 0%nat) (v !! 1%nat) (v !! 2%nat) ;;
      ret textureUnitOffset
  | Uniform3uiv value =>
      gl.uniform3uiv loc (access props value) ;; ret textureUnitOffset
  | Uniform4f value =>
      let v := access props value in
      gl.uniform4f loc (v !! 0%nat) (v !! 1%nat) (v !! 2%nat) (v !! 3%nat) ;;
      ret textureUnitOffset
  | Uniform4fv value =>
      gl.uniform4fv loc (access props value) ;; ret textureUnitOffset
  | Uniform4i value =>
      let v := access props value in
      gl.uniform4i loc (v !! 0%nat) (v !! 1%nat) (v !! 2%nat) (v !! 3%nat) ;;
      ret textureUnitOffset
  | Uniform4iv value =>
      gl.uniform4iv loc (access props value) ;; ret textureUnitOffset
  | Uniform4ui value =>
      let v := access props value in
      gl.uniform4ui loc (v !! 0%nat) (v !! 1%nat) (v !! 2%nat) (v !! 3%nat) ;;
      ret textureUnitOffset
  | Uniform4uiv value =>
      gl.uniform4uiv loc (access props value) ;; ret textureUnitOffset
  | UniformMatrix2fv value =>
      gl.uniformMatrix2fv loc false (access props value) ;; ret textureUnitOffset
  | UniformMatrix3fv value =>
      gl.uniformMatrix3fv loc false (access props value) ;; ret textureUnitOffset
  | UniformMatrix4fv value =>
      gl.uniformMatrix4fv loc false (access props value) ;; ret textureUnitOffset
  | UniformTexture value =>
      let texture := access props value in
      let currentTexture := textureUnitOffset in
      gl.activeTexture (GL.TEXTURE0 + currentTexture) ;;
      handle <- glTexture texture ;;
      gl.bindTexture GL.TEXTURE_2D handle ;;
      gl.uniform1i loc currentTexture ;;
      ret (textureUnitOffset + 1)
  end.

Definition updateUniforms (c : t P) (props : P) : M World unit :=
  let textureUnitOffset := 0 in
  reduceM (fun offset info => updateUniform props info offset)
          (uniformInfo c) textureUnitOffset ;;
  ret tt.

End WithDriver.
End Command.

(** ** framebuffer.ts *)

(** A [Target] (device.ts) as [Framebuffer.init] constructs it. *)
Module Target.

Record t : Type := mk {
  glDrawBuffers : list Z;
  glFramebuffer : option WebGLFramebuffer;   (* null: the default surface *)
  width : Z;
  height : Z;
}.

(** Modelled from the spec: [Target.with] binds the target's framebuffer and
    viewport, runs the callback, and unbinds on every exit path, also when
    the callback fails. *)
Definition with_ (rt : t) (cb : t -> M World unit) : M World unit :=
  stackDrawFramebuffer.push (glFramebuffer rt) ;;
  stackViewport.push (0, 0, width rt, height rt) ;;
  finally (cb rt) (stackViewport.pop ;; stackDrawFramebuffer.pop).

End Target.

Module Framebuffer.

Record t : Type := mk {
  width : Z;
  height : Z;
  glFramebuffer : option WebGLFramebuffer;
  glColorAttachments : list Z;
  framebufferTarget : option Target.t;
  colors : list Texture.t;
  depthStencil : option Texture.t;
  depthOnly : bool;
}.

Definition set_glFramebuffer (fbo : option WebGLFramebuffer) (fb : t) : t :=
  mk (width fb) (height fb) fbo (glColorAttachments fb) (framebufferTarget fb)
     (colors fb) (depthStencil fb) (depthOnly fb).

Definition set_framebufferTarget (rt : option Target.t) (fb : t) : t :=
  mk (width fb) (height fb) (glFramebuffer fb) (glColorAttachments fb) rt
     (colors fb) (depthStencil fb) (depthOnly fb).

(** A method runs against the object it is called on and the world. *)
Record State : Type := mkState { this : t; world : World }.

Definition on_dev {A} (m : M World A) : M State A :=
  fun s => let (r, w) := m (world s) in (r, mkState (this s) w).

Definition getThis : M State t := fun s => (Ok (this s), s).

Definition setThis (f : t -> t) : M State unit :=
  modify (fun s => mkState (f (this s)) (world s)).

(** A [color] argument: one texture or an array of them. *)
Inductive ColorArg : Type :=
| One (color : Texture.t)
| Many (colors : list Texture.t).

Definition toArray (color : ColorArg) : list Texture.t :=
  match color with
  | Many colors => colors
  | One color => [color]
  end.

Section WithDriver.
Variable d : Driver.

Definition init : M State unit :=
  self <- getThis ;;
  fbo <- on_dev (gl.createFramebuffer d) ;;
  on_dev (stackDrawFramebuffer.push fbo) ;;
  on_dev
    (forEach
       (fun buffer i =>
          handle <- glTexture buffer ;;
          gl.framebufferTexture2D GL.DRAW_FRAMEBUFFER (GL.COLOR_ATTACHMENT0 + i)
            GL.TEXTURE_2D (GlHandle handle) 0)
       (colors self)) ;;
  (match depthStencil self with
   | Some depthStencil =>
       on_dev
         (gl.framebufferTexture2D GL.DRAW_FRAMEBUFFER
            (if depthOnly self then GL.DEPTH_ATTACHMENT
             else GL.DEPTH_STENCIL_ATTACHMENT)
            GL.TEXTURE_2D (TextureObject depthStencil) 0)
   | None => ret tt
   end) ;;
  status <- on_dev (gl.checkFramebufferStatus d GL.DRAW_FRAMEBUFFER) ;;
  on_dev stackDrawFramebuffer.pop ;;
  (if negb (status =? GL.FRAMEBUFFER_COMPLETE)%Z then
     on_dev (gl.deleteFramebuffer fbo) ;;
     throw (JsError "Framebuffer not complete")
   else ret tt) ;;
  setThis (set_glFramebuffer fbo) ;;
  match fbo with
  | Some fbo =>
      setThis (set_framebufferTarget
                 (Some (Target.mk (glColorAttachments self) (Some fbo)
                          (width self) (height self))))
  | None => ret tt
  end.

(** The constructor: fills the fields, then runs [init] on the new object. *)
Definition new (width height : Z) (colors : list Texture.t)
    (depthStencil : option Texture.t) (depthOnly : option bool) : M World t :=
  fun w =>
    let this0 :=
      mk width height None
         (imap (fun i _ => GL.COLOR_ATTACHMENT0 + Z.of_nat i) colors)
         None colors depthStencil (default true depthOnly) in
    match init (mkState this0 w) with
    | (Ok _, s) => (Ok (this s), world s)
    | (Throw e, s) => (Throw e, world s)
    end.

Definition withColor (width height : Z) (color : ColorArg) : M World t :=
  let colors := toArray color in
  assert.nonEmpty colors "color" ;;
  forEach (fun buffer _ =>
             assert.equal width (Texture.width buffer) "width" ;;
             assert.equal height (Texture.height buffer) "height")
          colors ;;
  new width height colors None None.

Definition withDepth (width height : Z) (depth : Texture.t) : M World t :=
  assert.equal width (Texture.width depth) "width" ;;
  assert.equal height (Texture.height depth) "height" ;;
  new width height [] (Some depth) (Some true).

Definition withDepthStencil (width height : Z) (depthStencil : Texture.t)
  : M World t :=
  assert.equal width (Texture.width depthStencil) "width" ;;
  assert.equal height (Texture.height depthStencil) "height" ;;
  new width height [] (Some depthStencil) (Some false).

Definition withColorDepth (width height : Z) (color : ColorArg)
    (depth : Texture.t) : M World t :=
  let colorBuffers := toArray color in
  assert.nonEmpty colorBuffers "color" ;;
  forEach (fun buffer _ =>
             assert.equal width (Texture.width buffer) "width" ;;
             assert.equal height (Texture.height buffer) "height")
          colorBuffers ;;
  assert.equal width (Texture.width depth) "width" ;;
  assert.equal height (Texture.height depth) "height" ;;
  new width height colorBuffers (Some depth) (Some true).

Definition withColorDepthStencil (width height : Z) (color : ColorArg)
    (depthStencil : Texture.t) : M World t :=
  let colors := toArray color in
  assert.nonEmpty colors "color" ;;
  forEach (fun buffer _ =>
             assert.equal width (Texture.width buffer) "width" ;;
             assert.equal height (Texture.height buffer) "height")
          colors ;;
  assert.equal width (Texture.width depthStencil) "width" ;;
  assert.equal height (Texture.height depthStencil) "height" ;;
  new width height colors (Some depthStencil) (Some false).

Definition restore : M State unit :=
  self <- getThis ;;
  on_dev (forEach (fun buffer _ => Texture_restore d buffer) (colors self)) ;;
  (match depthStencil self with
   | Some depthStencil => on_dev (Texture_restore d depthStencil)
   | None => ret tt
   end) ;;
  valid <- on_dev (gl.isFramebuffer d (glFramebuffer self)) ;;
  if negb valid then init else ret tt.

Definition target (cb : Target.t -> M World unit) : M State unit :=
  self <- getThis ;;
  match framebufferTarget self with
  | Some framebufferTarget => on_dev (Target.with_ framebufferTarget cb)
  | None => ret tt
  end.

End WithDriver.
End Framebuffer.

(** ** command.ts: execute and clear *)

Abbreviation WebGLVertexArrayObject := nat (only parsing).

(** The fields of a [VertexArray] (vertex-array.ts) that [execute] reads. *)
Module VertexArray.
Record t : Type := mk {
  glVertexArrayObject : option WebGLVertexArrayObject;
  hasElements : bool;
  count : Z;
  instanceCount : Z;
}.
End VertexArray.

(** The calls of [execute] and [clear]: a call of the trace above, or one of
    the context methods only these two use. *)
Inductive Call : Type :=
| Core (e : Event)
| C_useProgram (program : WebGLProgram)
| C_bindVertexArray (vao : option WebGLVertexArrayObject)
| C_bindFramebuffer (target : Z) (fbo : option WebGLFramebuffer)
| C_drawBuffers (buffers : list Z)
| C_clearColor (r g b a : Z)
| C_clearDepth (depth : Z)
| C_clearStencil (s : Z)
| C_clear (mask : Z)
| C_viewport (x y width height : Z).

(** The context [execute] runs against: every call made on it, oldest first,
    the world of the calls above, and the size of the drawing buffer. *)
Record RenderingContext : Type := mkContext {
  calls : list Call;
  world : World;
  drawingBufferWidth : Z;
  drawingBufferHeight : Z;
}.

Definition add_calls (cs : list Call) (ctx : RenderingContext) : RenderingContext :=
  mkContext (calls ctx ++ cs) (world ctx)
    (drawingBufferWidth ctx) (drawingBufferHeight ctx).

(** A computation over the world, run inside the context: the calls it
    appended to the trace of the world are appended to [calls], in order. *)
Definition core {A} (m : M World A) : M RenderingContext A :=
  fun ctx =>
    let (r, w') := m (world ctx) in
    (r,
     mkContext
       (calls ctx ++ map Core (drop (length (log (world ctx))) (log w')))
       w' (drawingBufferWidth ctx) (drawingBufferHeight ctx)).

(** [x | y] on JavaScript numbers: both sides and the result are brought to
    32-bit signed integers. *)
Definition toInt32 (z : Z) : Z := (z + 2 ^ 31) mod 2 ^ 32 - 2 ^ 31.
Definition js_or (x y : Z) : Z := toInt32 (Z.lor (toInt32 x) (toInt32 y)).

Module GLbits.
Definition DEPTH_BUFFER_BIT : Z := 0x00000100.
Definition STENCIL_BUFFER_BIT : Z := 0x00000400.
Definition COLOR_BUFFER_BIT : Z := 0x00004000.
End GLbits.

(** The [Framebuffer] argument of [execute]: the members it uses.  Their
    code is elsewhere; the two methods are whatever the object brings. *)
Module FramebufferArg.
Record t : Type := mk {
  bind : M RenderingContext unit;
  unbind : M RenderingContext unit;
  colorAttachments : list Z;
  width : Z;
  height : Z;
}.
End FramebufferArg.

Module CommandRun.

Definition call (c : Call) : M RenderingContext unit := modify (add_calls [c]).

Section WithProps.
Context {P : Type}.

Definition clear (c : Command.t P) : M RenderingContext unit :=
  match Command.clearInfo c with
  | Some clearInfo =>
      let clearBits := js_or 0 0 in
      clearBits <-
        match Command.color clearInfo with
        | Some (r, g, b, a) =>
            call (C_clearColor r g b a) ;;
            ret (js_or clearBits GLbits.COLOR_BUFFER_BIT)
        | None => ret clearBits
        end ;;
      clearBits <-
        match Command.depth clearInfo with
        | Some depth =>
            call (C_clearDepth depth) ;;
            ret (js_or clearBits GLbits.DEPTH_BUFFER_BIT)
        | None => ret clearBits
        end ;;
      clearBits <-
        match Command.stencil clearInfo with
        | Some stencil =>
            call (C_clearStencil stencil) ;;
            ret (js_or clearBits GLbits.STENCIL_BUFFER_BIT)
        | None => ret clearBits
        end ;;
      if truthy clearBits then call (C_clear clearBits) else ret tt
  | None => ret tt
  end.

Definition execute (c : Command.t P) (vao : VertexArray.t) (props : P)
    (framebuffer : option FramebufferArg.t) : M RenderingContext unit :=
  call (C_useProgram (Command.glProgram c)) ;;
  core (Command.updateUniforms c props) ;;
  call (C_bindVertexArray (VertexArray.glVertexArrayObject vao)) ;;
  size <-
    (fun ctx => (Ok (drawingBufferWidth ctx, drawingBufferHeight ctx), ctx)) ;;
  size <-
    match framebuffer with
    | Some framebuffer =>
        FramebufferArg.bind framebuffer ;;
        call (C_drawBuffers (FramebufferArg.colorAttachments framebuffer)) ;;
        ret (FramebufferArg.width framebuffer, FramebufferArg.height framebuffer)
    | None => ret size
    end ;;
  let '(bufferWidth, bufferHeight) := size in
  clear c ;;
  call (C_viewport 0 0 bufferWidth bufferHeight) ;;
  core (Command.draw c (VertexArray.hasElements vao) (VertexArray.count vao)
          (VertexArray.instanceCount vao)) ;;
  (match framebuffer with
   | Some framebuffer => FramebufferArg.unbind framebuffer
   | None => ret tt
   end) ;;
  call (C_bindVertexArray None).

End WithProps.
End CommandRun.

(** * Vocabulary of the statements *)

(** ** Integer keys *)

Definition is_nonzero_digit : ascii -> bool := Regex.in_range "1" "9".

(** A string that is a decimal integer literal in its entirety. *)
Definition is_int_literal (s : list ascii) : bool :=
  match s with
  | [] => false
  | c :: ds =>
      (Ascii.eqb c "0" && match ds with [] => true | _ => false end)
      || (is_nonzero_digit c && forallb Regex.digit ds)
  end.

(** A non-zero digit, then digits up to the end of the input. *)
Definition digits_to_end (s : list ascii) : bool :=
  match s with
  | [] => false
  | c :: ds => is_nonzero_digit c && forallb Regex.digit ds
  end.

Definition starts_with_zero (s : list ascii) : bool :=
  match s with
  | c :: _ => Ascii.eqb "0" c
  | [] => false
  end.

(** Some suffix of [s] is made of a non-zero digit and digits only. *)
Fixpoint has_digit_suffix (s : list ascii) : bool :=
  digits_to_end s || match s with [] => false | _ :: s' => has_digit_suffix s' end.

(** ** Draw variants *)

(** The call [draw] is to issue for an indexed or array, instanced or plain
    dispatch. *)
Definition draw_variant (glPrimitive : Z) (indexed instanced : bool)
    (count instCount : Z) : Event :=
  match indexed, instanced with
  | true, true =>
      E_drawElementsInstanced glPrimitive count GL.UNSIGNED_INT 0 instCount
  | true, false => E_drawElements glPrimitive count GL.UNSIGNED_INT 0
  | false, true => E_drawArraysInstanced glPrimitive 0 count instCount
  | false, false => E_drawArrays glPrimitive 0 count
  end.

(** The index type of an indexed draw call. *)
Definition index_type (e : Event) : option Z :=
  match e with
  | E_drawElementsInstanced _ _ type _ _ => Some type
  | E_drawElements _ _ type _ => Some type
  | _ => None
  end.

Definition is_draw_call (e : Event) : bool :=
  match e with
  | E_drawElementsInstanced _ _ _ _ _ | E_drawElements _ _ _ _
  | E_drawArraysInstanced _ _ _ _ | E_drawArrays _ _ _ => true
  | _ => false
  end.

(** ** Concrete inputs *)

(** A driver that answers the same at every point of the trace. *)
Definition constant_driver (fbo : option WebGLFramebuffer) (status : Z)
    (valid : bool) (uniformLocation : string -> option WebGLUniformLocation)
    (attribLocation : string -> Z) : Driver :=
  mkDriver (fun _ => fbo) (fun _ _ => status) (fun _ _ => valid)
    (fun _ _ => uniformLocation) (fun _ _ => attribLocation)
    (fun _ _ _ => inr 1%nat) (fun _ _ _ => inr 2%nat) (fun _ _ => Some 9%nat).

(** A fresh context: nothing called yet, the default surface bound. *)
Definition fresh_world : World := mkWorld [] [None] [(0, 0, 300, 150)] ∅.

Definition triangle_command : Command.t unit :=
  Command.mk 2%nat GL.TRIANGLES [] None.

(** ** Errors by name *)

Definition MissingUniformLocation (identifier : string) : Exn :=
  JsError ("No location for uniform: " +:+ identifier).

Definition MissingAttributeLocation (identifier : string) : Exn :=
  JsError ("No location for attrib: " +:+ identifier).

Definition FramebufferIncomplete : Exn := JsError "Framebuffer not complete".

(** ** Traces *)

(** The world after the calls [evts] were appended to the trace. *)
Definition emits (evts : list Event) (w : World) : World :=
  set_log (log w ++ evts) w.

(** The uniform lookups of a trace: the name asked for and the answer. *)
Definition uniform_lookups (evts : list Event)
  : list (string * option WebGLUniformLocation) :=
  omap (fun e => match e with
                 | E_getUniformLocation _ name ret => Some (name, ret)
                 | _ => None
                 end) evts.

(** The lookup of one declared uniform that found [location]. *)
Definition found_lookup {P} (program : WebGLProgram)
    (info : Command.UniformInfo P) : Event :=
  E_getUniformLocation program (Command.identifier info)
    (Some (Command.location info)).

Definition declared {P} (info : Command.UniformInfo P)
  : string * Command.Uniform P :=
  (Command.identifier info, Command.definition info).

(** What a found lookup looks like in [uniform_lookups]. *)
Definition resolved {P} (info : Command.UniformInfo P)
  : string * option WebGLUniformLocation :=
  (Command.identifier info, Some (Command.location info)).

(** The calls of [create] ahead of the uniform lookups, once the vertex
    shader [vs] and the fragment shader [fs] are compiled and linked into
    [program]. *)
Definition create_prologue {P} (props : Command.CommandProps P)
    (vs fs : WebGLShader) (program : WebGLProgram) : list Event :=
  [E_createShader GL.VERTEX_SHADER (Command.vert props) (inr vs);
   E_createShader GL.FRAGMENT_SHADER (Command.frag props) (inr fs);
   E_createProgram vs fs (inr program);
   E_deleteShader vs;
   E_deleteShader fs].

(** Asked in this order from the world [w], the driver compiles the sources
    of [props] to [vs] and [fs] and links the two into [program]. *)
Definition compiles_and_links {P} (d : Driver) (props : Command.CommandProps P)
    (w : World) (vs fs : WebGLShader) (program : WebGLProgram) : Prop :=
  drv_createShader d (log w) GL.VERTEX_SHADER (Command.vert props) = inr vs /\
  drv_createShader d
    (log w ++ [E_createShader GL.VERTEX_SHADER (Command.vert props) (inr vs)])
    GL.FRAGMENT_SHADER (Command.frag props) = inr fs /\
  drv_createProgram d
    (log w ++ [E_createShader GL.VERTEX_SHADER (Command.vert props) (inr vs);
               E_createShader GL.FRAGMENT_SHADER (Command.frag props) (inr fs)])
    vs fs = inr program.

(** The driver fails to compile the vertex shader, to compile the fragment
    shader, or to link the two, with the error [e]: the calls [create] has
    made when it stops there. *)
Definition build_failure {P} (d : Driver) (props : Command.CommandProps P)
    (w : World) (e : Exn) (evts : list Event) : Prop :=
  (drv_createShader d (log w) GL.VERTEX_SHADER (Command.vert props) = inl e /\
   evts = [E_createShader GL.VERTEX_SHADER (Command.vert props) (inl e)]) \/
  (exists vs : WebGLShader,
      drv_createShader d (log w) GL.VERTEX_SHADER (Command.vert props)
      = inr vs /\
      drv_createShader d
        (log w
         ++ [E_createShader GL.VERTEX_SHADER (Command.vert props) (inr vs)])
        GL.FRAGMENT_SHADER (Command.frag props) = inl e /\
      evts = [E_createShader GL.VERTEX_SHADER (Command.vert props) (inr vs);
              E_createShader GL.FRAGMENT_SHADER (Command.frag props) (inl e)]) \/
  (exists vs fs : WebGLShader,
      drv_createShader d (log w) GL.VERTEX_SHADER (Command.vert props)
      = inr vs /\
      drv_createShader d
        (log w
         ++ [E_createShader GL.VERTEX_SHADER (Command.vert props) (inr vs)])
        GL.FRAGMENT_SHADER (Command.frag props) = inr fs /\
      drv_createProgram d
        (log w
         ++ [E_createShader GL.VERTEX_SHADER (Command.vert props) (inr vs);
             E_createShader GL.FRAGMENT_SHADER (Command.frag props) (inr fs)])
        vs fs = inl e /\
      evts = [E_createShader GL.VERTEX_SHADER (Command.vert props) (inr vs);
              E_createShader GL.FRAGMENT_SHADER (Command.frag props) (inr fs);
              E_createProgram vs fs (inl e)]).

(** Asked for the identifiers of [infos] in [program] one after the other,
    the trace being [l] at the first question, the driver answers with the
    location each of [infos] records. *)
Fixpoint located_by {P} (d : Driver) (program : WebGLProgram) (l : list Event)
    (infos : list (Command.UniformInfo P)) : Prop :=
  match infos with
  | [] => True
  | info :: rest =>
      drv_getUniformLocation d l program (Command.identifier info)
      = Some (Command.location info) /\
      located_by d program (l ++ [found_lookup program info]) rest
  end.

(** ** Texture units *)

(** The texture bindings of a trace: each [activeTexture] directly followed
    by [bindTexture] and [uniform1i], as (texture unit selected, handle
    bound, sampler location, unit number stored in the sampler). *)
Fixpoint texture_binds (evts : list Event)
  : list (Z * option WebGLTexture * WebGLUniformLocation * Z) :=
  match evts with
  | [] => []
  | e :: rest =>
      match e, rest with
      | E_activeTexture unit,
        E_bindTexture _ handle :: E_uniform1i loc sampler :: _ =>
          (unit, handle, loc, sampler) :: texture_binds rest
      | _, _ => texture_binds rest
      end
  end.

(** Every [activeTexture] call of a trace. *)
Definition active_textures (evts : list Event) : list Z :=
  omap (fun e => match e with E_activeTexture unit => Some unit | _ => None end)
       evts.

(** The texture-typed bindings among [infos], in declaration order, with the
    texture each one yields on [props]. *)
Definition texture_uniforms {P} (props : P)
    (infos : list (Command.UniformInfo P))
  : list (WebGLUniformLocation * Texture.t) :=
  omap (fun info =>
          match Command.definition info with
          | Command.UniformTexture value =>
              Some (Command.location info, Command.access props value)
          | _ => None
          end) infos.

(** The bindings expected when units are handed out from [first] on. *)
Definition expected_binds (w : World) (first : Z)
    (textures : list (WebGLUniformLocation * Texture.t))
  : list (Z * option WebGLTexture * WebGLUniformLocation * Z) :=
  imap (fun k '(loc, texture) =>
          (GL.TEXTURE0 + (first + Z.of_nat k),
           glTextures w !! Texture.ref texture,
           loc,
           first + Z.of_nat k))
       textures.

(** The binding with its value replaced by what it yields on [props]. *)
Definition resolve_uniform {P} (props : P) (u : Command.Uniform P)
  : Command.Uniform P :=
  match u with
  | Command.Uniform1f value =>
      Command.Uniform1f (Command.Value (Command.access props value))
  | Command.Uniform1fv value =>
      Command.Uniform1fv (Command.Value (Command.access props value))
  | Command.Uniform1i value =>
      Command.Uniform1i (Command.Value (Command.access props value))
  | Command.Uniform1iv value =>
      Command.Uniform1iv (Command.Value (Command.access props value))
  | Command.Uniform1ui value =>
      Command.Uniform1ui (Command.Value (Command.access props value))
  | Command.Uniform1uiv value =>
      Command.Uniform1uiv (Command.Value (Command.access props value))
  | Command.Uniform2f value =>
      Command.Uniform2f (Command.Value (Command.access props value))
  | Command.Uniform2fv value =>
      Command.Uniform2fv (Command.Value (Command.access props value))
  | Command.Uniform2i value =>
      Command.Uniform2i (Command.Value (Command.access props value))
  | Command.Uniform2iv value =>
      Command.Uniform2iv (Command.Value (Command.access props value))
  | Command.Uniform2ui value =>
      Command.Uniform2ui (Command.Value (Command.access props value))
  | Command.Uniform2uiv value =>
      Command.Uniform2uiv (Command.Value (Command.access props value))
  | Command.Uniform3f value =>
      Command.Uniform3f (Command.Value (Command.access props value))
  | Command.Uniform3fv value =>
      Command.Uniform3fv (Command.Value (Command.access props value))
  | Command.Uniform3i value =>
      Command.Uniform3i (Command.Value (Command.access props value))
  | Command.Uniform3iv value =>
      Command.Uniform3iv (Command.Value (Command.access props value))
  | Command.Uniform3ui value =>
      Command.Uniform3ui (Command.Value (Command.access props value))
  | Command.Uniform3uiv value =>
      Command.Uniform3uiv (Command.Value (Command.access props value))
  | Command.Uniform4f value =>
      Command.Uniform4f (Command.Value (Command.access props value))
  | Command.Uniform4fv value =>
      Command.Uniform4fv (Command.Value (Command.access props value))
  | Command.Uniform4i value =>
      Command.Uniform4i (Command.Value (Command.access props value))
  | Command.Uniform4iv value =>
      Command.Uniform4iv (Command.Value (Command.access props value))
  | Command.Uniform4ui value =>
      Command.Uniform4ui (Command.Value (Command.access props value))
  | Command.Uniform4uiv value =>
      Command.Uniform4uiv (Command.Value (Command.access props value))
  | Command.UniformMatrix2fv value =>
      Command.UniformMatrix2fv (Command.Value (Command.access props value))
  | Command.UniformMatrix3fv value =>
      Command.UniformMatrix3fv (Command.Value (Command.access props value))
  | Command.UniformMatrix4fv value =>
      Command.UniformMatrix4fv (Command.Value (Command.access props value))
  | Command.UniformTexture value =>
      Command.UniformTexture (Command.Value (Command.access props value))
  end.

Definition resolve_info {P} (props : P) (info : Command.UniformInfo P)
  : Command.UniformInfo P :=
  Command.mkUniformInfo (Command.identifier info) (Command.location info)
    (resolve_uniform props (Command.definition info)).

(** The texture unit selected by a texture binding. *)
Definition selected_unit
    (b : Z * option WebGLTexture * WebGLUniformLocation * Z) : Z :=
  let '(unit, _, _, _) := b in unit.

(** The command whose bindings are [c]'s with their values fixed to what
    they yield on [props]. *)
Definition resolve_command {P} (props : P) (c : Command.t P) : Command.t P :=
  Command.mk (Command.glProgram c) (Command.glPrimitive c)
    (map (resolve_info props) (Command.uniformInfo c)) (Command.clearInfo c).

(** The units handed out to [n] texture bindings, as [activeTexture]
    arguments. *)
Definition units_from_zero (n : nat) : list Z :=
  map (Z.add GL.TEXTURE0) (seqZ 0 (Z.of_nat n)).

(** What a [uniform...] call hands to the location it sets: one number, an
    array, or components passed one by one. *)
Inductive Passed : Type :=
| PassedNumber (x : Z)
| PassedArray (v : list Z)
| PassedComponents (xs : list (option Z)).

(** The location and the value of a [uniform...] call. *)
Definition passed_value (e : Event) : option (WebGLUniformLocation * Passed) :=
  match e with
  | E_uniform1f loc x | E_uniform1i loc x | E_uniform1ui loc x =>
      Some (loc, PassedNumber x)
  | E_uniform1fv loc v | E_uniform1iv loc v | E_uniform1uiv loc v
  | E_uniform2fv loc v | E_uniform2iv loc v | E_uniform2uiv loc v
  | E_uniform3fv loc v | E_uniform3iv loc v | E_uniform3uiv loc v
  | E_uniform4fv loc v | E_uniform4iv loc v | E_uniform4uiv loc v
  | E_uniformMatrix2fv loc _ v | E_uniformMatrix3fv loc _ v
  | E_uniformMatrix4fv loc _ v =>
      Some (loc, PassedArray v)
  | E_uniform2f loc x y | E_uniform2i loc x y | E_uniform2ui loc x y =>
      Some (loc, PassedComponents [x; y])
  | E_uniform3f loc x y z | E_uniform3i loc x y z | E_uniform3ui loc x y z =>
      Some (loc, PassedComponents [x; y; z])
  | E_uniform4f loc x y z w | E_uniform4i loc x y z w
  | E_uniform4ui loc x y z w =>
      Some (loc, PassedComponents [x; y; z; w])
  | _ => None
  end.

(** The first [n] components of an array, undefined past its end. *)
Definition components (n : nat) (v : list Z) : Passed :=
  PassedComponents (map (fun i => v !! i) (seq 0 n)).

(** What a binding has to pass on [props]: the value it yields there, a
    texture-typed binding the number of the unit it is given. *)
Definition yielded {P} (props : P) (unit : Z) (u : Command.Uniform P)
  : Passed :=
  match u with
  | Command.Uniform1f value | Command.Uniform1i value
  | Command.Uniform1ui value =>
      PassedNumber (Command.access props value)
  | Command.Uniform2f value | Command.Uniform2i value
  | Command.Uniform2ui value =>
      components 2 (Command.access props value)
  | Command.Uniform3f value | Command.Uniform3i value
  | Command.Uniform3ui value =>
      components 3 (Command.access props value)
  | Command.Uniform4f value | Command.Uniform4i value
  | Command.Uniform4ui value =>
      components 4 (Command.access props value)
  | Command.Uniform1fv value | Command.Uniform1iv value
  | Command.Uniform1uiv value | Command.Uniform2fv value
  | Command.Uniform2iv value | Command.Uniform2uiv value
  | Command.Uniform3fv value | Command.Uniform3iv value
  | Command.Uniform3uiv value | Command.Uniform4fv value
  | Command.Uniform4iv value | Command.Uniform4uiv value
  | Command.UniformMatrix2fv value | Command.UniformMatrix3fv value
  | Command.UniformMatrix4fv value =>
      PassedArray (Command.access props value)
  | Command.UniformTexture _ => PassedNumber unit
  end.

(** What the bindings [infos] have to pass on [props], in declaration
    order, when texture units are handed out from [unit] on. *)
Fixpoint yielded_values {P} (props : P) (unit : Z)
    (infos : list (Command.UniformInfo P))
  : list (WebGLUniformLocation * Passed) :=
  match infos with
  | [] => []
  | info :: rest =>
      (Command.location info, yielded props unit (Command.definition info))
      :: yielded_values props
           (unit + Z.of_nat (length (texture_uniforms props [info]))) rest
  end.

(** The location and the value of every [uniform...] call of a trace. *)
Definition passed_values (evts : list Event)
  : list (WebGLUniformLocation * Passed) :=
  omap passed_value evts.

(** ** Framebuffer initialisation *)

(** The attachment of the colour buffers, the first one at attachment point
    COLOR_ATTACHMENT0 + [first]: each passes the GL handle the texture
    holds in [w]. *)
Definition color_attach_events (w : World) (colors : list Texture.t)
    (first : Z) : list Event :=
  imap (fun i buffer =>
          E_framebufferTexture2D GL.DRAW_FRAMEBUFFER
            (GL.COLOR_ATTACHMENT0 + (first + Z.of_nat i)) GL.TEXTURE_2D
            (GlHandle (glTextures w !! Texture.ref buffer)) 0)
       colors.

Definition depth_attachment_point (depthOnly : bool) : Z :=
  if depthOnly then GL.DEPTH_ATTACHMENT else GL.DEPTH_STENCIL_ATTACHMENT.

(** The attachment of the depth or depth-stencil buffer as [init] issues it:
    the fourth argument is the Texture object, which the context rejects. *)
Definition depth_attach_events (fb : Framebuffer.t) : list Event :=
  match Framebuffer.depthStencil fb with
  | Some depthStencil =>
      [E_framebufferTexture2D GL.DRAW_FRAMEBUFFER
         (depth_attachment_point (Framebuffer.depthOnly fb)) GL.TEXTURE_2D
         (TextureObject depthStencil) 0]
  | None => []
  end.

(** The object [init] creates. *)
Definition init_fbo (d : Driver) (w : World) : option WebGLFramebuffer :=
  drv_createFramebuffer d (log w).

(** The calls of [init] up to the completeness check. *)
Definition init_prefix (d : Driver) (fb : Framebuffer.t) (w : World)
  : list Event :=
  [E_createFramebuffer (init_fbo d w);
   E_stackDrawFramebuffer_push (init_fbo d w)]
  ++ color_attach_events w (Framebuffer.colors fb) 0
  ++ depth_attach_events fb.

(** The status the driver reports to [init]. *)
Definition init_status (d : Driver) (fb : Framebuffer.t) (w : World) : Z :=
  drv_checkFramebufferStatus d (log w ++ init_prefix d fb w) GL.DRAW_FRAMEBUFFER.

(** The calls of [init] up to and including the pop. *)
Definition init_scope (d : Driver) (fb : Framebuffer.t) (w : World)
  : list Event :=
  init_prefix d fb w
  ++ [E_checkFramebufferStatus GL.DRAW_FRAMEBUFFER (init_status d fb w);
      E_stackDrawFramebuffer_pop].

(** The world [init] leaves behind when the context rejects the depth or
    depth-stencil attachment: the new object is still on top of the
    draw-framebuffer stack. *)
Definition init_interrupted (d : Driver) (fb : Framebuffer.t) (w : World)
  : World :=
  set_drawFramebufferStack (init_fbo d w :: drawFramebufferStack w)
    (emits (init_prefix d fb w) w).

(** The Framebuffer after a successful [init] that created [fbo]. *)
Definition installed (fbo : option WebGLFramebuffer) (fb : Framebuffer.t)
  : Framebuffer.t :=
  match fbo with
  | Some fbo' =>
      Framebuffer.set_framebufferTarget
        (Some (Target.mk (Framebuffer.glColorAttachments fb) (Some fbo')
                 (Framebuffer.width fb) (Framebuffer.height fb)))
        (Framebuffer.set_glFramebuffer fbo fb)
  | None => Framebuffer.set_glFramebuffer fbo fb
  end.

(** ** Binding-stack operations *)

Inductive StackOp : Type :=
| Push (value : option WebGLFramebuffer)
| Pop.

(** The pushes and pops of the draw-framebuffer stack in a trace. *)
Definition stack_ops (evts : list Event) : list StackOp :=
  omap (fun e => match e with
                 | E_stackDrawFramebuffer_push value => Some (Push value)
                 | E_stackDrawFramebuffer_pop => Some Pop
                 | _ => None
                 end) evts.

(** The framebuffer objects created in a trace. *)
Definition created (evts : list Event) : list (option WebGLFramebuffer) :=
  omap (fun e => match e with
                 | E_createFramebuffer ret => Some ret
                 | _ => None
                 end) evts.

(** A Framebuffer object as the constructor fills it before [init]. *)
Definition blank (width height : Z) (colors : list Texture.t)
    (depthStencil : option Texture.t) (depthOnly : bool) : Framebuffer.t :=
  Framebuffer.mk width height None
    (imap (fun i _ => GL.COLOR_ATTACHMENT0 + Z.of_nat i) colors)
    None colors depthStencil depthOnly.

(** A driver that creates framebuffer 7 and reports it incomplete. *)
Definition incomplete_driver : Driver :=
  constant_driver (Some 7%nat) 0 false (fun _ => None) (fun _ => -1).

(** A driver that creates framebuffer 7 and reports it complete and valid. *)
Definition complete_driver : Driver :=
  constant_driver (Some 7%nat) GL.FRAMEBUFFER_COMPLETE true
    (fun _ => Some 3%nat) (fun _ => 0).

(** A driver whose [createFramebuffer] returns null and which still reports
    completeness. *)
Definition null_driver : Driver :=
  constant_driver None GL.FRAMEBUFFER_COMPLETE false
    (fun _ => None) (fun _ => -1).

Definition color_texture : Texture.t := Texture.mk 1 128 128.
Definition depth_texture : Texture.t := Texture.mk 2 128 128.

(** A Framebuffer with a colour and a depth buffer, not yet initialised. *)
Definition two_buffer_framebuffer : Framebuffer.t :=
  blank 128 128 [color_texture] (Some depth_texture) true.

(** A Framebuffer with one colour buffer that was initialised on object 5. *)
Definition initialised_color_framebuffer : Framebuffer.t :=
  installed (Some 5%nat) (blank 128 128 [color_texture] None true).

(** ** Framebuffer factories *)

(** A call of one of the five factories. *)
Inductive FactoryCall : Type :=
| WithColor (color : Framebuffer.ColorArg)
| WithDepth (depth : Texture.t)
| WithDepthStencil (depthStencil : Texture.t)
| WithColorDepth (color : Framebuffer.ColorArg) (depth : Texture.t)
| WithColorDepthStencil (color : Framebuffer.ColorArg) (depthStencil : Texture.t).

Definition construct (d : Driver) (width height : Z) (call : FactoryCall)
  : M World Framebuffer.t :=
  match call with
  | WithColor color => Framebuffer.withColor d width height color
  | WithDepth depth => Framebuffer.withDepth d width height depth
  | WithDepthStencil depthStencil =>
      Framebuffer.withDepthStencil d width height depthStencil
  | WithColorDepth color depth =>
      Framebuffer.withColorDepth d width height color depth
  | WithColorDepthStencil color depthStencil =>
      Framebuffer.withColorDepthStencil d width height color depthStencil
  end.

(** The colour attachments of a factory that requires some. *)
Definition required_colors (call : FactoryCall) : option (list Texture.t) :=
  match call with
  | WithColor color | WithColorDepth color _ | WithColorDepthStencil color _ =>
      Some (Framebuffer.toArray color)
  | WithDepth _ | WithDepthStencil _ => None
  end.

Definition depth_of (call : FactoryCall) : option Texture.t :=
  match call with
  | WithColor _ => None
  | WithDepth t | WithDepthStencil t
  | WithColorDepth _ t | WithColorDepthStencil _ t => Some t
  end.

(** Every attachment of a call: the colour buffers, then the depth or
    depth-stencil buffer. *)
Definition attachments (call : FactoryCall) : list Texture.t :=
  default [] (required_colors call) ++ option_list (depth_of call).

Definition fits (width height : Z) (t : Texture.t) : bool :=
  (width =? Texture.width t)%Z && (height =? Texture.height t)%Z.

(** The colour list is empty where colours are required, or an attachment
    is not of the declared size. *)
Definition rejected (width height : Z) (call : FactoryCall) : bool :=
  match required_colors call with Some [] => true | _ => false end
  || negb (forallb (fits width height) (attachments call)).

(** The first size check that fails on a list of attachments. *)
Fixpoint first_mismatch (width height : Z) (l : list Texture.t) : option Exn :=
  match l with
  | [] => None
  | t :: l' =>
      if negb (width =? Texture.width t)%Z then
        Some (DimensionMismatch "width" width (Texture.width t))
      else if negb (height =? Texture.height t)%Z then
        Some (DimensionMismatch "height" height (Texture.height t))
      else first_mismatch width height l'
  end.

(** The error a rejected call fails with. *)
Definition rejection (width height : Z) (call : FactoryCall) : option Exn :=
  match required_colors call with
  | Some [] => Some (EmptyAttachmentList "color")
  | _ => first_mismatch width height (attachments call)
  end.

Definition is_construction_error (e : Exn) : bool :=
  match e with
  | EmptyAttachmentList _ | DimensionMismatch _ _ _ => true
  | _ => false
  end.

(** The constructor call a factory makes once its checks have passed. *)
Definition constructed (d : Driver) (width height : Z) (call : FactoryCall)
  : M World Framebuffer.t :=
  match call with
  | WithColor color =>
      Framebuffer.new d width height (Framebuffer.toArray color) None None
  | WithDepth depth => Framebuffer.new d width height [] (Some depth) (Some true)
  | WithDepthStencil depthStencil =>
      Framebuffer.new d width height [] (Some depthStencil) (Some false)
  | WithColorDepth color depth =>
      Framebuffer.new d width height (Framebuffer.toArray color) (Some depth)
        (Some true)
  | WithColorDepthStencil color depthStencil =>
      Framebuffer.new d width height (Framebuffer.toArray color)
        (Some depthStencil) (Some false)
  end.

(** ** Framebuffer recovery *)

(** The world after [Texture.restore] ran on each of [ts] in turn. *)
Definition restored (d : Driver) (ts : list Texture.t) (w : World) : World :=
  fold_left (fun w t => snd (Texture_restore d t w)) ts w.

(** The attachments [restore] asks to restore themselves, in order. *)
Definition restorable (fb : Framebuffer.t) : list Texture.t :=
  Framebuffer.colors fb ++ option_list (Framebuffer.depthStencil fb).

(** What the driver answers when [restore] asks whether the framebuffer
    object is still valid. *)
Definition reported_valid (d : Driver) (fb : Framebuffer.t) (w : World) : bool :=
  drv_isFramebuffer d (log (restored d (restorable fb) w))
    (Framebuffer.glFramebuffer fb).

(** The world once [restore] has asked. *)
Definition restore_checked (d : Driver) (fb : Framebuffer.t) (w : World)
  : World :=
  emit (E_isFramebuffer (Framebuffer.glFramebuffer fb) (reported_valid d fb w))
       (restored d (restorable fb) w).

(** ** Targets *)

(** The world once [Target.with] has bound the target. *)
Definition entered (rt : Target.t) (w : World) : World :=
  set_viewportStack
    ((0, 0, Target.width rt, Target.height rt) :: viewportStack w)
    (set_drawFramebufferStack
       (Target.glFramebuffer rt :: drawFramebufferStack w)
       (emits [E_stackDrawFramebuffer_push (Target.glFramebuffer rt);
               E_stackViewport_push (0, 0, Target.width rt, Target.height rt)]
              w)).

(** The world once [Target.with] has unbound it. *)
Definition exited (w : World) : World :=
  set_viewportStack (tail (viewportStack w))
    (set_drawFramebufferStack (tail (drawFramebufferStack w))
       (emits [E_stackViewport_pop; E_stackDrawFramebuffer_pop] w)).

(** A callback that draws three vertices into the target it is given. *)
Definition draw_callback (rt : Target.t) : M World unit :=
  gl.drawArrays GL.TRIANGLES 0 3.

(** A command with a colour, a texture, a matrix and a second texture, the
    textures read from the props of the draw call. *)
Definition textured_command : Command.t (Texture.t * Texture.t) :=
  Command.mk 2%nat GL.TRIANGLES
    [Command.mkUniformInfo "u_color" 10%nat
       (Command.Uniform3fv (Command.Value [1; 0; 0]));
     Command.mkUniformInfo "u_diffuse" 11%nat
       (Command.UniformTexture (Command.Accessor fst));
     Command.mkUniformInfo "u_model" 12%nat
       (Command.UniformMatrix2fv (Command.Value [1; 0; 0; 1]));
     Command.mkUniformInfo "u_normal" 13%nat
       (Command.UniformTexture (Command.Accessor snd))]
    None.

(** A world in which textures 1 and 2 hold the handles 41 and 42. *)
Definition textured_world : World :=
  mkWorld [] [None] [(0, 0, 300, 150)] (<[1%nat := 41%nat]> (<[2%nat := 42%nat]> ∅)).

(** A driver that knows the uniform [u_color] only. *)
Definition one_uniform_driver : Driver :=
  constant_driver (Some 7%nat) GL.FRAMEBUFFER_COMPLETE true
    (fun name => if String.eqb name "u_color" then Some 10%nat else None)
    (fun _ => -1).

Definition color_props (names : list string) : Command.CommandProps unit :=
  Command.mkCommandProps "void main() {}" "void main() {}"
    (Some (map (fun name =>
                  (name, Command.Uniform3fv (Command.Value [1; 0; 0])))
               names))
    None None.

(** ** Attribute lookups *)

(** The attribute lookups of a trace: the name asked for and the answer. *)
Definition attrib_lookups (evts : list Event) : list (string * Z) :=
  omap (fun e => match e with
                 | E_getAttribLocation _ name ret => Some (name, ret)
                 | _ => None
                 end) evts.

(** The keys [locate] has to look up: those [INT_PATTERN] does not accept. *)
Definition names_to_resolve {Def} (attributes : list (string * Def))
  : list string :=
  filter (fun key => Regex.test Command.INT_PATTERN key = false)
         (map fst attributes).

(** The lookups of [names] in [program], asked one after the other from the
    trace [l] and answered by the driver, up to and including the first
    name the driver does not know. *)
Fixpoint attrib_lookup_events (d : Driver) (program : WebGLProgram)
    (l : list Event) (names : list string) : list Event :=
  match names with
  | [] => []
  | name :: rest =>
      let location := drv_getAttribLocation d l program name in
      let e := E_getAttribLocation program name location in
      e :: (if (location =? -1)%Z then []
            else attrib_lookup_events d program (l ++ [e]) rest)
  end.

(** The body of the [reduce] callback of [locate], on its own. *)
Definition locate_entry {Def} (d : Driver) (program : WebGLProgram)
    (accum : gmap string Def) (entry : string * Def)
  : M World (gmap string Def) :=
  let '(identifier, definition) := entry in
  if Regex.test Command.INT_PATTERN identifier then
    ret (<[identifier := definition]> accum)
  else
    location <- gl.getAttribLocation d program identifier ;;
    if (location =? Command.UNKNOWN_ATTRIB_LOCATION)%Z then
      throw (JsError ("No location for attrib: " +:+ identifier))
    else
      ret (<[pretty location := definition]> accum).

(** A driver that reports every attribute at location 1. *)
Definition location_one_driver : Driver :=
  constant_driver (Some 7%nat) GL.FRAMEBUFFER_COMPLETE true
    (fun _ => Some 3%nat) (fun _ => 1).

(** ** Uniform updates *)

(** The location a [uniform...] call of the context sets. *)
Definition uniform_location (e : Event) : option WebGLUniformLocation :=
  match e with
  | E_uniform1f loc _ => Some loc
  | E_uniform1fv loc _ => Some loc
  | E_uniform1i loc _ => Some loc
  | E_uniform1iv loc _ => Some loc
  | E_uniform1ui loc _ => Some loc
  | E_uniform1uiv loc _ => Some loc
  | E_uniform2f loc _ _ => Some loc
  | E_uniform2fv loc _ => Some loc
  | E_uniform2i loc _ _ => Some loc
  | E_uniform2iv loc _ => Some loc
  | E_uniform2ui loc _ _ => Some loc
  | E_uniform2uiv loc _ => Some loc
  | E_uniform3f loc _ _ _ => Some loc
  | E_uniform3fv loc _ => Some loc
  | E_uniform3i loc _ _ _ => Some loc
  | E_uniform3iv loc _ => Some loc
  | E_uniform3ui loc _ _ _ => Some loc
  | E_uniform3uiv loc _ => Some loc
  | E_uniform4f loc _ _ _ _ => Some loc
  | E_uniform4fv loc _ => Some loc
  | E_uniform4i loc _ _ _ _ => Some loc
  | E_uniform4iv loc _ => Some loc
  | E_uniform4ui loc _ _ _ _ => Some loc
  | E_uniform4uiv loc _ => Some loc
  | E_uniformMatrix2fv loc _ _ => Some loc
  | E_uniformMatrix3fv loc _ _ => Some loc
  | E_uniformMatrix4fv loc _ _ => Some loc
  | _ => None
  end.

(** The locations a trace sets, in order. *)
Definition set_locations (evts : list Event) : list WebGLUniformLocation :=
  omap uniform_location evts.

(** The number of components the dispatch of a binding reads one by one
    from its value: [const [x, y] = ...] reads two. *)
Definition destructured {P} (u : Command.Uniform P) : option nat :=
  match u with
  | Command.Uniform2f _ | Command.Uniform2i _ | Command.Uniform2ui _ => Some 2%nat
  | Command.Uniform3f _ | Command.Uniform3i _ | Command.Uniform3ui _ => Some 3%nat
  | Command.Uniform4f _ | Command.Uniform4i _ | Command.Uniform4ui _ => Some 4%nat
  | _ => None
  end.

Definition map_value {P R} (f : R -> R) (value : Command.AccessorOrValue P R)
  : Command.AccessorOrValue P R :=
  match value with
  | Command.Accessor g => Command.Accessor (fun props => f (g props))
  | Command.Value v => Command.Value (f v)
  end.

(** The binding whose value, when read one by one, goes through [f]. *)
Definition map_destructured {P} (f : list Z -> list Z) (u : Command.Uniform P)
  : Command.Uniform P :=
  match u with
  | Command.Uniform2f value => Command.Uniform2f (map_value f value)
  | Command.Uniform2i value => Command.Uniform2i (map_value f value)
  | Command.Uniform2ui value => Command.Uniform2ui (map_value f value)
  | Command.Uniform3f value => Command.Uniform3f (map_value f value)
  | Command.Uniform3i value => Command.Uniform3i (map_value f value)
  | Command.Uniform3ui value => Command.Uniform3ui (map_value f value)
  | Command.Uniform4f value => Command.Uniform4f (map_value f value)
  | Command.Uniform4i value => Command.Uniform4i (map_value f value)
  | Command.Uniform4ui value => Command.Uniform4ui (map_value f value)
  | _ => u
  end.

(** The components a trace passes to [uniform...] calls one by one. *)
Definition passed_components (e : Event) : list (option Z) :=
  match e with
  | E_uniform2f _ x y | E_uniform2i _ x y | E_uniform2ui _ x y => [x; y]
  | E_uniform3f _ x y z | E_uniform3i _ x y z | E_uniform3ui _ x y z => [x; y; z]
  | E_uniform4f _ x y z w | E_uniform4i _ x y z w | E_uniform4ui _ x y z w =>
      [x; y; z; w]
  | _ => []
  end.

(** ** Draw calls, shaders *)

Definition is_instanced (e : Event) : bool :=
  match e with
  | E_drawElementsInstanced _ _ _ _ _ | E_drawArraysInstanced _ _ _ _ => true
  | _ => false
  end.

(** The shaders a trace compiled, linked into a program, and deleted. *)
Definition compiled_shaders (evts : list Event) : list WebGLShader :=
  omap (fun e => match e with
                 | E_createShader _ _ (inr shader) => Some shader
                 | _ => None
                 end) evts.

Definition linked_programs (evts : list Event) : list WebGLProgram :=
  omap (fun e => match e with
                 | E_createProgram _ _ (inr program) => Some program
                 | _ => None
                 end) evts.

Definition deleted_shaders (evts : list Event) : list WebGLShader :=
  omap (fun e => match e with
                 | E_deleteShader shader => Some shader
                 | _ => None
                 end) evts.

(** The GL draw mode back to the primitive it stands for. *)
Definition primitive_of_mode (mode : Z) : option Command.Primitive :=
  if (mode =? GL.TRIANGLES)%Z then Some Command.Triangles
  else if (mode =? GL.TRIANGLE_STRIP)%Z then Some Command.TriangleStrip
  else if (mode =? GL.TRIANGLE_FAN)%Z then Some Command.TriangleFan
  else if (mode =? GL.POINTS)%Z then Some Command.Points
  else if (mode =? GL.LINES)%Z then Some Command.Lines
  else if (mode =? GL.LINE_STRIP)%Z then Some Command.LineStrip
  else if (mode =? GL.LINE_LOOP)%Z then Some Command.LineLoop
  else None.

(** The value a binding that is read component by component yields. *)
Definition destructured_value {P} (props : P) (u : Command.Uniform P)
  : list Z :=
  match u with
  | Command.Uniform2f value | Command.Uniform2i value
  | Command.Uniform2ui value | Command.Uniform3f value
  | Command.Uniform3i value | Command.Uniform3ui value
  | Command.Uniform4f value | Command.Uniform4i value
  | Command.Uniform4ui value => Command.access props value
  | _ => []
  end.

(** ** Clearing and executing *)

(** The context after the calls [cs] were made, the calls [evts] among them
    being those of the world. *)
Definition advance (cs : list Call) (evts : list Event)
    (ctx : RenderingContext) : RenderingContext :=
  mkContext (calls ctx ++ cs) (emits evts (world ctx))
    (drawingBufferWidth ctx) (drawingBufferHeight ctx).

(** The calls that set the clear values of the fields that are defined. *)
Definition clear_setters (info : Command.ClearInfo) : list Call :=
  match Command.color info with
  | Some (r, g, b, a) => [C_clearColor r g b a]
  | None => []
  end
  ++ match Command.depth info with
     | Some depth => [C_clearDepth depth]
     | None => []
     end
  ++ match Command.stencil info with
     | Some stencil => [C_clearStencil stencil]
     | None => []
     end.

(** The buffer bits of the fields that are defined, added up. *)
Definition clear_mask (info : Command.ClearInfo) : Z :=
  (if bool_decide (is_Some (Command.color info))
   then GLbits.COLOR_BUFFER_BIT else 0)
  + (if bool_decide (is_Some (Command.depth info))
     then GLbits.DEPTH_BUFFER_BIT else 0)
  + (if bool_decide (is_Some (Command.stencil info))
     then GLbits.STENCIL_BUFFER_BIT else 0).

Definition clear_calls {P} (c : Command.t P) : list Call :=
  match Command.clearInfo c with
  | Some info =>
      clear_setters info
      ++ (if (clear_mask info =? 0)%Z then [] else [C_clear (clear_mask info)])
  | None => []
  end.

(** The calls one [updateUniforms] makes from the world [w]. *)
Definition uniform_calls {P} (c : Command.t P) (props : P) (w : World)
  : list Event :=
  drop (length (log w)) (log (snd (Command.updateUniforms c props w))).

(** The draw call of a vertex array. *)
Definition draw_call {P} (c : Command.t P) (vao : VertexArray.t) : Event :=
  draw_variant (Command.glPrimitive c) (VertexArray.hasElements vao)
    (truthy (VertexArray.instanceCount vao)) (VertexArray.count vao)
    (VertexArray.instanceCount vao).

(** The calls of [execute] before the framebuffer is looked at. *)
Definition execute_prologue {P} (c : Command.t P) (vao : VertexArray.t)
    (props : P) (w : World) : list Call :=
  [C_useProgram (Command.glProgram c)]
  ++ map Core (uniform_calls c props w)
  ++ [C_bindVertexArray (VertexArray.glVertexArrayObject vao)].

(** The calls of [execute] from the clear to the draw call, for a surface of
    the given size. *)
Definition execute_body {P} (c : Command.t P) (vao : VertexArray.t)
    (width height : Z) : list Call :=
  clear_calls c ++ [C_viewport 0 0 width height; Core (draw_call c vao)].

Definition is_draw (c : Call) : bool :=
  match c with
  | Core e => is_draw_call e
  | _ => false
  end.

(** Concrete inputs. *)
Definition fresh_context : RenderingContext :=
  mkContext [] fresh_world 300 150.

Definition three_vertices : VertexArray.t := VertexArray.mk (Some 4%nat) false 3 0.

Definition clearing_command : Command.t unit :=
  Command.mk 2%nat GL.TRIANGLES
    [Command.mkUniformInfo "u_color" 10%nat
       (Command.Uniform3fv (Command.Value [1; 0; 0]))]
    (Some (Command.mkClearInfo (Some (0, 0, 0, 1)) (Some 1) None)).

(** A framebuffer argument whose methods bind and unbind object 7. *)
Definition binding_framebuffer : FramebufferArg.t :=
  FramebufferArg.mk
    (CommandRun.call (C_bindFramebuffer GL.DRAW_FRAMEBUFFER (Some 7%nat)))
    (CommandRun.call (C_bindFramebuffer GL.DRAW_FRAMEBUFFER None))
    [GL.COLOR_ATTACHMENT0] 128 128.

(** A framebuffer argument whose [bind] throws. *)
Definition lost_framebuffer : FramebufferArg.t :=
  FramebufferArg.mk (throw (JsError "context lost")) (ret tt)
    [GL.COLOR_ATTACHMENT0] 128 128.

(** ** Framebuffer objects and attachments in a trace *)

Definition deleted_framebuffers (evts : list Event)
  : list (option WebGLFramebuffer) :=
  omap (fun e => match e with
                 | E_deleteFramebuffer fbo => Some fbo
                 | _ => None
                 end) evts.

(** The attachments made by GL handle: attachment point and handle. *)
Definition handle_attachments (evts : list Event)
  : list (Z * option WebGLTexture) :=
  omap (fun e => match e with
                 | E_framebufferTexture2D _ attachment _ (GlHandle h) _ =>
                     Some (attachment, h)
                 | _ => None
                 end) evts.

(** The attachments made by Texture object: attachment point and object. *)
Definition object_attachments (evts : list Event) : list (Z * Texture.t) :=
  omap (fun e => match e with
                 | E_framebufferTexture2D _ attachment _ (TextureObject t) _ =>
                     Some (attachment, t)
                 | _ => None
                 end) evts.

(** The attachment point and current handle of each colour buffer. *)
Definition color_points (w : World) (colors : list Texture.t)
  : list (Z * option WebGLTexture) :=
  imap (fun i buffer =>
          (GL.COLOR_ATTACHMENT0 + Z.of_nat i,
           glTextures w !! Texture.ref buffer))
       colors.

(** What a Framebuffer is made of: the fields no method assigns. *)
Definition configuration (fb : Framebuffer.t)
  : Z * Z * list Z * list Texture.t * option Texture.t * bool :=
  (Framebuffer.width fb, Framebuffer.height fb,
   Framebuffer.glColorAttachments fb, Framebuffer.colors fb,
   Framebuffer.depthStencil fb, Framebuffer.depthOnly fb).

Definition depth_only_of (call : FactoryCall) : bool :=
  match call with
  | WithDepthStencil _ | WithColorDepthStencil _ _ => false
  | WithColor _ | WithDepth _ | WithColorDepth _ _ => true
  end.

(** The object a factory call hands to [init]. *)
Definition blank_of (width height : Z) (call : FactoryCall) : Framebuffer.t :=
  blank width height (default [] (required_colors call)) (depth_of call)
    (depth_only_of call).

(** A Framebuffer with a colour and a depth buffer that holds object 5 and
    a Target for it. *)
Definition initialised_framebuffer : Framebuffer.t :=
  installed (Some 5%nat) two_buffer_framebuffer.

(** A driver that finds every framebuffer object invalid, creates object 7
    and reports it complete. *)
Definition recreating_driver : Driver :=
  constant_driver (Some 7%nat) GL.FRAMEBUFFER_COMPLETE false
    (fun _ => None) (fun _ => -1).

(** * Properties *)

(** ** The integer pattern *)

Section IntPattern.

Lemma star_digits_to_end (bol : bool) (s : list ascii) :
  Regex.star_match Regex.digit bol s
    (fun bol' s' => Regex.re_match Regex.Eol bol' s' (fun _ _ => true))
  = forallb Regex.digit s.
Proof.
  revert bol.
  induction s as [|c s IH]; intros bol; simpl; [reflexivity|].
  rewrite IH. now rewrite orb_false_r.
Qed.

Lemma INT_PATTERN_at (bol : bool) (s : list ascii) :
  Regex.re_match Command.INT_PATTERN bol s (fun _ _ => true)
  = (bol && starts_with_zero s) || digits_to_end s.
Proof.
  unfold Command.INT_PATTERN. cbn [Regex.re_match Regex.lit].
  f_equal.
  - destruct s as [|c s]; simpl; [reflexivity|]. now rewrite andb_true_r.
  - destruct s as [|c s]; simpl; [reflexivity|].
    unfold is_nonzero_digit. f_equal. apply star_digits_to_end.
Qed.

Lemma search_INT_PATTERN_inner (s : list ascii) :
  Regex.search Command.INT_PATTERN false s = has_digit_suffix s.
Proof.
  induction s as [|c s IH].
  - reflexivity.
  - cbn [Regex.search has_digit_suffix]. rewrite INT_PATTERN_at, IH. reflexivity.
Qed.

(** What [INT_PATTERN.test] accepts: every string that starts with [0], and
    every string that ends with a non-zero digit followed by digits. *)
Lemma INT_PATTERN_test (str : string) :
  Regex.test Command.INT_PATTERN str
  = starts_with_zero (list_ascii_of_string str)
    || has_digit_suffix (list_ascii_of_string str).
Proof.
  unfold Regex.test.
  destruct (list_ascii_of_string str) as [|c s].
  - reflexivity.
  - cbn [Regex.search]. rewrite INT_PATTERN_at, search_INT_PATTERN_inner.
    cbn [has_digit_suffix andb].
    now rewrite orb_assoc.
Qed.

(** Every integer literal is accepted. *)
Lemma INT_PATTERN_accepts_literals (str : string) :
  is_int_literal (list_ascii_of_string str) = true ->
  Regex.test Command.INT_PATTERN str = true.
Proof.
  rewrite INT_PATTERN_test.
  destruct (list_ascii_of_string str) as [|c ds]; [discriminate|].
  cbn [is_int_literal starts_with_zero has_digit_suffix digits_to_end].
  rewrite (Ascii.eqb_sym c "0").
  intros H. apply orb_true_iff in H as [H|H].
  - apply andb_true_iff in H as [-> _]. reflexivity.
  - rewrite H. now rewrite orb_true_r.
Qed.

End IntPattern.

(** ** Command.locate *)

Section Locate.
Context {P Def Elems : Type}.

(** C5: [locate] at the attribute map [{a_uv1: definition}].  The key is not
    an integer literal, but [INT_PATTERN] accepts it because it ends with a
    non-zero digit: with any driver and program, the entry is passed through
    under the key [a_uv1], no location is looked up and nothing is thrown. *)
Theorem locate_passes_through_name_ending_in_digit
    (d : Driver) (c : Command.t P) (definition : Def) (elements : Elems)
    (w : World) :
  is_int_literal (list_ascii_of_string "a_uv1") = false /\
  Regex.test Command.INT_PATTERN "a_uv1" = true /\
  Command.locate d c [("a_uv1", definition)] elements w
  = (Ok (<["a_uv1" := definition]> ∅, elements), w).
Proof.
  split; [reflexivity|]. split; reflexivity.
Qed.

(** A key that is an integer literal is passed through under that key. *)
Lemma locate_passes_through_integer_key
    (d : Driver) (c : Command.t P) (key : string) (definition : Def)
    (elements : Elems) (w : World) :
  is_int_literal (list_ascii_of_string key) = true ->
  Command.locate d c [(key, definition)] elements w
  = (Ok (<[key := definition]> ∅, elements), w).
Proof.
  intros H. apply INT_PATTERN_accepts_literals in H.
  unfold Command.locate. cbn [reduceM]. unfold bind at 1 2. now rewrite H.
Qed.

(** A key the pattern rejects is looked up: the entry goes under the location
    the driver reports, or [locate] throws when there is none. *)
Lemma locate_resolves_rejected_key
    (d : Driver) (c : Command.t P) (key : string) (definition : Def)
    (elements : Elems) (w : World) :
  Regex.test Command.INT_PATTERN key = false ->
  let location := drv_getAttribLocation d (log w) (Command.glProgram c) key in
  let w' := emit (E_getAttribLocation (Command.glProgram c) key location) w in
  Command.locate d c [(key, definition)] elements w
  = if (location =? -1)%Z
    then (Throw (MissingAttributeLocation key), w')
    else (Ok (<[pretty location := definition]> ∅, elements), w').
Proof.
  intros H. unfold Command.locate. cbn [reduceM]. unfold bind at 1 2.
  rewrite H. cbv zeta. unfold bind at 1.
  unfold gl.getAttribLocation, gl.query. cbv beta.
  unfold Command.UNKNOWN_ATTRIB_LOCATION.
  now destruct (_ =? -1)%Z.
Qed.

End Locate.

(** ** Command.draw *)

Section Draw.
Context {P : Type}.


Lemma draw_run (c : Command.t P) (hasElements : bool) (count instCount : Z)
    (w : World) :
  Command.draw c hasElements count instCount w
  = (Ok tt,
     emit (draw_variant (Command.glPrimitive c) hasElements (truthy instCount)
             count instCount) w).
Proof.
  unfold Command.draw. now destruct hasElements, (truthy instCount).
Qed.


End Draw.


(** ** Traces *)

Lemma emits_nil (w : World) : emits [] w = w.
Proof. destruct w. unfold emits, set_log. simpl. now rewrite app_nil_r. Qed.

Lemma emit_emits (e : Event) (evts : list Event) (w : World) :
  emit e (emits evts w) = emits (evts ++ [e]) w.
Proof. unfold emit, emits, set_log. simpl. now rewrite app_assoc. Qed.

Lemma emits_emits (evts1 evts2 : list Event) (w : World) :
  emits evts2 (emits evts1 w) = emits (evts1 ++ evts2) w.
Proof. unfold emits, set_log. simpl. now rewrite app_assoc. Qed.

Lemma emits_after_emit (e : Event) (evts : list Event) (w : World) :
  emits evts (emit e w) = emits (e :: evts) w.
Proof. unfold emit, emits, set_log. simpl. now rewrite <- app_assoc. Qed.

Lemma emit_is_emits (e : Event) (w : World) : emit e w = emits [e] w.
Proof. reflexivity. Qed.

Lemma log_emits (evts : list Event) (w : World) :
  log (emits evts w) = log w ++ evts.
Proof. reflexivity. Qed.

(** ** Command.create *)

Section Create.
Variable d : Driver.
Context {P : Type}.

(** The [map] over the entries of [uniforms]: either every entry is
    recorded with the location the driver gave for it, or the first entry
    for which the driver gave none is reported. *)
Lemma create_lookups (program : WebGLProgram)
    (uniforms : list (string * Command.Uniform P)) (w : World) :
  match
    mapM (fun '(identifier, uniform) =>
            location <- gl.getUniformLocation d program identifier ;;
            match location with
            | None => throw (JsError ("No location for uniform: " +:+ identifier))
            | Some location =>
                ret (Command.mkUniformInfo identifier location uniform)
            end)
         uniforms w
  with
  | (Ok infos, w') =>
      map declared infos = uniforms /\
      located_by d program (log w) infos /\
      w' = emits (map (found_lookup program) infos) w
  | (Throw e, w') =>
      exists (found : list (Command.UniformInfo P)) identifier uniform rest,
        uniforms = map declared found ++ (identifier, uniform) :: rest /\
        located_by d program (log w) found /\
        drv_getUniformLocation d (log w ++ map (found_lookup program) found)
          program identifier = None /\
        e = MissingUniformLocation identifier /\
        w' = emits (map (found_lookup program) found
                    ++ [E_getUniformLocation program identifier None]) w
  end.
Proof.
  revert w.
  induction uniforms as [|[identifier uniform] rest IH]; intros w.
  - simpl. split; [reflexivity|]. split; [exact I|]. now rewrite emits_nil.
  - cbn [mapM]. unfold bind at 1 2.
    unfold gl.getUniformLocation at 1, gl.query at 1. cbv beta zeta.
    destruct (drv_getUniformLocation d (log w) program identifier)
      as [location|] eqn:Hloc.
    + unfold ret at 1. unfold bind at 1.
      specialize (IH (emit (E_getUniformLocation program identifier
                              (Some location)) w)).
      destruct (mapM _ rest _) as [[infos|e] w'].
      * destruct IH as (Hdecl & Hby & ->). unfold ret. split; [|split].
        -- simpl. now rewrite Hdecl.
        -- split; [exact Hloc|exact Hby].
        -- now rewrite emits_after_emit.
      * destruct IH
          as (found & identifier' & uniform' & rest' & -> & Hby & Hnone & -> & ->).
        exists (Command.mkUniformInfo identifier location uniform :: found),
          identifier', uniform', rest'.
        split; [reflexivity|].
        split; [split; [exact Hloc|exact Hby]|].
        split.
        { cbn [map app]. cbn [log emit set_log] in Hnone.
          now rewrite <- app_assoc in Hnone. }
        split; [reflexivity|].
        now rewrite emits_after_emit.
    + unfold throw. exists [], identifier, uniform, rest.
      cbn [map app]. rewrite app_nil_r. now repeat split.
Qed.

(** [create] in one statement: how it ends, with the whole trace. *)
Lemma create_outcome (props : Command.CommandProps P) (w : World) :
  match Command.create d props w with
  | (Ok c, w') =>
      map declared (Command.uniformInfo c)
      = default [] (Command.uniforms props) /\
      exists vs fs : WebGLShader,
        compiles_and_links d props w vs fs (Command.glProgram c) /\
        located_by d (Command.glProgram c)
          (log w ++ create_prologue props vs fs (Command.glProgram c))
          (Command.uniformInfo c) /\
        w' = emits (create_prologue props vs fs (Command.glProgram c)
                    ++ map (found_lookup (Command.glProgram c))
                           (Command.uniformInfo c)) w
  | (Throw e, w') =>
      (exists evts : list Event,
          build_failure d props w e evts /\ w' = emits evts w) \/
      (exists (vs fs : WebGLShader) (program : WebGLProgram)
              (found : list (Command.UniformInfo P)) identifier uniform rest,
          compiles_and_links d props w vs fs program /\
          default [] (Command.uniforms props)
          = map declared found ++ (identifier, uniform) :: rest /\
          located_by d program (log w ++ create_prologue props vs fs program)
            found /\
          drv_getUniformLocation d
            (log w ++ create_prologue props vs fs program
             ++ map (found_lookup program) found)
            program identifier = None /\
          e = MissingUniformLocation identifier /\
          w' = emits (create_prologue props vs fs program
                      ++ map (found_lookup program) found
                      ++ [E_getUniformLocation program identifier None]) w)
  end.
Proof.
  unfold Command.create. cbv zeta.
  unfold bind at 1. unfold glutil.createShader at 1.
  unfold bind at 1. unfold gl.query at 1. cbv beta zeta.
  destruct (drv_createShader d (log w) GL.VERTEX_SHADER (Command.vert props))
    as [e1|vertShader] eqn:Hvert.
  { unfold throw. left. eexists. split; [left; now split|reflexivity]. }
  unfold ret at 1.
  unfold bind at 1. unfold glutil.createShader at 1.
  unfold bind at 1. unfold gl.query at 1. cbv beta zeta.
  rewrite emit_is_emits. rewrite log_emits.
  destruct (drv_createShader d _ GL.FRAGMENT_SHADER (Command.frag props))
    as [e2|fragShader] eqn:Hfrag.
  { unfold throw. rewrite emit_emits. left. eexists.
    split; [right; left; exists vertShader; now repeat split|reflexivity]. }
  unfold ret at 1. rewrite emit_emits.
  unfold bind at 1. unfold glutil.createProgram at 1.
  unfold bind at 1. unfold gl.query at 1. cbv beta zeta.
  rewrite log_emits.
  destruct (drv_createProgram d _ vertShader fragShader) as [e3|program]
    eqn:Hlink.
  { unfold throw. rewrite emit_emits. left. eexists.
    split; [right; right; exists vertShader, fragShader; now repeat split
           |reflexivity]. }
  unfold ret at 1. rewrite emit_emits.
  unfold bind at 1. unfold gl.deleteShader at 1, gl.call, modify.
  rewrite emit_emits.
  unfold bind at 1. unfold gl.deleteShader at 1, gl.call, modify.
  rewrite emit_emits.
  unfold bind at 1.
  assert (Hlinks : compiles_and_links d props w vertShader fragShader program)
    by (split; [exact Hvert|split; [exact Hfrag|exact Hlink]]).
  match goal with
  | |- context [mapM _ ?us ?w0] =>
      pose proof (create_lookups program us w0) as Hlookups;
      destruct (mapM _ us w0) as [[infos|e] w']
  end.
  - destruct Hlookups as (Hdecl & Hby & ->). unfold ret.
    cbn [Command.uniformInfo Command.glProgram].
    split; [exact Hdecl|].
    exists vertShader, fragShader.
    split; [exact Hlinks|]. split; [exact Hby|].
    now rewrite emits_emits.
  - destruct Hlookups
      as (found & identifier & uniform & rest & Hdecl & Hby & Hnone & -> & ->).
    right.
    exists vertShader, fragShader, program, found, identifier, uniform, rest.
    split; [exact Hlinks|]. split; [exact Hdecl|]. split; [exact Hby|].
    split; [now rewrite log_emits, <- app_assoc in Hnone|].
    split; [reflexivity|].
    now rewrite emits_emits.
Qed.

End Create.

Section CreateTheorem.
Variable d : Driver.
Context {P : Type}.

Lemma uniform_lookups_found (program : WebGLProgram)
    (infos : list (Command.UniformInfo P)) :
  uniform_lookups (map (found_lookup program) infos) = map resolved infos.
Proof.
  induction infos as [|info infos IH]; [reflexivity|].
  change (uniform_lookups (map (found_lookup program) (info :: infos)))
    with (resolved info :: uniform_lookups (map (found_lookup program) infos)).
  now rewrite IH.
Qed.

Lemma uniform_lookups_app (evts1 evts2 : list Event) :
  uniform_lookups (evts1 ++ evts2)
  = uniform_lookups evts1 ++ uniform_lookups evts2.
Proof. apply omap_app. Qed.

(** C1: [Command.create] looks up every declared uniform, in declaration
    order, in the program the driver linked from the two shaders it
    compiled, the lookups being its last calls.  When it returns, the
    Command holds that program, its bindings are the declared uniforms, and
    each binding records the location the driver answered for its
    identifier.  When it throws, either compiling or linking failed and no
    uniform was looked up, or the driver answered every uniform declared
    before some identifier and had no location for that one: the lookup
    that found none is the last call and the error is MissingUniformLocation
    for that identifier. *)
Theorem create_resolves_every_uniform
    (props : Command.CommandProps P) (w : World) :
  match Command.create d props w with
  | (Ok c, w') =>
      map declared (Command.uniformInfo c)
      = default [] (Command.uniforms props) /\
      exists vs fs : WebGLShader,
        compiles_and_links d props w vs fs (Command.glProgram c) /\
        located_by d (Command.glProgram c)
          (log w ++ create_prologue props vs fs (Command.glProgram c))
          (Command.uniformInfo c) /\
        w' = emits (create_prologue props vs fs (Command.glProgram c)
                    ++ map (found_lookup (Command.glProgram c))
                           (Command.uniformInfo c)) w /\
        uniform_lookups (create_prologue props vs fs (Command.glProgram c)
                         ++ map (found_lookup (Command.glProgram c))
                                (Command.uniformInfo c))
        = map resolved (Command.uniformInfo c)
  | (Throw e, w') =>
      (exists evts : list Event,
          build_failure d props w e evts /\
          w' = emits evts w /\
          uniform_lookups evts = []) \/
      (exists (vs fs : WebGLShader) (program : WebGLProgram)
              (found : list (Command.UniformInfo P)) identifier uniform rest,
          compiles_and_links d props w vs fs program /\
          default [] (Command.uniforms props)
          = map declared found ++ (identifier, uniform) :: rest /\
          located_by d program (log w ++ create_prologue props vs fs program)
            found /\
          drv_getUniformLocation d
            (log w ++ create_prologue props vs fs program
             ++ map (found_lookup program) found)
            program identifier = None /\
          e = MissingUniformLocation identifier /\
          w' = emits (create_prologue props vs fs program
                      ++ map (found_lookup program) found
                      ++ [E_getUniformLocation program identifier None]) w /\
          uniform_lookups (create_prologue props vs fs program
                           ++ map (found_lookup program) found
                           ++ [E_getUniformLocation program identifier None])
          = map resolved found ++ [(identifier, None)])
  end.
Proof.
  pose proof (create_outcome d props w) as H.
  destruct (Command.create d props w) as [[c|e] w'].
  - destruct H as (Hdecl & vs & fs & Hlinks & Hby & Hw).
    split; [exact Hdecl|]. exists vs, fs.
    split; [exact Hlinks|]. split; [exact Hby|]. split; [exact Hw|].
    rewrite uniform_lookups_app. apply uniform_lookups_found.
  - destruct H as [(evts & Hfail & Hw)|H].
    + left. exists evts. split; [exact Hfail|]. split; [exact Hw|].
      destruct Hfail as [(_ & ->)|[(vs & _ & _ & ->)|(vs & fs & _ & _ & _ & ->)]];
        reflexivity.
    + destruct H as (vs & fs & program & found & identifier & uniform & rest
                     & Hlinks & Hdecl & Hby & Hnone & He & Hw).
      right.
      exists vs, fs, program, found, identifier, uniform, rest.
      repeat (split; [assumption|]).
      rewrite !uniform_lookups_app, uniform_lookups_found. reflexivity.
Qed.

End CreateTheorem.

(** ** Command.updateUniforms *)

Section UpdateUniforms.
Context {P : Type}.

Lemma texture_binds_skip (e : Event) (evts : list Event) :
  (forall unit, e <> E_activeTexture unit) ->
  texture_binds (e :: evts) = texture_binds evts.
Proof.
  intros H. destruct e; try reflexivity. now destruct (H texture).
Qed.

Lemma texture_binds_triple (unit : Z) (target : Z)
    (handle : option WebGLTexture) (loc : WebGLUniformLocation) (sampler : Z)
    (evts : list Event) :
  texture_binds
    (E_activeTexture unit :: E_bindTexture target handle
       :: E_uniform1i loc sampler :: evts)
  = (unit, handle, loc, sampler) :: texture_binds evts.
Proof. reflexivity. Qed.

Lemma expected_binds_cons (w : World) (first : Z)
    (loc : WebGLUniformLocation) (texture : Texture.t)
    (textures : list (WebGLUniformLocation * Texture.t)) :
  expected_binds w first ((loc, texture) :: textures)
  = (GL.TEXTURE0 + first, glTextures w !! Texture.ref texture, loc, first)
    :: expected_binds w (first + 1) textures.
Proof.
  unfold expected_binds. cbn [imap]. rewrite Z.add_0_r. f_equal.
  apply imap_ext. intros k [loc' texture'] _. simpl.
  replace (first + 1 + Z.of_nat k) with (first + Z.of_nat (S k)) by lia.
  reflexivity.
Qed.

(** One binding: a texture-typed one emits the three calls of a texture
    binding for the unit [offset] and returns [offset + 1]; any other emits
    one call that is not [activeTexture] and returns [offset]. *)
Lemma updateUniform_run (props : P) (info : Command.UniformInfo P)
    (offset : Z) (w : World) :
  exists evts : list Event,
    Command.updateUniform props info offset w
    = (Ok (offset + Z.of_nat (length (texture_uniforms props [info]))),
       emits evts w) /\
    forall rest : list Event,
      texture_binds (evts ++ rest)
      = expected_binds w offset (texture_uniforms props [info])
        ++ texture_binds rest /\
      active_textures (evts ++ rest)
      = map selected_unit
            (expected_binds w offset (texture_uniforms props [info]))
        ++ active_textures rest /\
      passed_values (evts ++ rest)
      = (Command.location info,
         yielded props offset (Command.definition info))
        :: passed_values rest.
Proof.
  destruct info as [identifier loc definition].
  unfold Command.updateUniform.
  destruct definition;
    try (eexists [_]; split;
         [cbn; rewrite Z.add_0_r; reflexivity
         |intros rest; split; [|split]; reflexivity]).
  change (texture_uniforms props
            [Command.mkUniformInfo identifier loc (Command.UniformTexture value)])
    with [(loc, Command.access props value)].
  eexists [_; _; _]. split.
  - cbn. rewrite (emit_is_emits _ w), !emit_emits. reflexivity.
  - intros rest. rewrite expected_binds_cons. split; [|split]; reflexivity.
Qed.

End UpdateUniforms.

Section UpdateUniformsLoop.
Context {P : Type}.

Lemma texture_uniforms_cons (props : P) (info : Command.UniformInfo P)
    (infos : list (Command.UniformInfo P)) :
  texture_uniforms props (info :: infos)
  = texture_uniforms props [info] ++ texture_uniforms props infos.
Proof. apply (omap_app _ [info] infos). Qed.

Lemma expected_binds_app (w : World) (first : Z)
    (l1 l2 : list (WebGLUniformLocation * Texture.t)) :
  expected_binds w first (l1 ++ l2)
  = expected_binds w first l1
    ++ expected_binds w (first + Z.of_nat (length l1)) l2.
Proof.
  unfold expected_binds. rewrite imap_app. f_equal.
  apply imap_ext. intros k [loc texture] _. simpl.
  replace (first + Z.of_nat (length l1) + Z.of_nat k)
    with (first + Z.of_nat (length l1 + k)) by lia.
  reflexivity.
Qed.

Lemma selected_units (w : World) (first : Z)
    (textures : list (WebGLUniformLocation * Texture.t)) :
  map selected_unit (expected_binds w first textures)
  = map (Z.add GL.TEXTURE0) (seqZ first (Z.of_nat (length textures))).
Proof.
  revert first.
  induction textures as [|[loc texture] textures IH]; intros first.
  - reflexivity.
  - rewrite expected_binds_cons. cbn [map selected_unit length].
    rewrite IH, (seqZ_cons first) by lia. cbn [map].
    replace (Z.pred (Z.of_nat (S (length textures))))
      with (Z.of_nat (length textures)) by lia.
    replace (Z.succ first) with (first + 1) by lia.
    reflexivity.
Qed.

(** The loop over the bindings, entered with the unit counter at [offset]. *)
Lemma updateUniforms_loop (props : P) (infos : list (Command.UniformInfo P))
    (offset : Z) (w : World) :
  exists evts : list Event,
    reduceM (fun offset info => Command.updateUniform props info offset)
            infos offset w
    = (Ok (offset + Z.of_nat (length (texture_uniforms props infos))),
       emits evts w) /\
    texture_binds evts
    = expected_binds w offset (texture_uniforms props infos) /\
    active_textures evts
    = map selected_unit
          (expected_binds w offset (texture_uniforms props infos)) /\
    passed_values evts = yielded_values props offset infos.
Proof.
  revert offset w.
  induction infos as [|info infos IH]; intros offset w.
  - exists []. cbn. rewrite Z.add_0_r, emits_nil. now repeat split.
  - destruct (updateUniform_run props info offset w) as (evts1 & Hrun & Hbinds).
    destruct (IH (offset + Z.of_nat (length (texture_uniforms props [info])))
                 (emits evts1 w))
      as (evts2 & Hloop & Hbinds2 & Hactive2 & Hpassed2).
    exists (evts1 ++ evts2).
    rewrite texture_uniforms_cons, expected_binds_app.
    destruct (Hbinds evts2) as (-> & -> & ->).
    rewrite Hbinds2, Hactive2, Hpassed2, map_app.
    split; [|split; [|split]; reflexivity].
    cbn [reduceM]. unfold bind at 1. rewrite Hrun, Hloop.
    rewrite emits_emits, length_app. do 2 f_equal. lia.
Qed.

Lemma updateUniform_resolved (props props' : P)
    (info : Command.UniformInfo P) (offset : Z) :
  Command.updateUniform props' (resolve_info props info) offset
  = Command.updateUniform props info offset.
Proof. destruct info as [identifier loc []]; reflexivity. Qed.

Lemma updateUniforms_loop_resolved (props props' : P)
    (infos : list (Command.UniformInfo P)) (offset : Z) (w : World) :
  reduceM (fun offset info => Command.updateUniform props' info offset)
          (map (resolve_info props) infos) offset w
  = reduceM (fun offset info => Command.updateUniform props info offset)
            infos offset w.
Proof.
  revert offset w.
  induction infos as [|info infos IH]; intros offset w; [reflexivity|].
  cbn [map reduceM]. unfold bind. rewrite updateUniform_resolved.
  destruct (Command.updateUniform props info offset w) as [[offset'|e] w'];
    [apply IH|reflexivity].
Qed.

End UpdateUniformsLoop.

Section UpdateUniformsTheorem.
Context {P : Type}.

Lemma updateUniforms_run (c : Command.t P) (props : P) (w : World) :
  exists evts : list Event,
    Command.updateUniforms c props w = (Ok tt, emits evts w) /\
    texture_binds evts
    = expected_binds w 0 (texture_uniforms props (Command.uniformInfo c)) /\
    active_textures evts
    = units_from_zero
        (length (texture_uniforms props (Command.uniformInfo c))) /\
    passed_values evts = yielded_values props 0 (Command.uniformInfo c).
Proof.
  destruct (updateUniforms_loop props (Command.uniformInfo c) 0 w)
    as (evts & Hloop & Hbinds & Hactive & Hpassed).
  exists evts. unfold Command.updateUniforms. cbv zeta.
  unfold bind. rewrite Hloop.
  rewrite Hactive, selected_units. now repeat split.
Qed.

(** C4: one call of [updateUniforms] succeeds and only appends calls to the
    trace.  Every binding, in declaration order, passes to its location the
    value it yields on the props of this call, a texture-typed binding the
    number of its unit.  The texture bindings are those of the texture-typed
    uniforms in declaration order: the k-th selects unit TEXTURE0 + k, binds
    the handle of the texture its value yields on the props of this call,
    and stores k in its sampler, k counted from 0; no other [activeTexture]
    is issued.  Nothing is kept from call to call: the call behaves as on
    the command whose values are fixed to what they yield on its own props,
    and a following call, on other props, again counts from 0 and passes
    what the bindings yield on its own props. *)
Theorem updateUniforms_assigns_texture_units
    (c : Command.t P) (props : P) (w : World) :
  exists evts : list Event,
    Command.updateUniforms c props w = (Ok tt, emits evts w) /\
    passed_values evts = yielded_values props 0 (Command.uniformInfo c) /\
    texture_binds evts
    = expected_binds w 0 (texture_uniforms props (Command.uniformInfo c)) /\
    active_textures evts
    = units_from_zero
        (length (texture_uniforms props (Command.uniformInfo c))) /\
    (forall props0 : P,
        Command.updateUniforms (resolve_command props c) props0 w
        = Command.updateUniforms c props w) /\
    (forall props' : P,
        exists evts' : list Event,
          Command.updateUniforms c props' (emits evts w)
          = (Ok tt, emits (evts ++ evts') w) /\
          passed_values evts'
          = yielded_values props' 0 (Command.uniformInfo c) /\
          texture_binds evts'
          = expected_binds w 0
              (texture_uniforms props' (Command.uniformInfo c)) /\
          active_textures evts'
          = units_from_zero
              (length (texture_uniforms props' (Command.uniformInfo c)))).
Proof.
  destruct (updateUniforms_run c props w)
    as (evts & Hrun & Hbinds & Hactive & Hpassed).
  exists evts. repeat split; try assumption.
  - intros props0. unfold Command.updateUniforms, resolve_command.
    cbn [Command.uniformInfo]. unfold bind.
    now rewrite updateUniforms_loop_resolved.
  - intros props'.
    destruct (updateUniforms_run c props' (emits evts w))
      as (evts' & Hrun' & Hbinds' & Hactive' & Hpassed').
    exists evts'. rewrite Hrun', emits_emits. now repeat split.
Qed.

End UpdateUniformsTheorem.

(** ** Framebuffer.init *)

(** Two worlds that differ in how their traces are bracketed. *)
Ltac same_world :=
  unfold emits, emit, set_log, set_drawFramebufferStack, set_viewportStack;
  cbn;
  repeat first [rewrite <- app_assoc | progress (cbn [app])];
  reflexivity.

Section Init.
Variable d : Driver.

Lemma color_attach_events_cons (w : World) (buffer : Texture.t)
    (colors : list Texture.t) (first : Z) :
  color_attach_events w (buffer :: colors) first
  = E_framebufferTexture2D GL.DRAW_FRAMEBUFFER (GL.COLOR_ATTACHMENT0 + first)
      GL.TEXTURE_2D (GlHandle (glTextures w !! Texture.ref buffer)) 0
    :: color_attach_events w colors (first + 1).
Proof.
  unfold color_attach_events. cbn [imap]. rewrite Z.add_0_r. f_equal.
  apply imap_ext. intros i buffer' _. cbn.
  replace (first + 1 + Z.of_nat i) with (first + Z.of_nat (S i)) by lia.
  reflexivity.
Qed.

(** The [forEach] over the colour buffers. *)
Lemma attach_colors_run (colors : list Texture.t) (first : Z) (w : World) :
  forEach_from
    (fun buffer i =>
       handle <- glTexture buffer ;;
       gl.framebufferTexture2D GL.DRAW_FRAMEBUFFER (GL.COLOR_ATTACHMENT0 + i)
         GL.TEXTURE_2D (GlHandle handle) 0)
    colors first w
  = (Ok tt, emits (color_attach_events w colors first) w).
Proof.
  revert first w.
  induction colors as [|buffer colors IH]; intros first w.
  - cbn. now rewrite emits_nil.
  - cbn [forEach_from]. unfold bind at 1.
    unfold bind at 1, glTexture at 1, gl.framebufferTexture2D at 1.
    unfold bind at 1, gl.call, modify, ret at 1. cbv beta iota.
    rewrite IH, color_attach_events_cons, emits_after_emit.
    reflexivity.
Qed.

(** [init] in one equation: with a depth or depth-stencil buffer it ends at
    the attachment of that buffer; without one it ends on the status the
    driver reports. *)
Lemma init_run (fb : Framebuffer.t) (w : World) :
  Framebuffer.init d (Framebuffer.mkState fb w)
  = match Framebuffer.depthStencil fb with
    | Some _ =>
        (Throw TypeError, Framebuffer.mkState fb (init_interrupted d fb w))
    | None =>
        if (init_status d fb w =? GL.FRAMEBUFFER_COMPLETE)%Z
        then (Ok tt,
              Framebuffer.mkState (installed (init_fbo d w) fb)
                (emits (init_scope d fb w) w))
        else (Throw FramebufferIncomplete,
              Framebuffer.mkState fb
                (emits (init_scope d fb w
                        ++ [E_deleteFramebuffer (init_fbo d w)]) w))
    end.
Proof.
  unfold Framebuffer.init.
  unfold bind at 1, Framebuffer.getThis at 1. cbv beta iota.
  unfold bind at 1. unfold Framebuffer.on_dev at 1.
  unfold gl.createFramebuffer, gl.query. cbv beta zeta iota.
  cbn [Framebuffer.this Framebuffer.world].
  fold (init_fbo d w).
  unfold bind at 1. unfold Framebuffer.on_dev at 1.
  unfold stackDrawFramebuffer.push, modify. cbv beta zeta iota.
  cbn [Framebuffer.this Framebuffer.world].
  unfold bind at 1. unfold Framebuffer.on_dev at 1. unfold forEach.
  rewrite attach_colors_run. cbv beta zeta iota.
  cbn [Framebuffer.this Framebuffer.world].
  set (w2 := emits _ (set_drawFramebufferStack _ _)).
  assert (Hw2 : w2 = set_drawFramebufferStack
                       (init_fbo d w :: drawFramebufferStack w)
                       (emits ([E_createFramebuffer (init_fbo d w);
                                E_stackDrawFramebuffer_push (init_fbo d w)]
                               ++ color_attach_events w (Framebuffer.colors fb) 0)
                              w)).
  { subst w2. same_world. }
  clearbody w2. subst w2.
  unfold bind at 1.
  set (w3 := set_drawFramebufferStack
               (init_fbo d w :: drawFramebufferStack w)
               (emits (init_prefix d fb w) w)).
  assert (Hdepth :
    (match Framebuffer.depthStencil fb with
     | Some depthStencil =>
         Framebuffer.on_dev
           (gl.framebufferTexture2D GL.DRAW_FRAMEBUFFER
              (if Framebuffer.depthOnly fb then GL.DEPTH_ATTACHMENT
               else GL.DEPTH_STENCIL_ATTACHMENT)
              GL.TEXTURE_2D (TextureObject depthStencil) 0)
     | None => ret tt
     end)
      (Framebuffer.mkState fb
         (set_drawFramebufferStack
            (init_fbo d w :: drawFramebufferStack w)
            (emits ([E_createFramebuffer (init_fbo d w);
                     E_stackDrawFramebuffer_push (init_fbo d w)]
                    ++ color_attach_events w (Framebuffer.colors fb) 0) w)))
    = (match Framebuffer.depthStencil fb with
       | Some _ => Throw TypeError
       | None => Ok tt
       end, Framebuffer.mkState fb w3)).
  { subst w3. unfold init_prefix, depth_attach_events, depth_attachment_point.
    destruct (Framebuffer.depthStencil fb) as [depthStencil|].
    - unfold Framebuffer.on_dev, gl.framebufferTexture2D, gl.call, modify.
      cbn. do 2 f_equal. same_world.
    - unfold ret. now rewrite !app_nil_r. }
  rewrite Hdepth. clear Hdepth.
  destruct (Framebuffer.depthStencil fb) as [depthStencil|] eqn:Hdepth;
    [reflexivity|].
  unfold bind at 1. unfold Framebuffer.on_dev at 1.
  unfold gl.checkFramebufferStatus, gl.query. cbv beta zeta iota.
  cbn [Framebuffer.this Framebuffer.world].
  change (log w3) with (log w ++ init_prefix d fb w).
  fold (init_status d fb w).
  unfold bind at 1. unfold Framebuffer.on_dev at 1.
  unfold stackDrawFramebuffer.pop, modify. cbv beta zeta iota.
  cbn [Framebuffer.this Framebuffer.world].
  set (w4 := set_drawFramebufferStack _ _).
  assert (Hw4 : w4 = emits (init_scope d fb w) w).
  { subst w4 w3. unfold init_scope, init_prefix. same_world. }
  clearbody w4. subst w4.
  unfold bind at 1.
  destruct (init_status d fb w =? GL.FRAMEBUFFER_COMPLETE)%Z; cbn [negb].
  - unfold ret at 1. unfold bind at 1.
    unfold Framebuffer.setThis at 1, modify.
    cbn [Framebuffer.this Framebuffer.world].
    unfold installed.
    destruct (init_fbo d w) as [fbo|]; reflexivity.
  - unfold bind at 1. unfold Framebuffer.on_dev at 1.
    unfold gl.deleteFramebuffer, gl.call, modify. cbv beta zeta iota.
    cbn [Framebuffer.this Framebuffer.world].
    rewrite emit_emits. reflexivity.
Qed.

End Init.

Section InitTheorems.
Variable d : Driver.

Lemma stack_ops_app (evts1 evts2 : list Event) :
  stack_ops (evts1 ++ evts2) = stack_ops evts1 ++ stack_ops evts2.
Proof. apply omap_app. Qed.

Lemma created_app (evts1 evts2 : list Event) :
  created (evts1 ++ evts2) = created evts1 ++ created evts2.
Proof. apply omap_app. Qed.

Lemma stack_ops_color_attach (w : World) (colors : list Texture.t) (first : Z) :
  stack_ops (color_attach_events w colors first) = [].
Proof.
  revert first. induction colors as [|buffer colors IH]; intros first.
  - reflexivity.
  - rewrite color_attach_events_cons.
    change (stack_ops (?e :: ?l)) with (stack_ops [e] ++ stack_ops l).
    now rewrite IH.
Qed.

Lemma created_color_attach (w : World) (colors : list Texture.t) (first : Z) :
  created (color_attach_events w colors first) = [].
Proof.
  revert first. induction colors as [|buffer colors IH]; intros first.
  - reflexivity.
  - rewrite color_attach_events_cons.
    change (created (?e :: ?l)) with (created [e] ++ created l).
    now rewrite IH.
Qed.

Lemma stack_ops_init_scope (fb : Framebuffer.t) (w : World) :
  stack_ops (init_scope d fb w) = [Push (init_fbo d w); Pop].
Proof.
  unfold init_scope, init_prefix.
  rewrite !stack_ops_app, stack_ops_color_attach.
  unfold depth_attach_events.
  now destruct (Framebuffer.depthStencil fb).
Qed.

Lemma created_init_scope (fb : Framebuffer.t) (w : World) :
  created (init_scope d fb w) = [init_fbo d w].
Proof.
  unfold init_scope, init_prefix.
  rewrite !created_app, created_color_attach.
  unfold depth_attach_events.
  now destruct (Framebuffer.depthStencil fb).
Qed.

(** The i-th colour buffer goes to attachment point COLOR_ATTACHMENT0 + i,
    by the GL handle the texture holds. *)
Lemma init_attaches_color_handles (w : World) (colors : list Texture.t)
    (i : nat) (buffer : Texture.t) :
  colors !! i = Some buffer ->
  color_attach_events w colors 0 !! i
  = Some (E_framebufferTexture2D GL.DRAW_FRAMEBUFFER
            (GL.COLOR_ATTACHMENT0 + Z.of_nat i) GL.TEXTURE_2D
            (GlHandle (glTextures w !! Texture.ref buffer)) 0).
Proof.
  intros H. unfold color_attach_events.
  rewrite list_lookup_imap, H. reflexivity.
Qed.

Lemma stack_ops_init_prefix (fb : Framebuffer.t) (w : World) :
  stack_ops (init_prefix d fb w) = [Push (init_fbo d w)].
Proof.
  unfold init_prefix.
  rewrite !stack_ops_app, stack_ops_color_attach.
  unfold depth_attach_events.
  now destruct (Framebuffer.depthStencil fb).
Qed.

Lemma created_init_prefix (fb : Framebuffer.t) (w : World) :
  created (init_prefix d fb w) = [init_fbo d w].
Proof.
  unfold init_prefix.
  rewrite !created_app, created_color_attach.
  unfold depth_attach_events.
  now destruct (Framebuffer.depthStencil fb).
Qed.

Lemma last_init_prefix (fb : Framebuffer.t) (w : World)
    (depthStencil : Texture.t) :
  Framebuffer.depthStencil fb = Some depthStencil ->
  last (init_prefix d fb w)
  = Some (E_framebufferTexture2D GL.DRAW_FRAMEBUFFER
            (depth_attachment_point (Framebuffer.depthOnly fb)) GL.TEXTURE_2D
            (TextureObject depthStencil) 0).
Proof.
  intros H. unfold init_prefix, depth_attach_events. rewrite H.
  rewrite app_assoc. apply last_snoc.
Qed.

(** C7: [init] pushes the new object on the draw-framebuffer stack once.  On
    a Framebuffer without depth or depth-stencil buffer it pops once, before
    the status is tested, so that the stack is as before whether [init]
    returns or throws FramebufferIncomplete.  On a Framebuffer with such a
    buffer the attachment of that buffer, made with the Texture object, is
    the last call: the context throws a TypeError, [init] has no handler
    around the calls between push and pop, and the stack is left one deeper,
    with the new object on top. *)
Theorem init_pops_only_without_depth_buffer (s : Framebuffer.State) :
  exists (r : Res unit) (s' : Framebuffer.State) (evts : list Event),
    Framebuffer.init d s = (r, s') /\
    log (Framebuffer.world s') = log (Framebuffer.world s) ++ evts /\
    match Framebuffer.depthStencil (Framebuffer.this s) with
    | None =>
        (r = Ok tt \/ r = Throw FramebufferIncomplete) /\
        stack_ops evts = [Push (init_fbo d (Framebuffer.world s)); Pop] /\
        drawFramebufferStack (Framebuffer.world s')
        = drawFramebufferStack (Framebuffer.world s) /\
        length (drawFramebufferStack (Framebuffer.world s'))
        = length (drawFramebufferStack (Framebuffer.world s))
    | Some depthStencil =>
        r = Throw TypeError /\
        last evts
        = Some (E_framebufferTexture2D GL.DRAW_FRAMEBUFFER
                  (depth_attachment_point
                     (Framebuffer.depthOnly (Framebuffer.this s)))
                  GL.TEXTURE_2D (TextureObject depthStencil) 0) /\
        stack_ops evts = [Push (init_fbo d (Framebuffer.world s))] /\
        drawFramebufferStack (Framebuffer.world s')
        = init_fbo d (Framebuffer.world s)
          :: drawFramebufferStack (Framebuffer.world s) /\
        length (drawFramebufferStack (Framebuffer.world s'))
        = S (length (drawFramebufferStack (Framebuffer.world s)))
    end.
Proof.
  destruct s as [fb w]. rewrite init_run.
  cbn [Framebuffer.world Framebuffer.this].
  destruct (Framebuffer.depthStencil fb) as [depthStencil|] eqn:Hdepth.
  - eexists _, _, _. split; [reflexivity|]. split; [reflexivity|].
    split; [reflexivity|].
    split; [now apply last_init_prefix|].
    split; [apply stack_ops_init_prefix|]. split; reflexivity.
  - destruct (init_status d fb w =? GL.FRAMEBUFFER_COMPLETE)%Z.
    + eexists _, _, _. split; [reflexivity|]. split; [reflexivity|].
      split; [now left|]. split; [apply stack_ops_init_scope|].
      split; reflexivity.
    + eexists _, _, _. split; [reflexivity|]. split; [reflexivity|].
      split; [now right|].
      split; [now rewrite stack_ops_app, stack_ops_init_scope|].
      split; reflexivity.
Qed.

(** C8: [init] reaches the completeness check on a Framebuffer without depth
    or depth-stencil buffer.  When the driver then reports the framebuffer
    incomplete, the calls of [init] are those up to the pop followed by the
    deletion of the object it created; [init] throws FramebufferIncomplete
    and leaves the Framebuffer as it was: the handle and the Target it held
    before the call are still there. *)
Theorem init_incomplete_discards_object (fb : Framebuffer.t) (w : World) :
  Framebuffer.depthStencil fb = None ->
  init_status d fb w <> GL.FRAMEBUFFER_COMPLETE ->
  exists (s' : Framebuffer.State) (evts : list Event),
    Framebuffer.init d (Framebuffer.mkState fb w)
    = (Throw FramebufferIncomplete, s') /\
    log (Framebuffer.world s') = log w ++ evts /\
    evts = init_scope d fb w ++ [E_deleteFramebuffer (init_fbo d w)] /\
    In (E_checkFramebufferStatus GL.DRAW_FRAMEBUFFER (init_status d fb w))
       evts /\
    created evts = [init_fbo d w] /\
    last evts = Some (E_deleteFramebuffer (init_fbo d w)) /\
    Framebuffer.this s' = fb /\
    Framebuffer.glFramebuffer (Framebuffer.this s')
    = Framebuffer.glFramebuffer fb /\
    Framebuffer.framebufferTarget (Framebuffer.this s')
    = Framebuffer.framebufferTarget fb.
Proof.
  intros Hdepth Hstatus. rewrite init_run, Hdepth.
  destruct (Z.eqb_spec (init_status d fb w) GL.FRAMEBUFFER_COMPLETE)
    as [Heq|_]; [contradiction|].
  eexists _, _. split; [reflexivity|]. split; [reflexivity|].
  split; [reflexivity|].
  split.
  { unfold init_scope. rewrite !in_app_iff. left. right. now left. }
  split; [now rewrite created_app, created_init_scope|].
  split; [apply last_snoc|].
  repeat split.
Qed.

End InitTheorems.

(** A Framebuffer with one colour buffer that holds object 5 and its Target,
    initialised again on a driver that reports the new object incomplete:
    object 5 and its Target stay. *)
Lemma init_incomplete_discards_object_witness :
  Framebuffer.depthStencil initialised_color_framebuffer = None /\
  init_status incomplete_driver initialised_color_framebuffer fresh_world
  <> GL.FRAMEBUFFER_COMPLETE /\
  exists (s' : Framebuffer.State) (evts : list Event),
    Framebuffer.init incomplete_driver
      (Framebuffer.mkState initialised_color_framebuffer fresh_world)
    = (Throw FramebufferIncomplete, s') /\
    log (Framebuffer.world s') = log fresh_world ++ evts /\
    evts
    = [E_createFramebuffer (Some 7%nat);
       E_stackDrawFramebuffer_push (Some 7%nat);
       E_framebufferTexture2D GL.DRAW_FRAMEBUFFER (GL.COLOR_ATTACHMENT0 + (0 + 0))
         GL.TEXTURE_2D (GlHandle None) 0;
       E_checkFramebufferStatus GL.DRAW_FRAMEBUFFER 0;
       E_stackDrawFramebuffer_pop;
       E_deleteFramebuffer (Some 7%nat)] /\
    Framebuffer.glFramebuffer (Framebuffer.this s') = Some 5%nat /\
    Framebuffer.framebufferTarget (Framebuffer.this s')
    = Some (Target.mk [GL.COLOR_ATTACHMENT0 + 0] (Some 5%nat) 128 128).
Proof.
  assert (H : init_status incomplete_driver initialised_color_framebuffer
                fresh_world
              <> GL.FRAMEBUFFER_COMPLETE) by (vm_compute; discriminate).
  split; [reflexivity|]. split; [exact H|].
  destruct (init_incomplete_discards_object incomplete_driver
              initialised_color_framebuffer fresh_world eq_refl H)
    as (s' & evts & Hinit & Hlog & Hevts & _ & _ & _ & _ & Hfbo & Htarget).
  exists s', evts.
  split; [exact Hinit|]. split; [exact Hlog|].
  split; [exact Hevts|]. split; [exact Hfbo|exact Htarget].
Defined.

(** ** The constructor and the factories *)

Section Factories.
Variable d : Driver.

Lemma new_run (width height : Z) (colors : list Texture.t)
    (depthStencil : option Texture.t) (depthOnly : option bool) (w : World) :
  let fb := blank width height colors depthStencil (default true depthOnly) in
  Framebuffer.new d width height colors depthStencil depthOnly w
  = match depthStencil with
    | Some _ => (Throw TypeError, init_interrupted d fb w)
    | None =>
        if (init_status d fb w =? GL.FRAMEBUFFER_COMPLETE)%Z
        then (Ok (installed (init_fbo d w) fb), emits (init_scope d fb w) w)
        else (Throw FramebufferIncomplete,
              emits (init_scope d fb w
                     ++ [E_deleteFramebuffer (init_fbo d w)]) w)
    end.
Proof.
  intros fb. unfold Framebuffer.new. fold (blank width height colors depthStencil
                                             (default true depthOnly)).
  fold fb. rewrite init_run.
  change (Framebuffer.depthStencil fb) with depthStencil.
  destruct depthStencil; [reflexivity|].
  now destruct (init_status d fb w =? GL.FRAMEBUFFER_COMPLETE)%Z.
Qed.

(** The first call of the constructor creates the framebuffer object. *)
Lemma new_allocates_first (width height : Z) (colors : list Texture.t)
    (depthStencil : option Texture.t) (depthOnly : option bool) (w : World) :
  exists (r : Res Framebuffer.t) (w' : World) (rest : list Event),
    Framebuffer.new d width height colors depthStencil depthOnly w = (r, w') /\
    log w' = log w ++ E_createFramebuffer (init_fbo d w) :: rest.
Proof.
  rewrite new_run. cbv zeta.
  destruct depthStencil; [|destruct (_ =? _)%Z];
    eexists _, _, _; (split; [reflexivity|]); reflexivity.
Qed.

(** The size checks over a list of buffers. *)
Lemma size_checks_run (width height : Z) (l : list Texture.t) (i : Z)
    (w : World) :
  forEach_from
    (fun buffer (_ : Z) =>
       assert.equal width (Texture.width buffer) "width" ;;
       assert.equal height (Texture.height buffer) "height")
    l i w
  = match first_mismatch width height l with
    | Some e => (Throw e, w)
    | None => (Ok tt, w)
    end.
Proof.
  revert i. induction l as [|t l IH]; intros i; [reflexivity|].
  cbn [forEach_from first_mismatch]. unfold bind at 1 2. unfold assert.equal.
  destruct (width =? Texture.width t)%Z; cbn [negb]; [|reflexivity].
  unfold ret at 1.
  destruct (height =? Texture.height t)%Z; cbn [negb]; [|reflexivity].
  unfold ret at 1. apply IH.
Qed.

Lemma depth_checks_run {A} (width height : Z) (t : Texture.t)
    (k : M World A) (w : World) :
  (assert.equal width (Texture.width t) "width" ;;
   assert.equal height (Texture.height t) "height" ;;
   k) w
  = match first_mismatch width height [t] with
    | Some e => (Throw e, w)
    | None => k w
    end.
Proof.
  cbn [first_mismatch]. unfold bind, assert.equal.
  destruct (width =? Texture.width t)%Z; cbn [negb]; [|reflexivity].
  unfold ret at 1.
  destruct (height =? Texture.height t)%Z; cbn [negb]; reflexivity.
Qed.

Lemma first_mismatch_app (width height : Z) (l1 l2 : list Texture.t) :
  first_mismatch width height (l1 ++ l2)
  = match first_mismatch width height l1 with
    | Some e => Some e
    | None => first_mismatch width height l2
    end.
Proof.
  induction l1 as [|t l1 IH]; [reflexivity|].
  cbn [app first_mismatch].
  destruct (negb _); [reflexivity|]. destruct (negb _); [reflexivity|]. apply IH.
Qed.

Lemma first_mismatch_none (width height : Z) (l : list Texture.t) :
  first_mismatch width height l = None <-> forallb (fits width height) l = true.
Proof.
  induction l as [|t l IH]; [easy|].
  cbn [first_mismatch forallb]. unfold fits at 1.
  destruct (width =? Texture.width t)%Z; cbn [negb andb]; [|easy].
  destruct (height =? Texture.height t)%Z; cbn [negb andb]; [exact IH|easy].
Qed.

(** Every factory: the checks, then the constructor. *)
Lemma construct_run (width height : Z) (call : FactoryCall) (w : World) :
  construct d width height call w
  = match rejection width height call with
    | Some e => (Throw e, w)
    | None => constructed d width height call w
    end.
Proof.
  unfold rejection, attachments.
  destruct call as [color|depth|depthStencil|color depth|color depthStencil];
    cbn [construct constructed required_colors depth_of default option_list];
    unfold from_option, id.
  - unfold Framebuffer.withColor. cbv zeta. rewrite app_nil_r.
    destruct (Framebuffer.toArray color) as [|t l] eqn:E; [reflexivity|].
    unfold bind at 1. unfold assert.nonEmpty, ret at 1.
    unfold bind at 1. unfold forEach. rewrite size_checks_run.
    now destruct (first_mismatch width height (t :: l)).
  - unfold Framebuffer.withDepth. apply depth_checks_run.
  - unfold Framebuffer.withDepthStencil. apply depth_checks_run.
  - unfold Framebuffer.withColorDepth. cbv zeta.
    destruct (Framebuffer.toArray color) as [|t l] eqn:E; [reflexivity|].
    unfold bind at 1. unfold assert.nonEmpty, ret at 1.
    unfold bind at 1. unfold forEach. rewrite size_checks_run.
    rewrite first_mismatch_app.
    destruct (first_mismatch width height (t :: l)); [reflexivity|].
    apply depth_checks_run.
  - unfold Framebuffer.withColorDepthStencil. cbv zeta.
    destruct (Framebuffer.toArray color) as [|t l] eqn:E; [reflexivity|].
    unfold bind at 1. unfold assert.nonEmpty, ret at 1.
    unfold bind at 1. unfold forEach. rewrite size_checks_run.
    rewrite first_mismatch_app.
    destruct (first_mismatch width height (t :: l)); [reflexivity|].
    apply depth_checks_run.
Qed.

End Factories.

Section FactoryTheorems.
Variable d : Driver.

Lemma first_mismatch_some (width height : Z) (l : list Texture.t) (e : Exn) :
  first_mismatch width height l = Some e ->
  exists t : Texture.t,
    In t l /\
    ((e = DimensionMismatch "width" width (Texture.width t) /\
      width <> Texture.width t) \/
     (e = DimensionMismatch "height" height (Texture.height t) /\
      height <> Texture.height t)).
Proof.
  induction l as [|t l IH]; [discriminate|].
  cbn [first_mismatch].
  destruct (Z.eqb_spec width (Texture.width t)) as [Hw|Hw]; cbn [negb].
  - destruct (Z.eqb_spec height (Texture.height t)) as [Hh|Hh]; cbn [negb].
    + intros H. destruct (IH H) as (t' & Hin & Hkind).
      exists t'. split; [now right|exact Hkind].
    + intros [= <-]. exists t. split; [now left|]. now right.
  - intros [= <-]. exists t. split; [now left|]. now left.
Qed.

Lemma rejected_rejection (width height : Z) (call : FactoryCall) :
  rejected width height call = true ->
  exists e : Exn, rejection width height call = Some e.
Proof.
  unfold rejected, rejection.
  destruct (required_colors call) as [[|t l]|]; cbn [orb].
  - intros _. now eexists.
  - intros H. apply negb_true_iff in H.
    destruct (first_mismatch width height (attachments call)) as [e|] eqn:E.
    + now eexists.
    + apply first_mismatch_none in E. congruence.
  - intros H. apply negb_true_iff in H.
    destruct (first_mismatch width height (attachments call)) as [e|] eqn:E.
    + now eexists.
    + apply first_mismatch_none in E. congruence.
Qed.

Lemma accepted_rejection (width height : Z) (call : FactoryCall) :
  rejected width height call = false ->
  rejection width height call = None.
Proof.
  unfold rejected, rejection.
  destruct (required_colors call) as [[|t l]|]; cbn [orb]; try discriminate.
  - intros H. apply negb_false_iff in H. now apply first_mismatch_none.
  - intros H. apply negb_false_iff in H. now apply first_mismatch_none.
Qed.

(** C2: a factory call whose colour list is empty where colours are
    required, or one of whose attachments is not of the declared size,
    throws and leaves the world as it was: nothing was called on the
    context, no framebuffer object was created.  The error is
    EmptyAttachmentList for the empty colour list, and otherwise
    DimensionMismatch for an attachment whose width or height differs. *)
Theorem construct_rejects_before_allocation
    (width height : Z) (call : FactoryCall) (w : World) :
  rejected width height call = true ->
  exists e : Exn,
    construct d width height call w = (Throw e, w) /\
    is_construction_error e = true /\
    match required_colors call with
    | Some [] => e = EmptyAttachmentList "color"
    | _ =>
        exists t : Texture.t,
          In t (attachments call) /\
          ((e = DimensionMismatch "width" width (Texture.width t) /\
            width <> Texture.width t) \/
           (e = DimensionMismatch "height" height (Texture.height t) /\
            height <> Texture.height t))
    end.
Proof.
  intros Hrej. destruct (rejected_rejection _ _ _ Hrej) as [e He].
  exists e. rewrite construct_run, He. split; [reflexivity|].
  unfold rejection in He.
  destruct (required_colors call) as [[|t l]|].
  - injection He as <-. now split.
  - destruct (first_mismatch_some _ _ _ _ He) as (t' & Hin & Hkind).
    split; [|now exists t'].
    now destruct Hkind as [[-> _]|[-> _]].
  - destruct (first_mismatch_some _ _ _ _ He) as (t' & Hin & Hkind).
    split; [|now exists t'].
    now destruct Hkind as [[-> _]|[-> _]].
Qed.

(** A call that passes the checks runs the constructor, whose first call on
    the context creates the framebuffer object. *)
Lemma construct_accepted_allocates_in_constructor
    (width height : Z) (call : FactoryCall) (w : World) :
  rejected width height call = false ->
  construct d width height call w = constructed d width height call w /\
  exists (r : Res Framebuffer.t) (w' : World) (rest : list Event),
    construct d width height call w = (r, w') /\
    log w' = log w ++ E_createFramebuffer (init_fbo d w) :: rest.
Proof.
  intros Hacc. rewrite construct_run, (accepted_rejection _ _ _ Hacc).
  split; [reflexivity|].
  destruct call; cbn [constructed]; apply new_allocates_first.
Qed.

(** C6: [Framebuffer.withDepth] on a depth texture of the declared size.
    [init] attaches the depth buffer to DEPTH_ATTACHMENT of the new object,
    but the texture it passes is the Texture object, not the GL handle the
    object holds; the colour path passes [buffer.glTexture].  The context
    rejects the object: the call is the last one, the completeness check is
    never made, and the factory throws a TypeError. *)
Theorem withDepth_attaches_texture_object (depth : Texture.t) (w : World) :
  exists w' : World,
    Framebuffer.withDepth d (Texture.width depth) (Texture.height depth) depth w
    = (Throw TypeError, w') /\
    log w'
    = log w
      ++ [E_createFramebuffer (init_fbo d w);
          E_stackDrawFramebuffer_push (init_fbo d w);
          E_framebufferTexture2D GL.DRAW_FRAMEBUFFER GL.DEPTH_ATTACHMENT
            GL.TEXTURE_2D (TextureObject depth) 0] /\
    TextureObject depth <> GlHandle (glTextures w !! Texture.ref depth).
Proof.
  unfold Framebuffer.withDepth.
  rewrite depth_checks_run. cbn [first_mismatch].
  rewrite !Z.eqb_refl. cbn [negb].
  rewrite new_run. cbv zeta. cbn [default from_option id].
  eexists. split; [reflexivity|]. split; [reflexivity|discriminate].
Qed.

End FactoryTheorems.

(** A 128 x 128 colour texture for a 256 x 256 framebuffer. *)
Lemma construct_rejects_before_allocation_witness :
  rejected 256 256 (WithColor (Framebuffer.One color_texture)) = true /\
  exists e : Exn,
    construct complete_driver 256 256
      (WithColor (Framebuffer.One color_texture)) fresh_world
    = (Throw e, fresh_world) /\
    is_construction_error e = true /\
    exists t : Texture.t,
      In t (attachments (WithColor (Framebuffer.One color_texture))) /\
      ((e = DimensionMismatch "width" 256 (Texture.width t) /\
        256 <> Texture.width t) \/
       (e = DimensionMismatch "height" 256 (Texture.height t) /\
        256 <> Texture.height t)).
Proof.
  split; [reflexivity|].
  apply (construct_rejects_before_allocation complete_driver 256 256
           (WithColor (Framebuffer.One color_texture)) fresh_world).
  reflexivity.
Defined.

(** ** Framebuffer.restore *)

Section Restore.
Variable d : Driver.

Lemma restored_cons (ts : list Texture.t) (t : Texture.t) (w : World) :
  restored d (t :: ts) w = restored d ts (snd (Texture_restore d t w)).
Proof. reflexivity. Qed.

Lemma restored_app (ts1 ts2 : list Texture.t) (w : World) :
  restored d (ts1 ++ ts2) w = restored d ts2 (restored d ts1 w).
Proof. unfold restored. apply fold_left_app. Qed.

Lemma restored_log (ts : list Texture.t) (w : World) :
  log (restored d ts w) = log w ++ map E_Texture_restore ts.
Proof.
  revert w. induction ts as [|t ts IH]; intros w.
  - cbn. now rewrite app_nil_r.
  - rewrite restored_cons, IH. cbn. now rewrite <- app_assoc.
Qed.

Lemma restored_stack (ts : list Texture.t) (w : World) :
  drawFramebufferStack (restored d ts w) = drawFramebufferStack w.
Proof.
  revert w. induction ts as [|t ts IH]; intros w; [reflexivity|].
  rewrite restored_cons, IH. reflexivity.
Qed.

Lemma restore_colors_run (ts : list Texture.t) (i : Z) (w : World) :
  forEach_from (fun buffer (_ : Z) => Texture_restore d buffer) ts i w
  = (Ok tt, restored d ts w).
Proof.
  revert i w. induction ts as [|t ts IH]; intros i w; [reflexivity|].
  cbn [forEach_from]. unfold bind at 1.
  unfold Texture_restore at 1. rewrite IH. reflexivity.
Qed.

Lemma restore_run (fb : Framebuffer.t) (w : World) :
  Framebuffer.restore d (Framebuffer.mkState fb w)
  = if reported_valid d fb w
    then (Ok tt, Framebuffer.mkState fb (restore_checked d fb w))
    else Framebuffer.init d (Framebuffer.mkState fb (restore_checked d fb w)).
Proof.
  unfold Framebuffer.restore.
  unfold bind at 1, Framebuffer.getThis at 1. cbv beta iota.
  unfold bind at 1. unfold Framebuffer.on_dev at 1. unfold forEach.
  rewrite restore_colors_run. cbv beta iota zeta.
  cbn [Framebuffer.this Framebuffer.world].
  unfold bind at 1.
  assert (Hdepth :
    (match Framebuffer.depthStencil fb with
     | Some depthStencil => Framebuffer.on_dev (Texture_restore d depthStencil)
     | None => ret tt
     end)
      (Framebuffer.mkState fb (restored d (Framebuffer.colors fb) w))
    = (Ok tt, Framebuffer.mkState fb (restored d (restorable fb) w))).
  { unfold restorable. rewrite restored_app.
    destruct (Framebuffer.depthStencil fb) as [depthStencil|]; reflexivity. }
  rewrite Hdepth. clear Hdepth.
  unfold bind at 1. unfold Framebuffer.on_dev at 1.
  unfold gl.isFramebuffer, gl.query. cbv beta iota zeta.
  cbn [Framebuffer.this Framebuffer.world].
  fold (reported_valid d fb w). fold (restore_checked d fb w).
  now destruct (reported_valid d fb w).
Qed.

Lemma restore_checked_log (fb : Framebuffer.t) (w : World) :
  log (restore_checked d fb w)
  = log w ++ map E_Texture_restore (restorable fb)
    ++ [E_isFramebuffer (Framebuffer.glFramebuffer fb) (reported_valid d fb w)].
Proof.
  unfold restore_checked. cbn. now rewrite restored_log, <- app_assoc.
Qed.


End Restore.

(** ** Framebuffer.target *)

Section TargetTheorems.
Variable d : Driver.

Lemma with_run (rt : Target.t) (cb : Target.t -> M World unit) (w : World) :
  Target.with_ rt cb w
  = let (r, w') := cb rt (entered rt w) in (r, exited w').
Proof.
  unfold Target.with_. unfold bind at 1.
  unfold stackDrawFramebuffer.push at 1, modify at 1.
  unfold bind at 1. unfold stackViewport.push at 1, modify at 1.
  unfold finally.
  replace (set_viewportStack _ (emit _ (set_drawFramebufferStack _ (emit _ w))))
    with (entered rt w) by (unfold entered; same_world).
  destruct (cb rt (entered rt w)) as [r w'].
  unfold bind, stackViewport.pop, stackDrawFramebuffer.pop, modify.
  f_equal. unfold exited. same_world.
Qed.

Lemma target_run (fb : Framebuffer.t) (cb : Target.t -> M World unit)
    (w : World) :
  Framebuffer.target cb (Framebuffer.mkState fb w)
  = match Framebuffer.framebufferTarget fb with
    | Some rt =>
        let (r, w') := cb rt (entered rt w) in
        (r, Framebuffer.mkState fb (exited w'))
    | None => (Ok tt, Framebuffer.mkState fb w)
    end.
Proof.
  unfold Framebuffer.target. unfold bind, Framebuffer.getThis.
  cbn [Framebuffer.this].
  destruct (Framebuffer.framebufferTarget fb) as [rt|]; [|reflexivity].
  unfold Framebuffer.on_dev. cbn [Framebuffer.this Framebuffer.world].
  rewrite with_run. now destruct (cb rt (entered rt w)).
Qed.

(** C10: [target(cb)] on a Framebuffer that owns a Target runs the callback
    once, on that Target, between the bind and the unbind of [Target.with];
    on a Framebuffer without a Target it returns at once, the callback not
    run and nothing thrown.  A constructor call in which [createFramebuffer]
    returns null while the driver reports completeness succeeds and leaves
    the Framebuffer without object and without Target; with a depth or
    depth-stencil buffer the constructor throws and there is no Framebuffer
    to call [target] on. *)
Theorem target_runs_callback_only_with_target
    (width height : Z) (colors : list Texture.t)
    (depthStencil : option Texture.t) (depthOnly : option bool) (w : World)
    (fb0 : Framebuffer.t) (cb : Target.t -> M World unit) (w0 : World) :
  init_fbo d w = None ->
  init_status d
    (blank width height colors depthStencil (default true depthOnly)) w
  = GL.FRAMEBUFFER_COMPLETE ->
  Framebuffer.target cb (Framebuffer.mkState fb0 w0)
  = match Framebuffer.framebufferTarget fb0 with
    | Some rt =>
        let (r, w') := cb rt (entered rt w0) in
        (r, Framebuffer.mkState fb0 (exited w'))
    | None => (Ok tt, Framebuffer.mkState fb0 w0)
    end /\
  match depthStencil with
  | None =>
      exists (fb : Framebuffer.t) (w' : World),
        Framebuffer.new d width height colors depthStencil depthOnly w
        = (Ok fb, w') /\
        Framebuffer.glFramebuffer fb = None /\
        Framebuffer.framebufferTarget fb = None /\
        Framebuffer.target cb (Framebuffer.mkState fb w0)
        = (Ok tt, Framebuffer.mkState fb w0)
  | Some _ =>
      exists w' : World,
        Framebuffer.new d width height colors depthStencil depthOnly w
        = (Throw TypeError, w')
  end.
Proof.
  intros Hnull Hcomplete. split; [apply target_run|].
  rewrite new_run. cbv zeta.
  destruct depthStencil as [depthStencil|]; [now eexists|].
  rewrite Hcomplete, Z.eqb_refl, Hnull.
  eexists _, _. split; [reflexivity|].
  split; [reflexivity|]. split; [reflexivity|].
  now rewrite target_run.
Qed.

End TargetTheorems.

(** A constructor call on a driver that returns no object, and a callback
    that would draw three vertices. *)
Lemma target_runs_callback_only_with_target_witness :
  init_fbo null_driver fresh_world = None /\
  init_status null_driver (blank 128 128 [color_texture] None true) fresh_world
  = GL.FRAMEBUFFER_COMPLETE /\
  Framebuffer.target draw_callback
    (Framebuffer.mkState two_buffer_framebuffer fresh_world)
  = (Ok tt, Framebuffer.mkState two_buffer_framebuffer fresh_world) /\
  exists (fb : Framebuffer.t) (w' : World),
    Framebuffer.new null_driver 128 128 [color_texture] None None fresh_world
    = (Ok fb, w') /\
    Framebuffer.glFramebuffer fb = None /\
    Framebuffer.framebufferTarget fb = None /\
    Framebuffer.target draw_callback (Framebuffer.mkState fb fresh_world)
    = (Ok tt, Framebuffer.mkState fb fresh_world).
Proof.
  split; [reflexivity|]. split; [reflexivity|].
  exact (target_runs_callback_only_with_target null_driver 128 128
           [color_texture] None None fresh_world two_buffer_framebuffer
           draw_callback fresh_world eq_refl eq_refl).
Defined.

(** ** Worked examples *)

(** Scenario: [u_color] is declared and found. *)
Example create_finds_u_color :
  exists w' : World,
    Command.create one_uniform_driver (color_props ["u_color"]) fresh_world
    = (Ok (Command.mk 2%nat GL.TRIANGLES
             [Command.mkUniformInfo "u_color" 10%nat
                (Command.Uniform3fv (Command.Value [1; 0; 0]))]
             (Some (Command.mkClearInfo None None None))),
       w') /\
    uniform_lookups (log w') = [("u_color", Some 10%nat)].
Proof. eexists. split; reflexivity. Qed.

(** Scenario: [u_light] is declared after [u_color] and has no location. *)
Example create_misses_u_light :
  exists w' : World,
    Command.create one_uniform_driver (color_props ["u_color"; "u_light"])
      fresh_world
    = (Throw (MissingUniformLocation "u_light"), w') /\
    uniform_lookups (log w') = [("u_color", Some 10%nat); ("u_light", None)].
Proof. eexists. split; reflexivity. Qed.

(** Two textures among four bindings take the units 0 and 1, on a first call
    and again on a second call with the textures exchanged. *)
Example updateUniforms_two_textures :
  exists w1 w2 : World,
    Command.updateUniforms textured_command (color_texture, depth_texture)
      textured_world = (Ok tt, w1) /\
    texture_binds (log w1)
    = [(GL.TEXTURE0 + 0, Some 41%nat, 11%nat, 0);
       (GL.TEXTURE0 + 1, Some 42%nat, 13%nat, 1)] /\
    Command.updateUniforms textured_command (depth_texture, color_texture) w1
    = (Ok tt, w2) /\
    texture_binds (drop (length (log w1)) (log w2))
    = [(GL.TEXTURE0 + 0, Some 42%nat, 11%nat, 0);
       (GL.TEXTURE0 + 1, Some 41%nat, 13%nat, 1)].
Proof. eexists _, _. repeat split; reflexivity. Qed.

(** Six indices: one indexed draw with 32-bit indices. *)
Example draw_six_indices :
  Command.draw triangle_command true 6 0 fresh_world
  = (Ok tt,
     emit (E_drawElements GL.TRIANGLES 6 GL.UNSIGNED_INT 0) fresh_world).
Proof. reflexivity. Qed.

(** [locate] on an integer key, a name, and a name that ends in a digit. *)
Example locate_three_keys :
  exists (located : gmap string nat) (w' : World),
    Command.locate complete_driver triangle_command
      [("1", 5%nat); ("a_position", 6%nat); ("a_uv1", 7%nat)] tt fresh_world
    = (Ok (located, tt), w') /\
    located !! "1" = Some 5%nat /\
    located !! "0" = Some 6%nat /\
    located !! "a_uv1" = Some 7%nat /\
    log w' = [E_getAttribLocation 2%nat "a_position" 0].
Proof. eexists _, _. repeat split; reflexivity. Qed.

(** A Framebuffer with a Target: the callback runs once, inside the pushes
    and pops of [Target.with]. *)
Example target_runs_callback_once :
  exists (fb : Framebuffer.t) (w1 : World) (s2 : Framebuffer.State),
    Framebuffer.withColor complete_driver 128 128
      (Framebuffer.One color_texture) fresh_world = (Ok fb, w1) /\
    Framebuffer.target draw_callback (Framebuffer.mkState fb w1) = (Ok tt, s2) /\
    drop (length (log w1)) (log (Framebuffer.world s2))
    = [E_stackDrawFramebuffer_push (Some 7%nat);
       E_stackViewport_push (0, 0, 128, 128);
       E_drawArrays GL.TRIANGLES 0 3;
       E_stackViewport_pop;
       E_stackDrawFramebuffer_pop] /\
    drawFramebufferStack (Framebuffer.world s2) = drawFramebufferStack fresh_world.
Proof. eexists _, _, _. repeat split; reflexivity. Qed.

(** [Framebuffer.withDepth] on a depth texture of the declared size: the
    context rejects the attachment, and the object the constructor created
    stays on top of the draw-framebuffer stack, neither popped nor
    deleted. *)
Example withDepth_leaves_object_bound :
  exists w' : World,
    Framebuffer.withDepth complete_driver 128 128 depth_texture fresh_world
    = (Throw TypeError, w') /\
    log w'
    = [E_createFramebuffer (Some 7%nat);
       E_stackDrawFramebuffer_push (Some 7%nat);
       E_framebufferTexture2D GL.DRAW_FRAMEBUFFER GL.DEPTH_ATTACHMENT
         GL.TEXTURE_2D (TextureObject depth_texture) 0] /\
    drawFramebufferStack fresh_world = [None] /\
    drawFramebufferStack w' = [Some 7%nat; None].
Proof. eexists. repeat split; reflexivity. Qed.

(** * Further properties *)

(** ** The integer pattern, in full *)

Section IntPatternExact.

Lemma digits_to_end_spec (s : list ascii) :
  digits_to_end s = true <->
  exists c ds, s = c :: ds /\ is_nonzero_digit c = true /\
               forallb Regex.digit ds = true.
Proof.
  destruct s as [|c ds]; cbn [digits_to_end].
  - split; [discriminate|]. now intros (c & ds & [=] & _).
  - rewrite andb_true_iff. split.
    + intros [Hc Hds]. now exists c, ds.
    + intros (c' & ds' & [= -> ->] & Hc & Hds). now split.
Qed.

Lemma has_digit_suffix_spec (s : list ascii) :
  has_digit_suffix s = true <->
  exists pre c ds, s = pre ++ c :: ds /\ is_nonzero_digit c = true /\
                   forallb Regex.digit ds = true.
Proof.
  induction s as [|a s IH].
  - cbn. split; [discriminate|].
    intros (pre & c & ds & H & _). now destruct pre.
  - cbn [has_digit_suffix]. rewrite orb_true_iff, digits_to_end_spec, IH.
    split.
    + intros [(c & ds & -> & Hc & Hds)|(pre & c & ds & -> & Hc & Hds)].
      * now exists [], c, ds.
      * now exists (a :: pre), c, ds.
    + intros (pre & c & ds & H & Hc & Hds). destruct pre as [|a' pre].
      * left. now exists c, ds.
      * right. injection H as -> ->. now exists pre, c, ds.
Qed.

(** X1: [INT_PATTERN.test] accepts exactly the strings that start with the
    character 0, and the strings that end with a non-zero digit followed by
    digits only; whatever precedes that run of digits does not matter. *)
Theorem INT_PATTERN_accepts_exactly (str : string) :
  Regex.test Command.INT_PATTERN str = true <->
  (exists rest, list_ascii_of_string str = "0"%char :: rest) \/
  (exists pre c ds,
      list_ascii_of_string str = pre ++ c :: ds /\
      is_nonzero_digit c = true /\ forallb Regex.digit ds = true).
Proof.
  rewrite INT_PATTERN_test, orb_true_iff, has_digit_suffix_spec.
  apply or_iff_compat_r.
  destruct (list_ascii_of_string str) as [|a s]; cbn [starts_with_zero].
  - split; [discriminate|]. now intros [rest [=]].
  - rewrite Ascii.eqb_eq. split.
    + intros <-. now exists s.
    + now intros [rest [= -> _]].
Qed.

End IntPatternExact.

(** ** Command.locate on whole attribute maps *)

Section LocateAll.
Variable d : Driver.
Context {P Def Elems : Type}.

Lemma attrib_lookups_app (evts1 evts2 : list Event) :
  attrib_lookups (evts1 ++ evts2)
  = attrib_lookups evts1 ++ attrib_lookups evts2.
Proof. apply omap_app. Qed.

Lemma locate_unfold (c : Command.t P) (attributes : list (string * Def))
    (elements : Elems) (w : World) :
  Command.locate d c attributes elements w
  = match reduceM (locate_entry d (Command.glProgram c)) attributes ∅ w with
    | (Ok located, w') => (Ok (located, elements), w')
    | (Throw e, w') => (Throw e, w')
    end.
Proof.
  reflexivity.
Qed.

Lemma filter_names_cons_accepted (key : string) (def : Def)
    (attributes : list (string * Def)) :
  Regex.test Command.INT_PATTERN key = true ->
  names_to_resolve ((key, def) :: attributes) = names_to_resolve attributes.
Proof.
  intros H. unfold names_to_resolve. cbn [map].
  rewrite filter_cons_False; [reflexivity|]. cbn [fst]. now rewrite H.
Qed.

Lemma filter_names_cons_rejected (key : string) (def : Def)
    (attributes : list (string * Def)) :
  Regex.test Command.INT_PATTERN key = false ->
  names_to_resolve ((key, def) :: attributes)
  = key :: names_to_resolve attributes.
Proof.
  intros H. unfold names_to_resolve. cbn [map].
  now rewrite filter_cons_True.
Qed.

(** The loop of [locate], entered with any accumulator. *)
Lemma locate_loop (program : WebGLProgram)
    (attributes : list (string * Def)) (accum : gmap string Def) (w : World) :
  match reduceM (locate_entry d program) attributes accum w with
  | (Ok located, w') =>
      exists evts : list Event,
        w' = emits evts w /\
        map fst (attrib_lookups evts) = names_to_resolve attributes /\
        Forall (fun lookup => snd lookup <> -1) (attrib_lookups evts)
  | (Throw e, w') =>
      exists (evts : list Event) (done rest : list (string * Def))
             (name : string) (def : Def),
        w' = emits evts w /\
        attributes = done ++ (name, def) :: rest /\
        Regex.test Command.INT_PATTERN name = false /\
        e = MissingAttributeLocation name /\
        map fst (attrib_lookups evts) = names_to_resolve done ++ [name] /\
        last (attrib_lookups evts) = Some (name, -1)
  end.
Proof.
  revert accum w.
  induction attributes as [|[key def] attributes IH]; intros accum w.
  - cbn. exists []. rewrite emits_nil. now repeat split.
  - cbn [reduceM]. unfold bind at 1. unfold locate_entry at 1.
    destruct (Regex.test Command.INT_PATTERN key) eqn:Hkey.
    + unfold ret at 1.
      specialize (IH (<[key := def]> accum) w).
      destruct (reduceM _ attributes _ w) as [[located|e] w'].
      * destruct IH as (evts & -> & Hnames & Hfound).
        exists evts. rewrite filter_names_cons_accepted by exact Hkey.
        now repeat split.
      * destruct IH as (evts & done & rest & name & def' & -> & -> & Hname
                        & -> & Hnames & Hlast).
        exists evts, ((key, def) :: done), rest, name, def'.
        rewrite filter_names_cons_accepted by exact Hkey.
        now repeat split.
    + unfold bind at 1. unfold gl.getAttribLocation at 1, gl.query at 1.
      cbv beta zeta.
      set (location := drv_getAttribLocation d (log w) program key).
      unfold Command.UNKNOWN_ATTRIB_LOCATION.
      destruct (Z.eqb_spec location (-1)) as [Hloc|Hloc].
      * unfold throw. rewrite Hloc.
        exists [E_getAttribLocation program key (-1)], [], attributes, key, def.
        now repeat split.
      * unfold ret at 1.
        specialize (IH (<[pretty location := def]> accum)
                       (emit (E_getAttribLocation program key location) w)).
        destruct (reduceM _ attributes _ _) as [[located|e] w'].
        -- destruct IH as (evts & -> & Hnames & Hfound).
           exists (E_getAttribLocation program key location :: evts).
           rewrite emits_after_emit, filter_names_cons_rejected by exact Hkey.
           split; [reflexivity|]. split.
           ++ change (attrib_lookups (?e :: ?l))
                with (attrib_lookups [e] ++ attrib_lookups l).
              cbn. now rewrite Hnames.
           ++ change (attrib_lookups (?e :: ?l))
                with (attrib_lookups [e] ++ attrib_lookups l).
              cbn. now constructor.
        -- destruct IH as (evts & done & rest & name & def' & -> & -> & Hname
                           & -> & Hnames & Hlast).
           exists (E_getAttribLocation program key location :: evts),
             ((key, def) :: done), rest, name, def'.
           rewrite emits_after_emit, filter_names_cons_rejected by exact Hkey.
           split; [reflexivity|]. split; [reflexivity|].
           split; [exact Hname|]. split; [reflexivity|].
           change (attrib_lookups (?e :: ?l))
             with (attrib_lookups [e] ++ attrib_lookups l).
           cbn [attrib_lookups omap list_omap app map fst].
           split.
           ++ cbn. now rewrite Hnames.
           ++ cbn. destruct (attrib_lookups evts); [discriminate|exact Hlast].
Qed.

(** The world the loop of [locate] leaves: the lookups the driver answered,
    whatever the accumulator and however the loop ends. *)
Lemma locate_loop_world (program : WebGLProgram)
    (attributes : list (string * Def)) (accum : gmap string Def) (w : World) :
  snd (reduceM (locate_entry d program) attributes accum w)
  = emits (attrib_lookup_events d program (log w) (names_to_resolve attributes))
      w.
Proof.
  revert accum w.
  induction attributes as [|[key def] attributes IH]; intros accum w.
  - cbn. now rewrite emits_nil.
  - cbn [reduceM]. unfold bind at 1. unfold locate_entry at 1.
    destruct (Regex.test Command.INT_PATTERN key) eqn:Hkey.
    + unfold ret at 1. rewrite filter_names_cons_accepted by exact Hkey.
      apply IH.
    + rewrite filter_names_cons_rejected by exact Hkey.
      unfold bind at 1. unfold gl.getAttribLocation at 1, gl.query at 1.
      cbv beta zeta. cbn [attrib_lookup_events].
      unfold Command.UNKNOWN_ATTRIB_LOCATION.
      destruct (drv_getAttribLocation d (log w) program key =? -1)%Z.
      * reflexivity.
      * unfold ret at 1. rewrite IH. now rewrite emits_after_emit.
Qed.

Lemma emits_inj (evts1 evts2 : list Event) (w : World) :
  emits evts1 w = emits evts2 w -> evts1 = evts2.
Proof.
  intros H. apply (f_equal log) in H. rewrite !log_emits in H.
  now apply app_inv_head in H.
Qed.

End LocateAll.

Section LocateTheorems.
Variable d : Driver.
Context {P Def Elems : Type}.

Lemma reduceM_app {S A B} (f : B -> A -> M S B) (l1 l2 : list A) (acc : B)
    (s : S) :
  reduceM f (l1 ++ l2) acc s
  = match reduceM f l1 acc s with
    | (Ok acc', s') => reduceM f l2 acc' s'
    | (Throw e, s') => (Throw e, s')
    end.
Proof.
  revert acc s. induction l1 as [|x l1 IH]; intros acc s; [reflexivity|].
  cbn [app reduceM]. unfold bind.
  destruct (f acc x s) as [[acc'|e] s']; [apply IH|reflexivity].
Qed.

(** X2: the calls of [locate] are lookups in the program of the Command,
    each answered by the driver: one for each key that [INT_PATTERN] does
    not accept, in the order of the entries, up to the first one the driver
    does not know.  When [locate] returns, every one of them had a location,
    and [elements] is handed back as it came.  When it throws, the error is
    MissingAttributeLocation for the first such key without a location: its
    lookup is the last call, and no later entry was looked at. *)
Theorem locate_looks_up_unaccepted_keys
    (c : Command.t P) (attributes : list (string * Def)) (elements : Elems)
    (w : World) :
  match Command.locate d c attributes elements w with
  | (Ok (located, elements'), w') =>
      elements' = elements /\
      exists evts : list Event,
        evts = attrib_lookup_events d (Command.glProgram c) (log w)
                 (names_to_resolve attributes) /\
        w' = emits evts w /\
        map fst (attrib_lookups evts) = names_to_resolve attributes /\
        Forall (fun lookup => snd lookup <> -1) (attrib_lookups evts)
  | (Throw e, w') =>
      exists (evts : list Event) (done rest : list (string * Def))
             (name : string) (def : Def),
        evts = attrib_lookup_events d (Command.glProgram c) (log w)
                 (names_to_resolve attributes) /\
        w' = emits evts w /\
        attributes = done ++ (name, def) :: rest /\
        Regex.test Command.INT_PATTERN name = false /\
        e = MissingAttributeLocation name /\
        map fst (attrib_lookups evts) = names_to_resolve done ++ [name] /\
        last (attrib_lookups evts) = Some (name, -1)
  end.
Proof.
  rewrite locate_unfold.
  pose proof (locate_loop d (Command.glProgram c) attributes ∅ w) as H.
  pose proof (locate_loop_world d (Command.glProgram c) attributes ∅ w) as Hw.
  destruct (reduceM _ attributes ∅ w) as [[located|e] w'].
  - split; [reflexivity|].
    destruct H as (evts & -> & Hnames & Hfound). cbn [snd] in Hw.
    apply emits_inj in Hw. exists evts. now repeat split.
  - destruct H as (evts & done & rest & name & def & -> & Hattrs & Hname & He
                   & Hnames & Hlast).
    cbn [snd] in Hw. apply emits_inj in Hw.
    exists evts, done, rest, name, def. now repeat split.
Qed.

(** X3: one more entry at the end of an attribute map that was located is
    located on top of the result: it is stored under its own key when
    [INT_PATTERN] accepts the key, and under the location the program
    reports otherwise, replacing whatever entry was stored there; without a
    location, [locate] throws after that one lookup. *)
Theorem locate_appends_entry
    (c : Command.t P) (attributes : list (string * Def)) (key : string)
    (def : Def) (elements : Elems) (w w' : World)
    (located : gmap string Def) :
  Command.locate d c attributes elements w = (Ok (located, elements), w') ->
  let location := drv_getAttribLocation d (log w') (Command.glProgram c) key in
  let w'' := emit (E_getAttribLocation (Command.glProgram c) key location) w' in
  Command.locate d c (attributes ++ [(key, def)]) elements w
  = if Regex.test Command.INT_PATTERN key then
      (Ok (<[key := def]> located, elements), w')
    else if (location =? -1)%Z then
      (Throw (MissingAttributeLocation key), w'')
    else (Ok (<[pretty location := def]> located, elements), w'').
Proof.
  rewrite !locate_unfold, reduceM_app.
  destruct (reduceM _ attributes ∅ w) as [[located0|e] w0]; [|discriminate].
  intros [= -> ->]. cbv zeta.
  cbn [reduceM]. unfold bind at 1. unfold locate_entry.
  destruct (Regex.test Command.INT_PATTERN key); [reflexivity|].
  unfold bind at 1. unfold gl.getAttribLocation, gl.query. cbv beta zeta.
  unfold Command.UNKNOWN_ATTRIB_LOCATION.
  now destruct (_ =? -1)%Z.
Qed.

Lemma locate_loop_accepted (program : WebGLProgram)
    (attributes : list (string * Def)) (accum : gmap string Def) (w : World) :
  Forall (fun entry => Regex.test Command.INT_PATTERN (fst entry) = true)
         attributes ->
  reduceM (locate_entry d program) attributes accum w
  = (Ok (fold_left (fun m entry => <[fst entry := snd entry]> m)
                   attributes accum), w).
Proof.
  revert accum. induction attributes as [|[key def] attributes IH];
    intros accum Hall; [reflexivity|].
  apply Forall_cons in Hall as [Hkey Hall]. cbn [fst] in Hkey.
  cbn [reduceM fold_left]. unfold bind at 1. unfold locate_entry at 1.
  rewrite Hkey. unfold ret at 1. now apply IH.
Qed.

Lemma fold_left_insert_reverse (attributes : list (string * Def))
    (accum : gmap string Def) :
  fold_left (fun m entry => <[fst entry := snd entry]> m) attributes accum
  = foldr (fun entry m => <[fst entry := snd entry]> m) accum
          (reverse attributes).
Proof.
  revert accum. induction attributes as [|entry attributes IH]; intros accum.
  - reflexivity.
  - cbn [fold_left]. rewrite IH, reverse_cons, foldr_app. reflexivity.
Qed.

(** X4: an attribute map all of whose keys [INT_PATTERN] accepts is copied
    without any call on the context: every entry under its own key, the
    later of two entries with one key winning. *)
Theorem locate_copies_accepted_keys
    (c : Command.t P) (attributes : list (string * Def)) (elements : Elems)
    (w : World) :
  Forall (fun entry => Regex.test Command.INT_PATTERN (fst entry) = true)
         attributes ->
  Command.locate d c attributes elements w
  = (Ok (list_to_map (reverse attributes), elements), w) /\
  (NoDup (map fst attributes) ->
   Command.locate d c attributes elements w
   = (Ok (list_to_map attributes, elements), w)).
Proof.
  intros Hall. rewrite locate_unfold, locate_loop_accepted by exact Hall.
  rewrite fold_left_insert_reverse. split; [reflexivity|].
  intros Hnodup. do 3 f_equal.
  change (list_to_map (reverse attributes)
          = (list_to_map attributes : gmap string Def)).
  symmetry.
  apply list_to_map_proper; [exact Hnodup|].
  symmetry. apply reverse_Permutation.
Qed.

End LocateTheorems.

(** The integer key 1, then a name the program reports at location 1: the
    second entry replaces the first. *)
Lemma locate_appends_entry_witness :
  Command.locate location_one_driver triangle_command [("1", 5%nat)] tt
    fresh_world
  = (Ok (<["1" := 5%nat]> ∅, tt), fresh_world) /\
  Command.locate location_one_driver triangle_command
    ([("1", 5%nat)] ++ [("a_position", 6%nat)]) tt fresh_world
  = (Ok (<["1" := 6%nat]> (<["1" := 5%nat]> ∅), tt),
     emit (E_getAttribLocation 2%nat "a_position" 1) fresh_world).
Proof.
  split; [reflexivity|].
  exact (locate_appends_entry location_one_driver triangle_command
           [("1", 5%nat)] "a_position" 6%nat tt fresh_world fresh_world
           (<["1" := 5%nat]> ∅) eq_refl).
Defined.

(** Two integer keys. *)
Lemma locate_copies_accepted_keys_witness :
  Forall (fun entry : string * nat =>
            Regex.test Command.INT_PATTERN (fst entry) = true)
         [("0", 5%nat); ("1", 6%nat)] /\
  Command.locate complete_driver triangle_command
    [("0", 5%nat); ("1", 6%nat)] tt fresh_world
  = (Ok (list_to_map (reverse [("0", 5%nat); ("1", 6%nat)]), tt), fresh_world).
Proof.
  assert (H : Forall (fun entry : string * nat =>
                        Regex.test Command.INT_PATTERN (fst entry) = true)
                     [("0", 5%nat); ("1", 6%nat)])
    by (repeat constructor).
  split; [exact H|].
  exact (proj1 (locate_copies_accepted_keys complete_driver triangle_command
                  [("0", 5%nat); ("1", 6%nat)] tt fresh_world H)).
Defined.

(** ** Command.updateUniforms: every binding, once *)

Section UpdateUniformsAll.
Context {P : Type}.

Lemma set_locations_app (evts1 evts2 : list Event) :
  set_locations (evts1 ++ evts2) = set_locations evts1 ++ set_locations evts2.
Proof. apply omap_app. Qed.

Lemma updateUniform_sets_location (props : P) (info : Command.UniformInfo P)
    (offset : Z) (w : World) :
  exists (evts : list Event) (offset' : Z),
    Command.updateUniform props info offset w = (Ok offset', emits evts w) /\
    set_locations evts = [Command.location info] /\
    length evts
    = (1 + 2 * length (texture_uniforms props [info]))%nat.
Proof.
  destruct info as [identifier loc definition].
  unfold Command.updateUniform.
  destruct definition;
    try (eexists [_], _; split; [reflexivity|split; reflexivity]).
  eexists [_; _; _], _. split.
  - cbn. rewrite (emit_is_emits _ w), !emit_emits. reflexivity.
  - split; reflexivity.
Qed.

Lemma updateUniforms_loop_sets_locations (props : P)
    (infos : list (Command.UniformInfo P)) (offset : Z) (w : World) :
  exists (evts : list Event) (offset' : Z),
    reduceM (fun offset info => Command.updateUniform props info offset)
            infos offset w
    = (Ok offset', emits evts w) /\
    set_locations evts = map Command.location infos /\
    length evts
    = (length infos + 2 * length (texture_uniforms props infos))%nat.
Proof.
  revert offset w.
  induction infos as [|info infos IH]; intros offset w.
  - exists [], offset. cbn. rewrite emits_nil. now repeat split.
  - destruct (updateUniform_sets_location props info offset w)
      as (evts1 & offset1 & Hrun & Hloc & Hlen).
    destruct (IH offset1 (emits evts1 w)) as (evts2 & offset2 & Hloop & Hlocs & Hlens).
    exists (evts1 ++ evts2), offset2.
    cbn [reduceM]. unfold bind at 1. rewrite Hrun, Hloop, emits_emits.
    split; [reflexivity|].
    rewrite (texture_uniforms_cons props info infos), !length_app.
    rewrite set_locations_app, Hloc, Hlocs, Hlen, Hlens.
    split; [reflexivity|]. cbn [length]. lia.
Qed.

(** X5: a call of [updateUniforms] never throws, touches nothing but the
    trace, and sets the location of every binding exactly once, in
    declaration order; it makes one call per binding and two more for each
    texture-typed one. *)
Theorem updateUniforms_sets_every_location_once
    (c : Command.t P) (props : P) (w : World) :
  exists evts : list Event,
    Command.updateUniforms c props w = (Ok tt, emits evts w) /\
    set_locations evts = map Command.location (Command.uniformInfo c) /\
    length evts
    = (length (Command.uniformInfo c)
       + 2 * length (texture_uniforms props (Command.uniformInfo c)))%nat /\
    drawFramebufferStack (emits evts w) = drawFramebufferStack w /\
    glTextures (emits evts w) = glTextures w.
Proof.
  destruct (updateUniforms_loop_sets_locations props (Command.uniformInfo c) 0 w)
    as (evts & offset' & Hloop & Hlocs & Hlen).
  exists evts. unfold Command.updateUniforms. cbv zeta. unfold bind.
  rewrite Hloop. now repeat split.
Qed.

(** X6: a binding whose value is read component by component (the types
    2f to 4ui) passes the first n elements of its value, n its arity:
    elements beyond the n-th are ignored, and a value with fewer than n
    elements is passed on with the missing components undefined. *)
Theorem updateUniform_reads_first_components
    (props : P) (identifier : string) (loc : WebGLUniformLocation)
    (u : Command.Uniform P) (n : nat) (offset : Z) (w : World) :
  destructured u = Some n ->
  Command.updateUniform props
    (Command.mkUniformInfo identifier loc (map_destructured (take n) u))
    offset w
  = Command.updateUniform props (Command.mkUniformInfo identifier loc u)
      offset w /\
  exists e : Event,
    Command.updateUniform props (Command.mkUniformInfo identifier loc u)
      offset w
    = (Ok offset, emit e w) /\
    passed_components e
    = map (fun i => destructured_value props u !! i) (seq 0 n).
Proof.
  intros Hn.
  destruct u as
    [value|value|value|value|value|value|value|value|value|value
    |value|value|value|value|value|value|value|value|value|value
    |value|value|value|value|value|value|value|value];
    try discriminate; injection Hn as <-;
    (split;
     [unfold Command.updateUniform;
      cbn [Command.definition Command.location map_destructured];
      destruct value as [f|v]; cbn [map_value Command.access];
      rewrite !lookup_take_lt by lia; reflexivity
     |eexists;
      split; [unfold Command.updateUniform;
              cbn [Command.definition Command.location]; reflexivity
             |reflexivity]]).
Qed.

End UpdateUniformsAll.

(** A 3f binding with a two-element value. *)
Lemma updateUniform_reads_first_components_witness :
  destructured (P := unit) (Command.Uniform3f (Command.Value [1; 2]))
  = Some 3%nat /\
  exists e : Event,
    Command.updateUniform tt
      (Command.mkUniformInfo "u_color" 10%nat
         (Command.Uniform3f (Command.Value [1; 2]))) 0 fresh_world
    = (Ok 0, emit e fresh_world) /\
    passed_components e = [Some 1; Some 2; None].
Proof.
  split; [reflexivity|].
  exact (proj2 (updateUniform_reads_first_components tt "u_color" 10%nat
                  (Command.Uniform3f (Command.Value [1; 2])) 3 0 fresh_world
                  eq_refl)).
Defined.

(** ** Command.create: primitives and shaders *)

Lemma primitive_of_mode_mapGlPrimitive (primitive : Command.Primitive) :
  primitive_of_mode (Command.mapGlPrimitive primitive) = Some primitive.
Proof. now destruct primitive. Qed.

(** X7: [mapGlPrimitive] sends the seven primitives to seven different draw
    modes, the modes 0 to 6 of the context: the primitive can be read back
    from the mode. *)
Theorem mapGlPrimitive_round_trip (primitive : Command.Primitive) :
  primitive_of_mode (Command.mapGlPrimitive primitive) = Some primitive /\
  0 <= Command.mapGlPrimitive primitive <= 6 /\
  forall other : Command.Primitive,
    Command.mapGlPrimitive other = Command.mapGlPrimitive primitive ->
    other = primitive.
Proof.
  split; [apply primitive_of_mode_mapGlPrimitive|].
  split; [destruct primitive; cbv; now split|].
  intros other. destruct other, primitive; cbv; congruence.
Qed.

Section CreateShaders.
Variable d : Driver.
Context {P : Type}.

Lemma lookups_are_no_shader_calls (program : WebGLProgram)
    (infos : list (Command.UniformInfo P)) (tail : list Event) :
  (forall e, In e tail -> exists name ret, e = E_getUniformLocation program name ret) ->
  compiled_shaders (map (found_lookup program) infos ++ tail) = [] /\
  linked_programs (map (found_lookup program) infos ++ tail) = [] /\
  deleted_shaders (map (found_lookup program) infos ++ tail) = [].
Proof.
  intros Htail.
  assert (H : forall e, In e (map (found_lookup program) infos ++ tail) ->
                        exists name ret, e = E_getUniformLocation program name ret).
  { intros e He. apply in_app_or in He as [He|He]; [|now apply Htail].
    apply in_map_iff in He as (info & <- & _). now eexists _, _. }
  clear Htail. revert H.
  generalize (map (found_lookup program) infos ++ tail). intros evts.
  induction evts as [|e evts IH]; intros H; [now repeat split|].
  destruct (H e (or_introl eq_refl)) as (name & ret & ->).
  destruct IH as (IH1 & IH2 & IH3); [intros e' He'; apply H; now right|].
  unfold compiled_shaders, linked_programs, deleted_shaders in *.
  cbn. now rewrite IH1, IH2, IH3.
Qed.

(** X8: [Command.create] deletes the two shaders it compiled exactly when
    linking succeeded: the vertex shader first, then the fragment shader,
    directly after the linking and before any uniform is looked up, every
    later call being a lookup in the linked program; so the shaders are
    deleted also when a uniform has no location.  When a compilation or the
    linking fails, that call is the last one: [create] deletes nothing and
    looks nothing up.  A Command that is returned holds the program that
    was linked. *)
Theorem create_deletes_shaders_after_linking
    (props : Command.CommandProps P) (w : World) :
  exists (r : Res (Command.t P)) (evts : list Event),
    Command.create d props w = (r, emits evts w) /\
    ((exists e : Exn,
         r = Throw e /\
         ((exists type source,
              last evts = Some (E_createShader type source (inl e))) \/
          (exists vs fs, last evts = Some (E_createProgram vs fs (inl e)))) /\
         linked_programs evts = [] /\
         deleted_shaders evts = [] /\
         uniform_lookups evts = []) \/
     (exists (vs fs : WebGLShader) (program : WebGLProgram)
             (lookups : list Event),
         evts = create_prologue props vs fs program ++ lookups /\
         Forall (fun e => exists name ret,
                     e = E_getUniformLocation program name ret) lookups /\
         compiled_shaders evts = [vs; fs] /\
         linked_programs evts = [program] /\
         deleted_shaders evts = [vs; fs] /\
         match r with
         | Ok c => Command.glProgram c = program
         | Throw e => exists identifier, e = MissingUniformLocation identifier
         end)).
Proof.
  pose proof (create_outcome d props w) as H.
  destruct (Command.create d props w) as [[c|e] w'].
  - destruct H as (_ & vs & fs & _ & _ & ->).
    eexists _, _. split; [reflexivity|]. right.
    exists vs, fs, (Command.glProgram c),
      (map (found_lookup (Command.glProgram c)) (Command.uniformInfo c)).
    split; [reflexivity|].
    split.
    { apply List.Forall_forall. intros e0 He.
      apply in_map_iff in He as (info & <- & _). now eexists _, _. }
    destruct (lookups_are_no_shader_calls (Command.glProgram c)
                (Command.uniformInfo c) [])
      as (H1 & H2 & H3); [now intros e' []|].
    rewrite app_nil_r in H1, H2, H3.
    unfold compiled_shaders, linked_programs, deleted_shaders in *.
    rewrite !omap_app, H1, H2, H3. now repeat split.
  - destruct H as [(evts & Hfail & ->)|H].
    + exists (Throw e), evts. split; [reflexivity|]. left. exists e.
      split; [reflexivity|].
      destruct Hfail as [(_ & ->)|[(vs & _ & _ & ->)|(vs & fs & _ & _ & _ & ->)]].
      * split; [left; now eexists _, _|]. now repeat split.
      * split; [left; now eexists _, _|]. now repeat split.
      * split; [right; now eexists _, _|]. now repeat split.
    + destruct H as (vs & fs & program & found & identifier & uniform & rest
                     & _ & _ & _ & _ & -> & ->).
      eexists _, _. split; [reflexivity|]. right.
      exists vs, fs, program,
        (map (found_lookup program) found
         ++ [E_getUniformLocation program identifier None]).
      split; [reflexivity|].
      split.
      { apply List.Forall_forall. intros e0 He.
        apply in_app_or in He as [He|[<-|[]]]; [|now eexists _, _].
        apply in_map_iff in He as (info & <- & _). now eexists _, _. }
      destruct (lookups_are_no_shader_calls program found
                  [E_getUniformLocation program identifier None])
        as (H1 & H2 & H3).
      { intros e' [<-|[]]. now eexists _, _. }
      unfold compiled_shaders, linked_programs, deleted_shaders in *.
      rewrite !(omap_app _ _ (map (found_lookup program) found ++ [_])).
      rewrite H1, H2, H3. split; [reflexivity|]. split; [reflexivity|].
      split; [reflexivity|]. now exists identifier.
Qed.

End CreateShaders.

(** ** Command.draw on any instance count *)

Section DrawAny.
Context {P : Type}.

(** X9: [draw] tests [instCount] for being non-zero: every non-zero instance
    count, a negative one too, selects the instanced variant and is passed
    to it unchanged; the element offset and the first vertex are always 0,
    and [count] is passed unchanged. *)
Theorem draw_instanced_iff_nonzero
    (c : Command.t P) (hasElements : bool) (count instCount : Z) (w : World) :
  exists e : Event,
    Command.draw c hasElements count instCount w = (Ok tt, emit e w) /\
    (is_instanced e = true <-> instCount <> 0) /\
    (index_type e <> None <-> hasElements = true) /\
    e = match hasElements, is_instanced e with
        | true, true =>
            E_drawElementsInstanced (Command.glPrimitive c) count
              GL.UNSIGNED_INT 0 instCount
        | true, false =>
            E_drawElements (Command.glPrimitive c) count GL.UNSIGNED_INT 0
        | false, true =>
            E_drawArraysInstanced (Command.glPrimitive c) 0 count instCount
        | false, false => E_drawArrays (Command.glPrimitive c) 0 count
        end.
Proof.
  eexists. split; [apply draw_run|].
  unfold truthy.
  destruct (Z.eqb_spec instCount 0) as [->|Hn], hasElements; cbn;
    repeat split; try congruence; try discriminate; intros; try lia; easy.
Qed.

End DrawAny.

(** ** Command.clear *)

Section Clear.
Context {P : Type}.

Lemma add_calls_advance (cs : list Call) (ctx : RenderingContext) :
  add_calls cs ctx = advance cs [] ctx.
Proof. unfold add_calls, advance. now rewrite emits_nil. Qed.

Lemma advance_advance (cs1 cs2 : list Call) (evts1 evts2 : list Event)
    (ctx : RenderingContext) :
  advance cs2 evts2 (advance cs1 evts1 ctx)
  = advance (cs1 ++ cs2) (evts1 ++ evts2) ctx.
Proof.
  unfold advance. cbn. now rewrite emits_emits, <- app_assoc.
Qed.

Lemma add_calls_add_calls (cs1 cs2 : list Call) (ctx : RenderingContext) :
  add_calls cs2 (add_calls cs1 ctx) = add_calls (cs1 ++ cs2) ctx.
Proof. unfold add_calls. cbn. now rewrite <- app_assoc. Qed.

Lemma add_calls_nil (ctx : RenderingContext) : add_calls [] ctx = ctx.
Proof. destruct ctx. unfold add_calls. cbn. now rewrite app_nil_r. Qed.

Lemma clear_run (c : Command.t P) (ctx : RenderingContext) :
  CommandRun.clear c ctx = (Ok tt, add_calls (clear_calls c) ctx).
Proof.
  unfold CommandRun.clear, clear_calls, clear_setters, clear_mask.
  destruct (Command.clearInfo c) as [[color depth stencil]|];
    [|unfold ret; now rewrite add_calls_nil].
  cbn [Command.color Command.depth Command.stencil].
  destruct color as [[[[r g] b] a]|], depth as [depth|], stencil as [stencil|];
    cbv -[add_calls]; rewrite ?add_calls_add_calls, ?add_calls_nil;
    reflexivity.
Qed.

Lemma clear_mask_bits (info : Command.ClearInfo) :
  Z.testbit (clear_mask info) 14 = bool_decide (is_Some (Command.color info)) /\
  Z.testbit (clear_mask info) 8 = bool_decide (is_Some (Command.depth info)) /\
  Z.testbit (clear_mask info) 10
  = bool_decide (is_Some (Command.stencil info)).
Proof.
  destruct info as [[color|] [depth|] [stencil|]]; now repeat split.
Qed.

(** X10: [clear] sets the clear value of each of colour, depth and stencil
    that the Command defines, in this order, and then issues one
    [gl.clear] whose mask is the sum of the buffer bits of the defined
    fields (COLOR_BUFFER_BIT, bit 14; DEPTH_BUFFER_BIT, bit 8;
    STENCIL_BUFFER_BIT, bit 10); when none is defined, or the Command has no clear information,
    it makes no call at all.  It never throws. *)
Theorem clear_issues_one_masked_clear
    (c : Command.t P) (ctx : RenderingContext) :
  CommandRun.clear c ctx = (Ok tt, add_calls (clear_calls c) ctx) /\
  match Command.clearInfo c with
  | None => clear_calls c = []
  | Some info =>
      let defined :=
        bool_decide (is_Some (Command.color info))
        || bool_decide (is_Some (Command.depth info))
        || bool_decide (is_Some (Command.stencil info)) in
      clear_calls c
      = clear_setters info
        ++ (if defined then [C_clear (clear_mask info)] else []) /\
      Z.testbit (clear_mask info) 14
      = bool_decide (is_Some (Command.color info)) /\
      Z.testbit (clear_mask info) 8
      = bool_decide (is_Some (Command.depth info)) /\
      Z.testbit (clear_mask info) 10
      = bool_decide (is_Some (Command.stencil info))
  end.
Proof.
  split; [apply clear_run|].
  unfold clear_calls.
  destruct (Command.clearInfo c) as [info|]; [|reflexivity].
  cbv zeta. split; [|apply clear_mask_bits].
  f_equal.
  destruct info as [[color|] [depth|] [stencil|]]; reflexivity.
Qed.

End Clear.

(** ** Command.execute *)

Section Execute.
Context {P : Type}.

Lemma bind_run {S A B} (m : M S A) (k : A -> M S B) (s s' : S) (a : A) :
  m s = (Ok a, s') -> bind m k s = k a s'.
Proof. intros H. unfold bind. now rewrite H. Qed.

Lemma bind_throw {S A B} (m : M S A) (k : A -> M S B) (s s' : S) (e : Exn) :
  m s = (Throw e, s') -> bind m k s = (Throw e, s').
Proof. intros H. unfold bind. now rewrite H. Qed.

Lemma world_advance_nil (cs : list Call) (ctx : RenderingContext) :
  world (advance cs [] ctx) = world ctx.
Proof. unfold advance. cbn. apply emits_nil. Qed.

Lemma call_run (c : Call) (ctx : RenderingContext) :
  CommandRun.call c ctx = (Ok tt, advance [c] [] ctx).
Proof. unfold CommandRun.call, modify. now rewrite add_calls_advance. Qed.

Lemma core_run {A} (m : M World A) (r : Res A) (evts : list Event)
    (ctx : RenderingContext) :
  m (world ctx) = (r, emits evts (world ctx)) ->
  core m ctx = (r, advance (map Core evts) evts ctx).
Proof.
  intros H. unfold core. rewrite H. unfold advance. do 2 f_equal.
  rewrite log_emits, drop_app_length. reflexivity.
Qed.

Lemma uniform_calls_run (c : Command.t P) (props : P) (w : World) :
  Command.updateUniforms c props w = (Ok tt, emits (uniform_calls c props w) w).
Proof.
  destruct (updateUniforms_run c props w) as (evts & Hrun & _).
  unfold uniform_calls. rewrite Hrun. cbn [snd].
  now rewrite log_emits, drop_app_length.
Qed.

Lemma clear_run_advance (c : Command.t P) (ctx : RenderingContext) :
  CommandRun.clear c ctx = (Ok tt, advance (clear_calls c) [] ctx).
Proof. rewrite clear_run. now rewrite add_calls_advance. Qed.

Lemma draw_run_call (c : Command.t P) (vao : VertexArray.t) (w : World) :
  Command.draw c (VertexArray.hasElements vao) (VertexArray.count vao)
    (VertexArray.instanceCount vao) w
  = (Ok tt, emits [draw_call c vao] w).
Proof. apply draw_run. Qed.

(** The part of [execute] from [clear] on, for a surface of the given size
    and an [unbind] that appends [ucalls]. *)
Lemma execute_tail_run (c : Command.t P) (vao : VertexArray.t)
    (width height : Z) (unbind : M RenderingContext unit) (ucalls : list Call)
    (ctx : RenderingContext) :
  (forall ctx', unbind ctx' = (Ok tt, add_calls ucalls ctx')) ->
  (CommandRun.clear c ;;
   CommandRun.call (C_viewport 0 0 width height) ;;
   core (Command.draw c (VertexArray.hasElements vao) (VertexArray.count vao)
           (VertexArray.instanceCount vao)) ;;
   unbind ;;
   CommandRun.call (C_bindVertexArray None)) ctx
  = (Ok tt,
     advance (execute_body c vao width height ++ ucalls
              ++ [C_bindVertexArray None])
             [draw_call c vao] ctx).
Proof.
  intros Hunbind.
  erewrite bind_run by apply clear_run_advance.
  erewrite bind_run by apply call_run.
  erewrite bind_run by (apply core_run, draw_run_call).
  erewrite bind_run by (rewrite Hunbind, add_calls_advance; reflexivity).
  rewrite call_run, !advance_advance.
  unfold execute_body. cbn [map app]. f_equal. f_equal.
  now rewrite <- !app_assoc.
Qed.

Lemma execute_prologue_run {A} (c : Command.t P) (vao : VertexArray.t)
    (props : P) (k : M RenderingContext A) (ctx : RenderingContext) :
  (CommandRun.call (C_useProgram (Command.glProgram c)) ;;
   core (Command.updateUniforms c props) ;;
   CommandRun.call (C_bindVertexArray (VertexArray.glVertexArrayObject vao)) ;;
   k) ctx
  = k (advance (execute_prologue c vao props (world ctx))
               (uniform_calls c props (world ctx)) ctx).
Proof.
  erewrite bind_run by apply call_run.
  erewrite bind_run.
  2:{ apply core_run. rewrite world_advance_nil. apply uniform_calls_run. }
  erewrite bind_run by apply call_run.
  rewrite !advance_advance. unfold execute_prologue.
  cbn [app]. rewrite ?app_nil_r. reflexivity.
Qed.

End Execute.

Section ExecuteTheorems.
Context {P : Type}.

Lemma updateUniform_no_draw (props : P) (info : Command.UniformInfo P)
    (offset : Z) (w : World) :
  exists (evts : list Event) (offset' : Z),
    Command.updateUniform props info offset w = (Ok offset', emits evts w) /\
    Forall (fun e => is_draw_call e = false) evts.
Proof.
  destruct info as [identifier loc definition].
  unfold Command.updateUniform.
  destruct definition;
    try (eexists [_], _; split; [reflexivity|now repeat constructor]).
  eexists [_; _; _], _. split.
  - cbn. rewrite (emit_is_emits _ w), !emit_emits. reflexivity.
  - now repeat constructor.
Qed.

Lemma uniform_calls_no_draw (c : Command.t P) (props : P) (w : World) :
  Forall (fun e => is_draw_call e = false) (uniform_calls c props w).
Proof.
  assert (Hloop : forall infos offset w0,
    exists (evts : list Event) (offset' : Z),
      reduceM (fun offset info => Command.updateUniform props info offset)
              infos offset w0
      = (Ok offset', emits evts w0) /\
      Forall (fun e => is_draw_call e = false) evts).
  { induction infos as [|info infos IH]; intros offset w0.
    - exists [], offset. cbn. rewrite emits_nil. now split.
    - destruct (updateUniform_no_draw props info offset w0)
        as (evts1 & offset1 & Hrun & H1).
      destruct (IH offset1 (emits evts1 w0)) as (evts2 & offset2 & Hloop & H2).
      exists (evts1 ++ evts2), offset2.
      cbn [reduceM]. unfold bind at 1. rewrite Hrun, Hloop, emits_emits.
      split; [reflexivity|now apply Forall_app]. }
  destruct (Hloop (Command.uniformInfo c) 0 w) as (evts & offset' & Hrun & Hno).
  unfold uniform_calls, Command.updateUniforms. cbv zeta. unfold bind.
  rewrite Hrun. cbn [snd ret]. now rewrite log_emits, drop_app_length.
Qed.

Lemma filter_is_draw_core (evts : list Event) :
  Forall (fun e => is_draw_call e = false) evts ->
  filter is_draw (map Core evts) = [].
Proof.
  induction 1 as [|e evts He _ IH]; [reflexivity|].
  cbn [map]. rewrite filter_cons_False; [exact IH|].
  cbn. now rewrite He.
Qed.

Lemma filter_is_draw_clear (c : Command.t P) :
  filter is_draw (clear_calls c) = [].
Proof.
  unfold clear_calls, clear_setters.
  destruct (Command.clearInfo c) as [[[[[[r g] b] a]|] [depth|] [stencil|]]|];
    reflexivity.
Qed.

Lemma draw_call_is_draw (c : Command.t P) (vao : VertexArray.t) :
  is_draw_call (draw_call c vao) = true.
Proof.
  unfold draw_call, draw_variant.
  now destruct (VertexArray.hasElements vao), (truthy _).
Qed.

(** X11: [execute] without a framebuffer returns normally and makes, in this
    order: [useProgram], the uniform updates for the props of this call,
    [bindVertexArray] on the vertex array, the clear of the Command, a
    viewport of the whole drawing buffer, the draw call of the vertex
    array, and [bindVertexArray(null)].  The draw call is the only draw
    call. *)
Theorem execute_on_default_surface
    (c : Command.t P) (vao : VertexArray.t) (props : P)
    (ctx : RenderingContext) :
  let made :=
    execute_prologue c vao props (world ctx)
    ++ execute_body c vao (drawingBufferWidth ctx) (drawingBufferHeight ctx)
    ++ [C_bindVertexArray None] in
  CommandRun.execute c vao props None ctx
  = (Ok tt,
     advance made (uniform_calls c props (world ctx) ++ [draw_call c vao]) ctx)
  /\ filter is_draw made = [Core (draw_call c vao)].
Proof.
  cbv zeta. split.
  - unfold CommandRun.execute. rewrite execute_prologue_run.
    unfold bind at 1 2. unfold ret at 1. cbv beta iota.
    cbn [drawingBufferWidth drawingBufferHeight advance].
    erewrite (execute_tail_run c vao _ _ (ret tt) []);
      [|intros ctx'; unfold ret; now rewrite add_calls_nil].
    rewrite advance_advance. cbn [app]. reflexivity.
  - unfold execute_prologue, execute_body.
    rewrite !filter_app, filter_is_draw_core by apply uniform_calls_no_draw.
    rewrite filter_is_draw_clear. cbn [app].
    rewrite !filter_cons_False, filter_cons_True by
      (cbn; rewrite ?draw_call_is_draw; easy).
    reflexivity.
Qed.

(** X12: with a framebuffer whose [bind] and [unbind] return, [execute]
    binds it after the vertex array, directs the draw buffers to its colour
    attachments, uses its width and height, not the drawing buffer's, for
    the viewport, and unbinds it after the draw call and before
    [bindVertexArray(null)]. *)
Theorem execute_on_framebuffer
    (c : Command.t P) (vao : VertexArray.t) (props : P)
    (framebuffer : FramebufferArg.t) (bcalls ucalls : list Call)
    (ctx : RenderingContext) :
  (forall ctx', FramebufferArg.bind framebuffer ctx'
                = (Ok tt, add_calls bcalls ctx')) ->
  (forall ctx', FramebufferArg.unbind framebuffer ctx'
                = (Ok tt, add_calls ucalls ctx')) ->
  CommandRun.execute c vao props (Some framebuffer) ctx
  = (Ok tt,
     advance
       (execute_prologue c vao props (world ctx)
        ++ bcalls
        ++ [C_drawBuffers (FramebufferArg.colorAttachments framebuffer)]
        ++ execute_body c vao (FramebufferArg.width framebuffer)
             (FramebufferArg.height framebuffer)
        ++ ucalls
        ++ [C_bindVertexArray None])
       (uniform_calls c props (world ctx) ++ [draw_call c vao]) ctx).
Proof.
  intros Hbind Hunbind.
  unfold CommandRun.execute. rewrite execute_prologue_run.
  unfold bind at 1. cbv beta iota.
  unfold bind at 1.
  erewrite (bind_run (FramebufferArg.bind framebuffer))
    by (rewrite Hbind, add_calls_advance; reflexivity).
  erewrite bind_run by apply call_run.
  unfold ret at 1. cbv beta iota.
  erewrite (execute_tail_run c vao _ _ _ ucalls) by exact Hunbind.
  rewrite !advance_advance, <- ?app_assoc. cbn [app]. reflexivity.
Qed.

(** X13: when [framebuffer.bind()] throws, [execute] throws the same error
    and stops there: the state is the one [bind] left, so nothing is drawn
    and the vertex array, bound by the last call before [bind], is not
    unbound. *)
Theorem execute_stops_when_bind_throws
    (c : Command.t P) (vao : VertexArray.t) (props : P)
    (framebuffer : FramebufferArg.t) (e : Exn)
    (ctx ctx' : RenderingContext) :
  FramebufferArg.bind framebuffer
    (advance (execute_prologue c vao props (world ctx))
             (uniform_calls c props (world ctx)) ctx)
  = (Throw e, ctx') ->
  CommandRun.execute c vao props (Some framebuffer) ctx = (Throw e, ctx') /\
  last (calls (advance (execute_prologue c vao props (world ctx))
                       (uniform_calls c props (world ctx)) ctx))
  = Some (C_bindVertexArray (VertexArray.glVertexArrayObject vao)).
Proof.
  intros Hbind. split.
  - unfold CommandRun.execute. rewrite execute_prologue_run.
    unfold bind at 1. cbv beta iota.
    unfold bind at 1.
    erewrite (bind_throw (FramebufferArg.bind framebuffer)) by exact Hbind.
    reflexivity.
  - unfold advance, execute_prologue. cbn [calls].
    rewrite !app_assoc. apply last_snoc.
Qed.

End ExecuteTheorems.

(** A framebuffer argument that binds and unbinds object 7. *)
Lemma execute_on_framebuffer_witness :
  (forall ctx', FramebufferArg.bind binding_framebuffer ctx'
                = (Ok tt,
                   add_calls [C_bindFramebuffer GL.DRAW_FRAMEBUFFER (Some 7%nat)]
                     ctx')) /\
  (forall ctx', FramebufferArg.unbind binding_framebuffer ctx'
                = (Ok tt,
                   add_calls [C_bindFramebuffer GL.DRAW_FRAMEBUFFER None] ctx')) /\
  CommandRun.execute clearing_command three_vertices tt
    (Some binding_framebuffer) fresh_context
  = (Ok tt,
     advance
       (execute_prologue clearing_command three_vertices tt fresh_world
        ++ [C_bindFramebuffer GL.DRAW_FRAMEBUFFER (Some 7%nat)]
        ++ [C_drawBuffers [GL.COLOR_ATTACHMENT0]]
        ++ execute_body clearing_command three_vertices 128 128
        ++ [C_bindFramebuffer GL.DRAW_FRAMEBUFFER None]
        ++ [C_bindVertexArray None])
       (uniform_calls clearing_command tt fresh_world
        ++ [draw_call clearing_command three_vertices])
       fresh_context).
Proof.
  split; [reflexivity|]. split; [reflexivity|].
  exact (execute_on_framebuffer clearing_command three_vertices tt
           binding_framebuffer _ _ fresh_context
           (fun _ => eq_refl) (fun _ => eq_refl)).
Defined.

(** A framebuffer argument whose [bind] throws. *)
Lemma execute_stops_when_bind_throws_witness :
  FramebufferArg.bind lost_framebuffer
    (advance (execute_prologue clearing_command three_vertices tt fresh_world)
             (uniform_calls clearing_command tt fresh_world) fresh_context)
  = (Throw (JsError "context lost"),
     advance (execute_prologue clearing_command three_vertices tt fresh_world)
             (uniform_calls clearing_command tt fresh_world) fresh_context) /\
  CommandRun.execute clearing_command three_vertices tt (Some lost_framebuffer)
    fresh_context
  = (Throw (JsError "context lost"),
     advance (execute_prologue clearing_command three_vertices tt fresh_world)
             (uniform_calls clearing_command tt fresh_world) fresh_context).
Proof.
  split; [reflexivity|].
  exact (proj1 (execute_stops_when_bind_throws clearing_command three_vertices
                  tt lost_framebuffer _ fresh_context _ eq_refl)).
Defined.

(** The calls of one [execute] on the default surface. *)
Example execute_clearing_command :
  exists ctx' : RenderingContext,
    CommandRun.execute clearing_command three_vertices tt None fresh_context
    = (Ok tt, ctx') /\
    calls ctx'
    = [C_useProgram 2%nat;
       Core (E_uniform3fv 10%nat [1; 0; 0]);
       C_bindVertexArray (Some 4%nat);
       C_clearColor 0 0 0 1;
       C_clearDepth 1;
       C_clear (GLbits.COLOR_BUFFER_BIT + GLbits.DEPTH_BUFFER_BIT);
       C_viewport 0 0 300 150;
       Core (E_drawArrays GL.TRIANGLES 0 3);
       C_bindVertexArray None].
Proof. eexists. split; reflexivity. Qed.

(** ** Framebuffer: what a factory call leaves behind *)

Section Constructed.
Variable d : Driver.

Lemma handle_attachments_color (w : World) (colors : list Texture.t)
    (first : Z) :
  handle_attachments (color_attach_events w colors first)
  = imap (fun i buffer =>
            (GL.COLOR_ATTACHMENT0 + (first + Z.of_nat i),
             glTextures w !! Texture.ref buffer))
         colors.
Proof.
  revert first. induction colors as [|buffer colors IH]; intros first.
  - reflexivity.
  - rewrite color_attach_events_cons.
    change (handle_attachments (?e :: ?l))
      with (handle_attachments [e] ++ handle_attachments l).
    rewrite IH. cbn [imap]. cbn. rewrite Z.add_0_r. f_equal.
    apply imap_ext. intros i buffer' _. cbn. do 2 f_equal. lia.
Qed.

Lemma object_attachments_color (w : World) (colors : list Texture.t)
    (first : Z) :
  object_attachments (color_attach_events w colors first) = [].
Proof.
  revert first. induction colors as [|buffer colors IH]; intros first.
  - reflexivity.
  - rewrite color_attach_events_cons.
    change (object_attachments (?e :: ?l))
      with (object_attachments [e] ++ object_attachments l).
    now rewrite IH.
Qed.

Lemma deleted_color (w : World) (colors : list Texture.t) (first : Z) :
  deleted_framebuffers (color_attach_events w colors first) = [].
Proof.
  revert first. induction colors as [|buffer colors IH]; intros first.
  - reflexivity.
  - rewrite color_attach_events_cons.
    change (deleted_framebuffers (?e :: ?l))
      with (deleted_framebuffers [e] ++ deleted_framebuffers l).
    now rewrite IH.
Qed.

Lemma handle_attachments_init_scope (fb : Framebuffer.t) (w : World) :
  handle_attachments (init_scope d fb w) = color_points w (Framebuffer.colors fb).
Proof.
  unfold init_scope, init_prefix, handle_attachments.
  rewrite !omap_app. fold (handle_attachments (color_attach_events w
                                                 (Framebuffer.colors fb) 0)).
  rewrite handle_attachments_color.
  unfold depth_attach_events.
  assert (Hpoints :
    imap (fun i buffer =>
            (GL.COLOR_ATTACHMENT0 + (0 + Z.of_nat i),
             glTextures w !! Texture.ref buffer)) (Framebuffer.colors fb)
    = color_points w (Framebuffer.colors fb)).
  { apply imap_ext. intros i buffer _. cbn. now rewrite Z.add_0_l. }
  rewrite Hpoints.
  destruct (Framebuffer.depthStencil fb); cbn; now rewrite !app_nil_r.
Qed.

Lemma object_attachments_init_scope (fb : Framebuffer.t) (w : World) :
  object_attachments (init_scope d fb w)
  = match Framebuffer.depthStencil fb with
    | Some t => [(depth_attachment_point (Framebuffer.depthOnly fb), t)]
    | None => []
    end.
Proof.
  unfold init_scope, init_prefix, object_attachments.
  rewrite !omap_app. fold (object_attachments (color_attach_events w
                                                 (Framebuffer.colors fb) 0)).
  rewrite object_attachments_color.
  unfold depth_attach_events.
  now destruct (Framebuffer.depthStencil fb).
Qed.

Lemma deleted_init_scope (fb : Framebuffer.t) (w : World) :
  deleted_framebuffers (init_scope d fb w) = [].
Proof.
  unfold init_scope, init_prefix, deleted_framebuffers.
  rewrite !omap_app. fold (deleted_framebuffers (color_attach_events w
                                                   (Framebuffer.colors fb) 0)).
  rewrite deleted_color.
  unfold depth_attach_events.
  now destruct (Framebuffer.depthStencil fb).
Qed.

Lemma deleted_init_prefix (fb : Framebuffer.t) (w : World) :
  deleted_framebuffers (init_prefix d fb w) = [].
Proof.
  unfold init_prefix, deleted_framebuffers.
  rewrite !omap_app. fold (deleted_framebuffers (color_attach_events w
                                                   (Framebuffer.colors fb) 0)).
  rewrite deleted_color.
  unfold depth_attach_events.
  now destruct (Framebuffer.depthStencil fb).
Qed.

Lemma handle_attachments_init_prefix (fb : Framebuffer.t) (w : World) :
  handle_attachments (init_prefix d fb w)
  = color_points w (Framebuffer.colors fb).
Proof.
  unfold init_prefix, handle_attachments.
  rewrite !omap_app. fold (handle_attachments (color_attach_events w
                                                 (Framebuffer.colors fb) 0)).
  rewrite handle_attachments_color.
  unfold depth_attach_events.
  assert (Hpoints :
    imap (fun i buffer =>
            (GL.COLOR_ATTACHMENT0 + (0 + Z.of_nat i),
             glTextures w !! Texture.ref buffer)) (Framebuffer.colors fb)
    = color_points w (Framebuffer.colors fb)).
  { apply imap_ext. intros i buffer _. cbn. now rewrite Z.add_0_l. }
  rewrite Hpoints.
  destruct (Framebuffer.depthStencil fb); cbn; now rewrite !app_nil_r.
Qed.

Lemma object_attachments_init_prefix (fb : Framebuffer.t) (w : World) :
  object_attachments (init_prefix d fb w)
  = match Framebuffer.depthStencil fb with
    | Some t => [(depth_attachment_point (Framebuffer.depthOnly fb), t)]
    | None => []
    end.
Proof.
  unfold init_prefix, object_attachments.
  rewrite !omap_app. fold (object_attachments (color_attach_events w
                                                 (Framebuffer.colors fb) 0)).
  rewrite object_attachments_color.
  unfold depth_attach_events.
  now destruct (Framebuffer.depthStencil fb).
Qed.

Lemma attachment_points_seqZ (colors : list Texture.t) (first : Z) :
  imap (fun i (_ : Texture.t) => GL.COLOR_ATTACHMENT0 + (first + Z.of_nat i))
       colors
  = map (fun i => GL.COLOR_ATTACHMENT0 + i)
        (seqZ first (Z.of_nat (length colors))).
Proof.
  revert first. induction colors as [|t colors IH]; intros first.
  - reflexivity.
  - cbn [imap length]. rewrite (seqZ_cons first) by lia. cbn [map].
    rewrite Z.add_0_r. f_equal.
    replace (Z.pred (Z.of_nat (S (length colors))))
      with (Z.of_nat (length colors)) by lia.
    replace (Z.succ first) with (first + 1) by lia.
    rewrite <- IH. apply imap_ext. intros i t' _. cbn. f_equal. lia.
Qed.

(** Every factory call, in one equation. *)
Lemma construct_outcome (width height : Z) (call : FactoryCall) (w : World) :
  construct d width height call w
  = match rejection width height call with
    | Some e => (Throw e, w)
    | None =>
        let fb := blank_of width height call in
        match depth_of call with
        | Some _ => (Throw TypeError, init_interrupted d fb w)
        | None =>
            if (init_status d fb w =? GL.FRAMEBUFFER_COMPLETE)%Z
            then (Ok (installed (init_fbo d w) fb),
                  emits (init_scope d fb w) w)
            else (Throw FramebufferIncomplete,
                  emits (init_scope d fb w
                         ++ [E_deleteFramebuffer (init_fbo d w)]) w)
        end
    end.
Proof.
  rewrite construct_run.
  destruct (rejection width height call); [reflexivity|].
  destruct call; cbn [constructed]; rewrite new_run; reflexivity.
Qed.

Lemma rejection_none (width height : Z) (call : FactoryCall) :
  rejection width height call = None ->
  rejected width height call = false.
Proof.
  intros H. destruct (rejected width height call) eqn:E; [|reflexivity].
  destruct (rejected_rejection _ _ _ E) as [e He]. congruence.
Qed.

Lemma installed_configuration (fbo : option WebGLFramebuffer)
    (fb : Framebuffer.t) :
  configuration (installed fbo fb) = configuration fb.
Proof. now destruct fbo. Qed.

(** X14: a Framebuffer that a factory returns has the declared width and
    height, holds the colour buffers and the depth or depth-stencil buffer
    of the call, every one of them of that width and height, at least one
    colour buffer where the factory takes colours, and the attachment
    points COLOR_ATTACHMENT0, COLOR_ATTACHMENT0 + 1, ... for its colour
    buffers. *)
Theorem constructed_framebuffer_is_consistent
    (width height : Z) (call : FactoryCall) (w w' : World)
    (fb : Framebuffer.t) :
  construct d width height call w = (Ok fb, w') ->
  Framebuffer.width fb = width /\
  Framebuffer.height fb = height /\
  Framebuffer.colors fb = default [] (required_colors call) /\
  Framebuffer.depthStencil fb = depth_of call /\
  Framebuffer.depthOnly fb = depth_only_of call /\
  required_colors call <> Some [] /\
  (forall t : Texture.t,
      In t (Framebuffer.colors fb ++ option_list (Framebuffer.depthStencil fb)) ->
      Texture.width t = Framebuffer.width fb /\
      Texture.height t = Framebuffer.height fb) /\
  Framebuffer.glColorAttachments fb
  = map (fun i => GL.COLOR_ATTACHMENT0 + i)
        (seqZ 0 (Z.of_nat (length (Framebuffer.colors fb)))).
Proof.
  rewrite construct_outcome.
  destruct (rejection width height call) as [e|] eqn:Hrej; [discriminate|].
  cbv zeta.
  destruct (depth_of call) as [depth|] eqn:Hnodepth; [discriminate|].
  destruct (_ =? GL.FRAMEBUFFER_COMPLETE)%Z; [|discriminate].
  intros [= <- _].
  assert (Hconf : configuration (installed (init_fbo d w)
                                    (blank_of width height call))
                  = configuration (blank_of width height call))
    by apply installed_configuration.
  unfold configuration in Hconf.
  injection Hconf as Hwidth Hheight Hpoints Hcolors Hdepth Honly.
  rewrite Hwidth, Hheight, Hpoints, Hcolors, Hdepth, Honly.
  cbn [blank_of blank Framebuffer.width Framebuffer.height Framebuffer.colors
       Framebuffer.depthStencil Framebuffer.depthOnly
       Framebuffer.glColorAttachments].
  rewrite ?Hnodepth.
  repeat (split; [reflexivity|]).
  apply rejection_none in Hrej. unfold rejected in Hrej.
  apply orb_false_iff in Hrej as [Hempty Hfits].
  split; [intros Heq; now rewrite Heq in Hempty|].
  split.
  - intros t Ht. apply negb_false_iff in Hfits.
    rewrite forallb_forall in Hfits. rewrite <- Hnodepth in Ht.
    specialize (Hfits t Ht).
    unfold fits in Hfits. apply andb_true_iff in Hfits as [Hw Hh].
    apply Z.eqb_eq in Hw, Hh. now split.
  - generalize (default [] (required_colors call)). intros colors.
    rewrite <- (attachment_points_seqZ colors 0).
    apply imap_ext. intros i t _. cbn. now rewrite Z.add_0_l.
Qed.

End Constructed.

Section ConstructedMore.
Variable d : Driver.

(** X15: a factory call ends in one of four ways.  It rejects its arguments
    and makes no call on the context.  Or it has no depth or depth-stencil
    buffer and creates exactly one framebuffer object, pushed and popped
    once: the object of the returned Framebuffer, never deleted, when the
    call returns; an object that is deleted again, by the last call, when
    the driver reports it incomplete.  Or it has such a buffer: then it
    creates one object, pushes it, and throws a TypeError without popping or
    deleting it. *)
Theorem construct_creates_at_most_one_object
    (width height : Z) (call : FactoryCall) (w : World) :
  exists (r : Res Framebuffer.t) (w' : World) (evts : list Event),
    construct d width height call w = (r, w') /\
    log w' = log w ++ evts /\
    match r with
    | Ok fb =>
        rejected width height call = false /\
        depth_of call = None /\
        created evts = [Framebuffer.glFramebuffer fb] /\
        deleted_framebuffers evts = [] /\
        stack_ops evts = [Push (Framebuffer.glFramebuffer fb); Pop] /\
        drawFramebufferStack w' = drawFramebufferStack w
    | Throw e =>
        (rejected width height call = true /\
         w' = w /\ evts = [] /\ is_construction_error e = true) \/
        (rejected width height call = false /\
         depth_of call = None /\
         e = FramebufferIncomplete /\
         exists fbo,
           created evts = [fbo] /\
           deleted_framebuffers evts = [fbo] /\
           stack_ops evts = [Push fbo; Pop] /\
           last evts = Some (E_deleteFramebuffer fbo) /\
           drawFramebufferStack w' = drawFramebufferStack w) \/
        (rejected width height call = false /\
         is_Some (depth_of call) /\
         e = TypeError /\
         exists fbo,
           created evts = [fbo] /\
           deleted_framebuffers evts = [] /\
           stack_ops evts = [Push fbo] /\
           drawFramebufferStack w' = fbo :: drawFramebufferStack w)
    end.
Proof.
  rewrite construct_outcome.
  destruct (rejection width height call) as [e|] eqn:Hrej.
  - exists (Throw e), w, []. split; [reflexivity|].
    split; [now rewrite app_nil_r|].
    left.
    assert (Hrejected : rejected width height call = true).
    { destruct (rejected width height call) eqn:E; [reflexivity|].
      apply accepted_rejection in E. congruence. }
    split; [exact Hrejected|]. split; [reflexivity|]. split; [reflexivity|].
    unfold rejection in Hrej.
    destruct (required_colors call) as [[|t l]|];
      [now injection Hrej as <-| |];
      destruct (first_mismatch_some _ _ _ _ Hrej)
        as (t' & _ & [[-> _]|[-> _]]); reflexivity.
  - apply rejection_none in Hrej. cbv zeta.
    destruct (depth_of call) as [depth|] eqn:Hdepth;
      [|destruct (_ =? GL.FRAMEBUFFER_COMPLETE)%Z].
    + eexists _, _, _. split; [reflexivity|]. split; [reflexivity|].
      right. right. split; [exact Hrej|]. split; [now eexists|].
      split; [reflexivity|].
      exists (init_fbo d w).
      rewrite created_init_prefix, deleted_init_prefix, stack_ops_init_prefix.
      now repeat split.
    + eexists _, _, _. split; [reflexivity|]. split; [reflexivity|].
      assert (Hfbo : Framebuffer.glFramebuffer
                       (installed (init_fbo d w) (blank_of width height call))
                     = init_fbo d w) by now destruct (init_fbo d w).
      cbv beta iota.
      rewrite Hfbo, created_init_scope, deleted_init_scope.
      rewrite stack_ops_init_scope. now repeat split.
    + eexists _, _, _. split; [reflexivity|]. split; [reflexivity|].
      right. left. split; [exact Hrej|]. split; [reflexivity|].
      split; [reflexivity|].
      exists (init_fbo d w).
      rewrite created_app, created_init_scope.
      rewrite stack_ops_app, stack_ops_init_scope.
      unfold deleted_framebuffers. rewrite omap_app.
      fold (deleted_framebuffers (init_scope d (blank_of width height call) w)).
      rewrite deleted_init_scope.
      repeat split. apply last_snoc.
Qed.

Lemma map_fst_imap {A B C} (f : nat -> A -> B * C) (g : nat -> A -> B)
    (l : list A) :
  (forall i x, fst (f i x) = g i x) -> map fst (imap f l) = imap g l.
Proof.
  revert f g. induction l as [|x l IH]; intros f g H; [reflexivity|].
  cbn [imap map]. rewrite H. f_equal. apply IH. intros i y. apply H.
Qed.

Lemma map_snd_imap {A B C} (f : nat -> A -> B * C) (g : A -> C)
    (l : list A) :
  (forall i x, snd (f i x) = g x) -> map snd (imap f l) = map g l.
Proof.
  revert f. induction l as [|x l IH]; intros f H; [reflexivity|].
  cbn [imap map]. rewrite H. f_equal. apply IH. intros i y. apply H.
Qed.

(** X16: the Target of a Framebuffer that a factory returns draws into the
    object of that Framebuffer, has its width and height, and lists as draw
    buffers exactly the attachment points its colour buffers were attached
    to, in order; there is no Target exactly when [createFramebuffer]
    returned null. *)
Theorem constructed_target_matches_attachments
    (width height : Z) (call : FactoryCall) (w w' : World)
    (fb : Framebuffer.t) :
  construct d width height call w = (Ok fb, w') ->
  (Framebuffer.framebufferTarget fb = None
   <-> Framebuffer.glFramebuffer fb = None) /\
  exists evts : list Event,
    w' = emits evts w /\
    map snd (handle_attachments evts)
    = map (fun t => glTextures w !! Texture.ref t) (Framebuffer.colors fb) /\
    forall rt : Target.t,
      Framebuffer.framebufferTarget fb = Some rt ->
      Target.glFramebuffer rt = Framebuffer.glFramebuffer fb /\
      Target.width rt = width /\
      Target.height rt = height /\
      Target.glDrawBuffers rt = map fst (handle_attachments evts).
Proof.
  rewrite construct_outcome.
  destruct (rejection width height call) as [e|]; [discriminate|].
  cbv zeta. destruct (depth_of call) as [depth|]; [discriminate|].
  destruct (_ =? GL.FRAMEBUFFER_COMPLETE)%Z; [|discriminate].
  intros [= <- <-].
  assert (Hpoints : forall colors : list Texture.t,
    map fst (color_points w colors)
    = imap (fun i _ => GL.COLOR_ATTACHMENT0 + Z.of_nat i) colors)
    by (intros colors; now apply map_fst_imap).
  assert (Hhandles : forall colors : list Texture.t,
    map snd (color_points w colors)
    = map (fun t => glTextures w !! Texture.ref t) colors)
    by (intros colors; now apply map_snd_imap).
  split.
  - unfold installed. destruct (init_fbo d w); cbn; split; congruence.
  - eexists. split; [reflexivity|].
    rewrite handle_attachments_init_scope.
    split.
    + rewrite Hhandles. unfold installed.
      now destruct (init_fbo d w).
    + intros rt. rewrite Hpoints. unfold installed.
      destruct (init_fbo d w) as [fbo|]; cbn; [|discriminate].
      intros [= <-]. now repeat split.
Qed.

(** X17: on a Framebuffer without depth or depth-stencil buffer, if
    [createFramebuffer] returns null while the driver reports completeness,
    [init] succeeds all the same: the Framebuffer loses its object, but a
    Target it owned before stays in place, still drawing into the previous
    object. *)
Theorem init_null_object_keeps_previous_target
    (fb : Framebuffer.t) (w : World) :
  Framebuffer.depthStencil fb = None ->
  init_fbo d w = None ->
  init_status d fb w = GL.FRAMEBUFFER_COMPLETE ->
  exists (fb' : Framebuffer.t) (w' : World),
    Framebuffer.init d (Framebuffer.mkState fb w)
    = (Ok tt, Framebuffer.mkState fb' w') /\
    Framebuffer.glFramebuffer fb' = None /\
    Framebuffer.framebufferTarget fb' = Framebuffer.framebufferTarget fb.
Proof.
  intros Hdepth Hnull Hcomplete.
  rewrite init_run, Hdepth, Hcomplete, Z.eqb_refl, Hnull.
  eexists _, _. now repeat split.
Qed.

(** X18: [init] and [restore] assign nothing but the object and the Target
    of a Framebuffer: its width, height, colour buffers, depth or
    depth-stencil buffer, depth-only flag and attachment points are the
    same after the call, whether it returns or throws. *)
Theorem methods_keep_configuration (s : Framebuffer.State) :
  configuration (Framebuffer.this (snd (Framebuffer.init d s)))
  = configuration (Framebuffer.this s) /\
  configuration (Framebuffer.this (snd (Framebuffer.restore d s)))
  = configuration (Framebuffer.this s).
Proof.
  destruct s as [fb w].
  assert (Hinit : forall w0,
    configuration (Framebuffer.this
                     (snd (Framebuffer.init d (Framebuffer.mkState fb w0))))
    = configuration fb).
  { intros w0. rewrite init_run.
    destruct (Framebuffer.depthStencil fb); [reflexivity|].
    destruct (_ =? GL.FRAMEBUFFER_COMPLETE)%Z; cbn [snd Framebuffer.this];
      [apply installed_configuration|reflexivity]. }
  split; [apply Hinit|].
  rewrite restore_run. destruct (reported_valid d fb w); [reflexivity|].
  apply Hinit.
Qed.

End ConstructedMore.

(** A colour buffer of the declared size, on a driver that reports
    completeness. *)
Lemma constructed_framebuffer_is_consistent_witness :
  construct complete_driver 128 128 (WithColor (Framebuffer.One color_texture))
    fresh_world
  = (Ok (installed (Some 7%nat)
           (blank_of 128 128 (WithColor (Framebuffer.One color_texture)))),
     emits (init_scope complete_driver
              (blank_of 128 128 (WithColor (Framebuffer.One color_texture)))
              fresh_world) fresh_world) /\
  Framebuffer.glColorAttachments
    (installed (Some 7%nat)
       (blank_of 128 128 (WithColor (Framebuffer.One color_texture))))
  = [GL.COLOR_ATTACHMENT0].
Proof.
  split; [reflexivity|].
  exact (proj2 (proj2 (proj2 (proj2 (proj2 (proj2 (proj2
    (constructed_framebuffer_is_consistent complete_driver 128 128
       (WithColor (Framebuffer.One color_texture)) fresh_world _ _
       eq_refl)))))))).
Defined.

Lemma constructed_target_matches_attachments_witness :
  construct complete_driver 128 128 (WithColor (Framebuffer.One color_texture))
    fresh_world
  = (Ok (installed (Some 7%nat)
           (blank_of 128 128 (WithColor (Framebuffer.One color_texture)))),
     emits (init_scope complete_driver
              (blank_of 128 128 (WithColor (Framebuffer.One color_texture)))
              fresh_world) fresh_world) /\
  (Framebuffer.framebufferTarget
     (installed (Some 7%nat)
        (blank_of 128 128 (WithColor (Framebuffer.One color_texture)))) = None
   <-> Framebuffer.glFramebuffer
         (installed (Some 7%nat)
            (blank_of 128 128 (WithColor (Framebuffer.One color_texture))))
       = None).
Proof.
  split; [reflexivity|].
  exact (proj1 (constructed_target_matches_attachments complete_driver 128 128
                  (WithColor (Framebuffer.One color_texture)) fresh_world _ _
                  eq_refl)).
Defined.

(** A Framebuffer with one colour buffer, initialised on object 5 and
    initialised again on a driver that returns no object: the Target still
    draws into object 5. *)
Lemma init_null_object_keeps_previous_target_witness :
  Framebuffer.depthStencil initialised_color_framebuffer = None /\
  init_fbo null_driver fresh_world = None /\
  init_status null_driver initialised_color_framebuffer fresh_world
  = GL.FRAMEBUFFER_COMPLETE /\
  exists (fb' : Framebuffer.t) (w' : World),
    Framebuffer.init null_driver
      (Framebuffer.mkState initialised_color_framebuffer fresh_world)
    = (Ok tt, Framebuffer.mkState fb' w') /\
    Framebuffer.glFramebuffer fb' = None /\
    Framebuffer.framebufferTarget fb'
    = Some (Target.mk [GL.COLOR_ATTACHMENT0 + 0] (Some 5%nat) 128 128).
Proof.
  split; [reflexivity|]. split; [reflexivity|]. split; [reflexivity|].
  exact (init_null_object_keeps_previous_target null_driver
           initialised_color_framebuffer fresh_world eq_refl eq_refl eq_refl).
Defined.

(** ** Framebuffer.restore and Framebuffer.init, further *)

Section RestoreMore.
Variable d : Driver.

Lemma restored_viewport (ts : list Texture.t) (w : World) :
  viewportStack (restored d ts w) = viewportStack w.
Proof.
  revert w. induction ts as [|t ts IH]; intros w; [reflexivity|].
  rewrite restored_cons, IH. reflexivity.
Qed.

Lemma omap_texture_restores {A} (f : Event -> option A) (ts : list Texture.t) :
  (forall t, f (E_Texture_restore t) = None) ->
  omap f (map E_Texture_restore ts) = [].
Proof.
  intros H. induction ts as [|t ts IH]; [reflexivity|].
  cbn. now rewrite H.
Qed.

(** The calls [restore] makes before it decides. *)
Lemma restore_checked_emits (fb : Framebuffer.t) (w : World) :
  exists w1 : World,
    restore_checked d fb w = w1 /\
    log w1
    = log w ++ map E_Texture_restore (restorable fb)
      ++ [E_isFramebuffer (Framebuffer.glFramebuffer fb)
            (reported_valid d fb w)] /\
    drawFramebufferStack w1 = drawFramebufferStack w /\
    viewportStack w1 = viewportStack w /\
    glTextures w1 = glTextures (restored d (restorable fb) w).
Proof.
  eexists. split; [reflexivity|].
  split; [apply restore_checked_log|].
  unfold restore_checked. cbn.
  now rewrite restored_stack, restored_viewport.
Qed.

(** X19: [restore] leaves the viewport stack as it was and, on a throw, the
    Framebuffer as it was.  The draw-framebuffer stack sees no operation
    when the object was still valid.  When it was not, and the Framebuffer
    has no depth or depth-stencil buffer, [restore] returns or throws
    FramebufferIncomplete after one push and one pop, the stack as before;
    with such a buffer it throws a TypeError after the push, and the stack
    is one deeper, the new object on top. *)
Theorem restore_binding_stacks (fb : Framebuffer.t) (w : World) :
  exists (r : Res unit) (s' : Framebuffer.State) (evts : list Event),
    Framebuffer.restore d (Framebuffer.mkState fb w) = (r, s') /\
    log (Framebuffer.world s') = log w ++ evts /\
    viewportStack (Framebuffer.world s') = viewportStack w /\
    (r = Ok tt \/ Framebuffer.this s' = fb) /\
    if reported_valid d fb w then
      r = Ok tt /\
      stack_ops evts = [] /\
      drawFramebufferStack (Framebuffer.world s') = drawFramebufferStack w
    else
      match Framebuffer.depthStencil fb with
      | None =>
          (r = Ok tt \/ r = Throw FramebufferIncomplete) /\
          stack_ops evts = [Push (init_fbo d (restore_checked d fb w)); Pop] /\
          drawFramebufferStack (Framebuffer.world s') = drawFramebufferStack w
      | Some _ =>
          r = Throw TypeError /\
          stack_ops evts = [Push (init_fbo d (restore_checked d fb w))] /\
          drawFramebufferStack (Framebuffer.world s')
          = init_fbo d (restore_checked d fb w) :: drawFramebufferStack w
      end.
Proof.
  rewrite restore_run.
  destruct (restore_checked_emits fb w) as (w1 & Hw1 & Hlog & Hstack & Hview & _).
  rewrite Hw1.
  assert (Hpre : stack_ops (map E_Texture_restore (restorable fb)
                            ++ [E_isFramebuffer (Framebuffer.glFramebuffer fb)
                                  (reported_valid d fb w)]) = []).
  { rewrite stack_ops_app. unfold stack_ops at 1.
    now rewrite omap_texture_restores. }
  destruct (reported_valid d fb w) eqn:Hvalid.
  - eexists _, _, _. split; [reflexivity|]. cbn [Framebuffer.world].
    split; [exact Hlog|]. split; [exact Hview|]. split; [now left|].
    split; [reflexivity|]. split; [exact Hpre|exact Hstack].
  - rewrite init_run.
    destruct (Framebuffer.depthStencil fb) as [depthStencil|] eqn:Hdepth;
      [|destruct (_ =? GL.FRAMEBUFFER_COMPLETE)%Z].
    + eexists _, _, _. split; [reflexivity|].
      cbn [Framebuffer.world Framebuffer.this].
      split; [unfold init_interrupted; cbn [log set_drawFramebufferStack];
              rewrite log_emits, Hlog, <- app_assoc; reflexivity|].
      split; [exact Hview|]. split; [now right|].
      split; [reflexivity|].
      split; [now rewrite stack_ops_app, Hpre, stack_ops_init_prefix|].
      unfold init_interrupted. cbn. now rewrite Hstack.
    + eexists _, _, _. split; [reflexivity|]. cbn [Framebuffer.world].
      split; [rewrite log_emits, Hlog, <- app_assoc; reflexivity|].
      split; [exact Hview|]. split; [now left|].
      split; [now left|].
      split; [now rewrite stack_ops_app, Hpre, stack_ops_init_scope|].
      exact Hstack.
    + eexists _, _, _. split; [reflexivity|].
      cbn [Framebuffer.world Framebuffer.this].
      split; [rewrite log_emits, Hlog, <- app_assoc; reflexivity|].
      split; [exact Hview|]. split; [now right|].
      split; [now right|].
      split; [|exact Hstack].
      rewrite stack_ops_app, Hpre.
      now rewrite stack_ops_app, stack_ops_init_scope.
Qed.


Lemma init_handle_attachments (fb : Framebuffer.t) (w : World) :
  exists (r : Res unit) (s' : Framebuffer.State) (evts : list Event),
    Framebuffer.init d (Framebuffer.mkState fb w) = (r, s') /\
    log (Framebuffer.world s') = log w ++ evts /\
    handle_attachments evts = color_points w (Framebuffer.colors fb).
Proof.
  rewrite init_run.
  destruct (Framebuffer.depthStencil fb) as [depthStencil|] eqn:Hdepth;
    [|destruct (_ =? GL.FRAMEBUFFER_COMPLETE)%Z].
  - eexists _, _, _. split; [reflexivity|]. cbn [Framebuffer.world].
    split; [reflexivity|apply handle_attachments_init_prefix].
  - eexists _, _, _. split; [reflexivity|]. cbn [Framebuffer.world].
    split; [reflexivity|apply handle_attachments_init_scope].
  - eexists _, _, _. split; [reflexivity|]. cbn [Framebuffer.world].
    split; [reflexivity|].
    unfold handle_attachments. rewrite omap_app.
    fold (handle_attachments (init_scope d fb w)).
    rewrite handle_attachments_init_scope. cbn. now rewrite app_nil_r.
Qed.

(** X21: [init] attaches the colour buffers in order, the i-th at
    COLOR_ATTACHMENT0 + i by the handle the texture holds when [init]
    starts, at pairwise different attachment points, and the depth or
    depth-stencil buffer, if any, at DEPTH_ATTACHMENT when the Framebuffer
    is depth-only and at DEPTH_STENCIL_ATTACHMENT otherwise; it changes no
    texture handle. *)
Theorem init_attaches_buffers_in_order (fb : Framebuffer.t) (w : World) :
  exists (r : Res unit) (s' : Framebuffer.State) (evts : list Event),
    Framebuffer.init d (Framebuffer.mkState fb w) = (r, s') /\
    log (Framebuffer.world s') = log w ++ evts /\
    handle_attachments evts = color_points w (Framebuffer.colors fb) /\
    NoDup (map fst (color_points w (Framebuffer.colors fb))) /\
    object_attachments evts
    = match Framebuffer.depthStencil fb with
      | Some t =>
          [(if Framebuffer.depthOnly fb then GL.DEPTH_ATTACHMENT
            else GL.DEPTH_STENCIL_ATTACHMENT, t)]
      | None => []
      end /\
    glTextures (Framebuffer.world s') = glTextures w.
Proof.
  rewrite init_run.
  assert (Hnodup : NoDup (map fst (color_points w (Framebuffer.colors fb)))).
  { unfold color_points.
    rewrite (map_fst_imap _ (fun i _ => GL.COLOR_ATTACHMENT0 + (0 + Z.of_nat i)))
      by (intros; cbn; lia).
    rewrite attachment_points_seqZ.
    apply NoDup_fmap_2; [intros x y; lia|apply NoDup_seqZ]. }
  destruct (Framebuffer.depthStencil fb) as [depthStencil|] eqn:Hdepth;
    [|destruct (_ =? GL.FRAMEBUFFER_COMPLETE)%Z].
  - eexists _, _, _. split; [reflexivity|]. cbn [Framebuffer.world].
    split; [reflexivity|].
    split; [apply handle_attachments_init_prefix|].
    split; [exact Hnodup|].
    split; [|reflexivity].
    rewrite object_attachments_init_prefix, Hdepth. reflexivity.
  - eexists _, _, _. split; [reflexivity|]. cbn [Framebuffer.world].
    split; [reflexivity|].
    split; [apply handle_attachments_init_scope|].
    split; [exact Hnodup|].
    split; [|reflexivity].
    rewrite object_attachments_init_scope, Hdepth. reflexivity.
  - eexists _, _, _. split; [reflexivity|]. cbn [Framebuffer.world].
    split; [reflexivity|].
    unfold handle_attachments, object_attachments. rewrite !omap_app.
    fold (handle_attachments (init_scope d fb w)).
    fold (object_attachments (init_scope d fb w)).
    rewrite handle_attachments_init_scope, object_attachments_init_scope.
    rewrite Hdepth. cbn. rewrite !app_nil_r. now repeat split.
Qed.

(** X22: when [restore] finds the object invalid, the handles it attaches
    are those the textures hold after their own [restore], not those they
    held when [restore] was called. *)
Theorem restore_attaches_restored_handles (fb : Framebuffer.t) (w : World) :
  reported_valid d fb w = false ->
  exists (r : Res unit) (s' : Framebuffer.State) (evts : list Event),
    Framebuffer.restore d (Framebuffer.mkState fb w) = (r, s') /\
    log (Framebuffer.world s') = log w ++ evts /\
    handle_attachments evts
    = color_points (restored d (restorable fb) w) (Framebuffer.colors fb).
Proof.
  intros Hvalid. rewrite restore_run, Hvalid.
  destruct (restore_checked_emits fb w) as (w1 & Hw1 & Hlog & _ & _ & Htex).
  rewrite Hw1.
  destruct (init_handle_attachments fb w1)
    as (r & s' & evts & Hinit & Hlog' & Hhandles).
  exists r, s', (map E_Texture_restore (restorable fb)
                 ++ [E_isFramebuffer (Framebuffer.glFramebuffer fb) false]
                 ++ evts).
  split; [exact Hinit|].
  split; [rewrite Hlog', Hlog, Hvalid, <- !app_assoc; reflexivity|].
  unfold handle_attachments in *.
  rewrite omap_app, omap_texture_restores by reflexivity.
  rewrite omap_app. cbn [omap list_omap app]. cbn.
  rewrite Hhandles. unfold color_points. now rewrite Htex.
Qed.

End RestoreMore.

(** A driver that finds the object invalid and gives every restored texture
    the handle 9. *)
Lemma restore_attaches_restored_handles_witness :
  reported_valid recreating_driver initialised_framebuffer textured_world
  = false /\
  exists (r : Res unit) (s' : Framebuffer.State) (evts : list Event),
    Framebuffer.restore recreating_driver
      (Framebuffer.mkState initialised_framebuffer textured_world) = (r, s') /\
    log (Framebuffer.world s') = log textured_world ++ evts /\
    handle_attachments evts = [(GL.COLOR_ATTACHMENT0 + 0, Some 9%nat)].
Proof.
  split; [reflexivity|].
  exact (restore_attaches_restored_handles recreating_driver
           initialised_framebuffer textured_world eq_refl).
Defined.

(** ** Command.create and the draw it prepares *)

Section CreateFields.
Variable d : Driver.
Context {P : Type}.

Lemma create_ok_fields (props : Command.CommandProps P) (w w' : World)
    (c : Command.t P) :
  Command.create d props w = (Ok c, w') ->
  Command.glPrimitive c
  = Command.mapGlPrimitive (default Command.Triangles (Command.primitive props))
  /\ Command.clearInfo c
     = Some (default (Command.mkClearInfo None None None) (Command.clear props)).
Proof.
  unfold Command.create. cbv zeta.
  unfold bind at 1. unfold glutil.createShader at 1.
  unfold bind at 1. unfold gl.query at 1. cbv beta zeta.
  destruct (drv_createShader d (log w) GL.VERTEX_SHADER (Command.vert props))
    as [e1|vertShader]; [discriminate|].
  unfold ret at 1.
  unfold bind at 1. unfold glutil.createShader at 1.
  unfold bind at 1. unfold gl.query at 1. cbv beta zeta.
  destruct (drv_createShader d _ GL.FRAGMENT_SHADER (Command.frag props))
    as [e2|fragShader]; [discriminate|].
  unfold ret at 1.
  unfold bind at 1. unfold glutil.createProgram at 1.
  unfold bind at 1. unfold gl.query at 1. cbv beta zeta.
  destruct (drv_createProgram d _ vertShader fragShader) as [e3|program];
    [discriminate|].
  unfold ret at 1.
  unfold bind at 1. unfold gl.deleteShader at 1, gl.call, modify.
  unfold bind at 1. unfold gl.deleteShader at 1, gl.call, modify.
  unfold bind at 1.
  destruct (mapM _ _ _) as [[infos|e] w0]; [|discriminate].
  unfold ret. intros [= <- _]. cbn [Command.glPrimitive Command.clearInfo].
  split; [reflexivity|].
  now destruct (default _ (Command.clear props)).
Qed.

(** X23: a Command that [create] returns draws with the mode of the
    primitive it was given, TRIANGLES when none was given, and clears what
    its [clear] prop defines: created without a [clear] prop, its [clear]
    makes no call at all. *)
Theorem created_command_draws_and_clears_as_declared
    (props : Command.CommandProps P) (w w' : World) (c : Command.t P) :
  Command.create d props w = (Ok c, w') ->
  (forall primitive,
      Command.primitive props = Some primitive ->
      primitive_of_mode (Command.glPrimitive c) = Some primitive) /\
  (Command.primitive props = None -> Command.glPrimitive c = GL.TRIANGLES) /\
  (forall info,
      Command.clear props = Some info ->
      clear_calls c
      = clear_setters info
        ++ (if (clear_mask info =? 0)%Z then []
            else [C_clear (clear_mask info)])) /\
  (Command.clear props = None ->
   forall ctx, CommandRun.clear c ctx = (Ok tt, ctx)).
Proof.
  intros Hcreate. destruct (create_ok_fields _ _ _ _ Hcreate) as [Hprim Hclear].
  split; [|split; [|split]].
  - intros primitive Hp. rewrite Hprim, Hp. cbn [default from_option id].
    apply primitive_of_mode_mapGlPrimitive.
  - intros Hp. now rewrite Hprim, Hp.
  - intros info Hinfo. unfold clear_calls. now rewrite Hclear, Hinfo.
  - intros Hnone ctx. rewrite clear_run.
    assert (Hcalls : clear_calls c = [])
      by (unfold clear_calls; rewrite Hclear, Hnone; reflexivity).
    now rewrite Hcalls, add_calls_nil.
Qed.

End CreateFields.

(** The command of the first scenario: one colour uniform, nothing else. *)
Lemma created_command_draws_and_clears_as_declared_witness :
  exists (c : Command.t unit) (w' : World),
    Command.create one_uniform_driver (color_props ["u_color"]) fresh_world
    = (Ok c, w') /\
    Command.glPrimitive c = GL.TRIANGLES /\
    forall ctx, CommandRun.clear c ctx = (Ok tt, ctx).
Proof.
  eexists _, _. split; [reflexivity|].
  pose proof (created_command_draws_and_clears_as_declared one_uniform_driver
                (color_props ["u_color"]) fresh_world _ _ eq_refl)
    as (_ & Hprim & _ & Hclear).
  split; [exact (Hprim eq_refl)|exact (Hclear eq_refl)].
Defined.
